(** * The generation orchestration engine of content-tool

    A shallow embedding of the backend's generation services

      - [src/utils/script_parser.py]              (module [ScriptParser])
      - [src/services/image_generation_service.py]
        and [src/services/volc_jimeng_service.py] (module [ImageGeneration])
      - [src/services/keyframe_service.py]        (module [KeyframeService])
      - [src/services/video_service.py]           (module [VideoService])

    together with the parts of the Python runtime they rest on (strings,
    the [re] patterns of the parser, JSON values, exceptions), followed by
    the properties of the specification, stated and settled on that
    embedding.

    Conventions.  A Python [str] is the list of its code points.  A nullable
    column or an [Optional] argument is an [option].  A function that can
    raise returns in the monad [M] of module [Runtime], which threads the
    database, the outside world (HTTP vendors, object storage, clock) and the
    log of every call made to the outside world. *)

From Stdlib Require Import ZArith NArith QArith String Ascii List Sorted Permutation.
From Stdlib Require DecimalN.
From stdpp Require Import base decidable option list sorting gmap.

Set Default Proof Using "Type".
Set Warnings "-register-all".
Local Open Scope N_scope.

(* ================================================================== *)
(** * Part I. The embedding *)
(* ================================================================== *)

(** ** Python strings *)

Module Py.

(** A [str] is a sequence of Unicode code points. *)
Definition str := list N.

(** Source literals are written as in the Python files: [u "..."] reads the
    UTF-8 bytes of the literal back into code points. *)
Fixpoint utf8_decode (bs : list N) : str :=
  match bs with
  | [] => []
  | b0 :: r0 =>
    if b0 <? 128 then b0 :: utf8_decode r0
    else if b0 <? 224 then
      match r0 with
      | b1 :: r1 => ((b0 - 192) * 64 + (b1 - 128)) :: utf8_decode r1
      | [] => []
      end
    else if b0 <? 240 then
      match r0 with
      | b1 :: b2 :: r2 =>
        ((b0 - 224) * 4096 + (b1 - 128) * 64 + (b2 - 128)) :: utf8_decode r2
      | _ => []
      end
    else
      match r0 with
      | b1 :: b2 :: b3 :: r3 =>
        ((b0 - 240) * 262144 + (b1 - 128) * 4096 + (b2 - 128) * 64 + (b3 - 128))
          :: utf8_decode r3
      | _ => []
      end
  end.

Definition u (s : string) : str :=
  utf8_decode (map N_of_ascii (list_ascii_of_string s)).

(** Truth value of an [Optional[str]]: [None] and [''] are false. *)
Definition truthy (o : option str) : bool :=
  match o with
  | Some (_ :: _) => true
  | _ => false
  end.

(** [x or ''] for an [Optional[str]]. *)
Definition or_empty (o : option str) : str :=
  match o with
  | Some (c :: s) => c :: s
  | _ => []
  end.

(** [str.isspace] on one character, which is also the class [\s] of [re] on
    [str] patterns: the characters of category Zs or of bidirectional class
    WS, B or S. *)
Definition isspace (c : N) : bool :=
  ((9 <=? c) && (c <=? 13)) || ((28 <=? c) && (c <=? 32))
  || (c =? 133) || (c =? 160) || (c =? 5760)
  || ((8192 <=? c) && (c <=? 8202))
  || (c =? 8232) || (c =? 8233) || (c =? 8239) || (c =? 8287) || (c =? 12288).

Fixpoint lstrip (s : str) : str :=
  match s with
  | c :: s' => if isspace c then lstrip s' else s
  | [] => []
  end.

Definition rstrip (s : str) : str := rev (lstrip (rev s)).

Definition strip (s : str) : str := rstrip (lstrip s).

(** [s[a:b]] for [0 <= a], [0 <= b]. *)
Definition slice (a b : nat) (s : str) : str := take (b - a)%nat (drop a s).

Fixpoint startswith (s p : str) {struct p} : bool :=
  match p, s with
  | [], _ => true
  | _ :: _, [] => false
  | c :: p', d :: s' => (c =? d) && startswith s' p'
  end.

Definition endswith (s p : str) : bool := startswith (rev s) (rev p).

Definition eqb (a b : str) : bool := bool_decide (a = b).

(** [s.replace(old, '')] for a non-empty [old]: the occurrences of [old] are
    removed from left to right, without overlap.  [skip] counts the
    characters of an occurrence still to be dropped. *)
Fixpoint remove_from (old : str) (skip : nat) (s : str) : str :=
  match s with
  | [] => []
  | c :: s' =>
    match skip with
    | S k => remove_from old k s'
    | O =>
      if startswith s old
      then remove_from old (pred (length old)) s'
      else c :: remove_from old 0 s'
    end
  end.

Definition remove (s old : str) : str := remove_from old 0 s.

(** Comparison of strings by code point, the order of [str.__lt__] and of a
    binary collation. *)
Fixpoint compare (a b : str) : comparison :=
  match a, b with
  | [], [] => Eq
  | [], _ :: _ => Lt
  | _ :: _, [] => Gt
  | x :: a', y :: b' =>
    match N.compare x y with
    | Eq => compare a' b'
    | c => c
    end
  end.

Definition leb (a b : str) : bool :=
  match compare a b with
  | Gt => false
  | _ => true
  end.

(** Decimal digits of a non-negative integer, as [str(n)] prints them. *)
Fixpoint str_of_uint (d : Decimal.uint) : str :=
  match d with
  | Decimal.Nil => []
  | Decimal.D0 d => 48 :: str_of_uint d
  | Decimal.D1 d => 49 :: str_of_uint d
  | Decimal.D2 d => 50 :: str_of_uint d
  | Decimal.D3 d => 51 :: str_of_uint d
  | Decimal.D4 d => 52 :: str_of_uint d
  | Decimal.D5 d => 53 :: str_of_uint d
  | Decimal.D6 d => 54 :: str_of_uint d
  | Decimal.D7 d => 55 :: str_of_uint d
  | Decimal.D8 d => 56 :: str_of_uint d
  | Decimal.D9 d => 57 :: str_of_uint d
  end.

Definition str_of_N (n : N) : str := str_of_uint (N.to_uint n).

Definition str_of_nat (n : nat) : str := str_of_N (N.of_nat n).

Definition str_of_Z (z : Z) : str :=
  match z with
  | Zneg p => u "-" ++ str_of_N (Npos p)
  | _ => str_of_N (Z.to_N z)
  end.

(** The format [{n:02d}] for [0 <= n]. *)
Definition format_02d (n : N) : str :=
  let s := str_of_N n in
  if (length s <? 2)%nat then 48 :: s else s.

End Py.

Abbreviation str := Py.str.
Abbreviation u := Py.u.

(** ** The fragment of [re] used by the parser

    A backtracking matcher in the list-of-successes style: [run r st] lists
    the states in which a match of [r] started in [st] can end, in the order
    in which the backtracking engine of [re] tries them, so that its head is
    the match [re] reports.  Quantifiers apply to single-character classes,
    which is all the patterns of the repository need.  The class [\d] is the
    interpreter's table of Unicode decimal digits; it is a parameter
    [is_decimal] of the matcher. *)

Module Re.

Inductive cls :=
| Any            (* .   *)
| Digit          (* \d  *)
| Space          (* \s  *)
| Chr (c : N).   (* one literal character *)

Inductive re :=
| Lit (s : str)          (* a literal string *)
| One (c : cls)
| OneOf (cs : list N)    (* [...] *)
| Seq (r1 r2 : re)
| Alt (r1 r2 : re)       (* r1|r2 *)
| Grp (n : nat) (r : re) (* capturing group number n *)
| Star (c : cls)         (* c*  *)
| Plus (c : cls)         (* c+  *)
| PlusLazy (c : cls)     (* c+? *)
| Ahead (r : re)         (* (?=r) *)
| Bol                    (* ^   *)
| Eol                    (* $   *)
| EndZ.                  (* \Z  *)

(** [cat [r1; ...; rn]] is the concatenation r1...rn. *)
Definition cat (rs : list re) : re := foldr Seq (Lit []) rs.

Record flags := { MULTILINE : bool; DOTALL : bool }.

Definition no_flags : flags := {| MULTILINE := false; DOTALL := false |}.

(** A position in the subject: the index, the character before it and the
    text from it on. *)
Record cursor := { pos : nat; prev : option N; rest : str }.

(** A matcher state: the position and the spans of the groups matched so
    far, latest first. *)
Record mstate := { cur : cursor; caps : list (nat * (nat * nat)) }.

Definition advance (k : cursor) : option (N * cursor) :=
  match rest k with
  | c :: r => Some (c, {| pos := S (pos k); prev := Some c; rest := r |})
  | [] => None
  end.

Definition with_cur (st : mstate) (k : cursor) : mstate :=
  {| cur := k; caps := caps st |}.

Fixpoint lit (s : str) (k : cursor) : list cursor :=
  match s with
  | [] => [k]
  | c :: s' =>
    match advance k with
    | Some (d, k') => if c =? d then lit s' k' else []
    | None => []
    end
  end.

(** Greedy repetition: the longest run first, then shorter ones. *)
Fixpoint greedy (f : N -> bool) (p : nat) (pv : option N) (r : str) : list cursor :=
  match r with
  | c :: r' =>
    if f c
    then greedy f (S p) (Some c) r' ++ [{| pos := p; prev := pv; rest := r |}]
    else [{| pos := p; prev := pv; rest := r |}]
  | [] => [{| pos := p; prev := pv; rest := r |}]
  end.

(** Lazy repetition: the shortest run first, then longer ones. *)
Fixpoint lazy (f : N -> bool) (p : nat) (pv : option N) (r : str) : list cursor :=
  {| pos := p; prev := pv; rest := r |} ::
  match r with
  | c :: r' => if f c then lazy f (S p) (Some c) r' else []
  | [] => []
  end.

Definition at_bol (fl : flags) (k : cursor) : bool :=
  match prev k with
  | None => true
  | Some c => MULTILINE fl && (c =? 10)
  end.

Definition at_eol (fl : flags) (k : cursor) : bool :=
  match rest k with
  | [] => true
  | c :: r => (c =? 10) && (MULTILINE fl || bool_decide (r = []))
  end.

Section Matcher.

Variable is_decimal : N -> bool.
Variable fl : flags.

Definition cls_mem (c : cls) (x : N) : bool :=
  match c with
  | Any => DOTALL fl || negb (x =? 10)
  | Digit => is_decimal x
  | Space => Py.isspace x
  | Chr y => x =? y
  end.

Definition one (f : N -> bool) (k : cursor) : list cursor :=
  match advance k with
  | Some (c, k') => if f c then [k'] else []
  | None => []
  end.

Fixpoint run (r : re) (st : mstate) : list mstate :=
  match r with
  | Lit s => with_cur st <$> lit s (cur st)
  | One c => with_cur st <$> one (cls_mem c) (cur st)
  | OneOf cs => with_cur st <$> one (fun x => existsb (N.eqb x) cs) (cur st)
  | Seq r1 r2 => flat_map (run r2) (run r1 st)
  | Alt r1 r2 => run r1 st ++ run r2 st
  | Grp n r1 =>
    (fun st' =>
       {| cur := cur st';
          caps := (n, (pos (cur st), pos (cur st'))) :: caps st' |})
      <$> run r1 st
  | Star c =>
    with_cur st <$> greedy (cls_mem c) (pos (cur st)) (prev (cur st)) (rest (cur st))
  | Plus c =>
    with_cur st <$>
      flat_map (fun k => greedy (cls_mem c) (pos k) (prev k) (rest k))
               (one (cls_mem c) (cur st))
  | PlusLazy c =>
    with_cur st <$>
      flat_map (fun k => lazy (cls_mem c) (pos k) (prev k) (rest k))
               (one (cls_mem c) (cur st))
  | Ahead r1 =>
    match run r1 st with
    | st' :: _ => [{| cur := cur st; caps := caps st' |}]
    | [] => []
    end
  | Bol => if at_bol fl (cur st) then [st] else []
  | Eol => if at_eol fl (cur st) then [st] else []
  | EndZ => if bool_decide (rest (cur st) = []) then [st] else []
  end.

(** A match object: its span and the spans of its groups. *)
Record rmatch := { m_start : nat; m_end : nat; m_caps : list (nat * (nat * nat)) }.

(** The match of [r] that starts at the cursor, if there is one. *)
Definition match_at (r : re) (k : cursor) : option rmatch :=
  match run r {| cur := k; caps := [] |} with
  | st :: _ =>
    Some {| m_start := pos k; m_end := pos (cur st); m_caps := caps st |}
  | [] => None
  end.

(** [re.search]: the match at the leftmost position that has one. *)
Fixpoint search_from (r : re) (p : nat) (pv : option N) (s : str) : option rmatch :=
  match match_at r {| pos := p; prev := pv; rest := s |} with
  | Some m => Some m
  | None =>
    match s with
    | c :: s' => search_from r (S p) (Some c) s'
    | [] => None
    end
  end.

Definition search (r : re) (s : str) : option rmatch := search_from r 0 None s.

(** [re.finditer]: the matches from left to right, without overlap.  After
    a match of length n the scan resumes n characters further; [skip] counts
    the characters of the last match still to be passed.  (No pattern of the
    repository matches the empty string; an empty match is recorded and the
    scan moves on by one character.) *)
Fixpoint finditer_from (r : re) (skip : nat) (p : nat) (pv : option N) (s : str)
  : list rmatch :=
  match skip with
  | S k =>
    match s with
    | c :: s' => finditer_from r k (S p) (Some c) s'
    | [] => []
    end
  | O =>
    match match_at r {| pos := p; prev := pv; rest := s |} with
    | Some m =>
      m :: match s with
           | c :: s' => finditer_from r (pred (m_end m - p)) (S p) (Some c) s'
           | [] => []
           end
    | None =>
      match s with
      | c :: s' => finditer_from r 0 (S p) (Some c) s'
      | [] => []
      end
    end
  end.

Definition finditer (r : re) (s : str) : list rmatch := finditer_from r 0 0 None s.

(** [re.sub(r, repl, s)] for a constant replacement. *)
Fixpoint sub_from (repl s : str) (from : nat) (ms : list rmatch) : str :=
  match ms with
  | [] => drop from s
  | m :: ms' => Py.slice from (m_start m) s ++ repl ++ sub_from repl s (m_end m) ms'
  end.

Definition sub (r : re) (repl s : str) : str := sub_from repl s 0 (finditer r s).

End Matcher.

(** [m.group(n)]: the text of group [n], [None] if it took no part. *)
Definition group (s : str) (m : rmatch) (n : nat) : option str :=
  match List.find (fun c => Nat.eqb (fst c) n) (m_caps m) with
  | Some (_, (a, b)) => Some (Py.slice a b s)
  | None => None
  end.

End Re.

(** ** [src/utils/script_parser.py] *)

Module ScriptParser.

(** [class ScriptSegment] *)
Record ScriptSegment := {
  segment_id : str;
  time_range : str;
  content : str;
  is_first : bool;
  is_last : bool;
  is_frame_0 : bool;
}.

Definition nl : N := 10.

(** The two colons of the class [[：:]]. *)
Definition colons : list N := u "：:".

(** [frame_0_pattern], searched with MULTILINE | DOTALL:
<<
  (?:^第0帧[：:]\s*(.+?)(?=\n|$)
    |^\(0:00\s*-\s*0:00\)\s*开场画面[：:]\s*(.+?)(?=\n|$)
    |^(开场画面[：:]\s*.+?)(?=\n\d+-\d+s|\n\(|\Z))
>> *)
Definition frame_0_pattern : Re.re :=
  Re.Alt
    (Re.cat [Re.Bol; Re.Lit (u "第0帧"); Re.OneOf colons; Re.Star Re.Space;
             Re.Grp 1 (Re.PlusLazy Re.Any);
             Re.Ahead (Re.Alt (Re.Lit [nl]) Re.Eol)])
  (Re.Alt
    (Re.cat [Re.Bol; Re.Lit (u "(0:00"); Re.Star Re.Space; Re.Lit (u "-");
             Re.Star Re.Space; Re.Lit (u "0:00)"); Re.Star Re.Space;
             Re.Lit (u "开场画面"); Re.OneOf colons; Re.Star Re.Space;
             Re.Grp 2 (Re.PlusLazy Re.Any);
             Re.Ahead (Re.Alt (Re.Lit [nl]) Re.Eol)])
    (Re.cat [Re.Bol;
             Re.Grp 3 (Re.cat [Re.Lit (u "开场画面"); Re.OneOf colons;
                               Re.Star Re.Space; Re.PlusLazy Re.Any]);
             Re.Ahead
               (Re.Alt (Re.cat [Re.Lit [nl]; Re.Plus Re.Digit; Re.Lit (u "-");
                                Re.Plus Re.Digit; Re.Lit (u "s")])
               (Re.Alt (Re.cat [Re.Lit [nl]; Re.Lit (u "(")])
                       Re.EndZ))])).

Definition frame_0_flags : Re.flags := {| Re.MULTILINE := true; Re.DOTALL := true |}.

(** [time_pattern]:
<<
  (?:\((\d+:\d+)\s*-\s*(\d+:\d+)\)|\((\d+)-(\d+)s\)|^(\d+)-(\d+)s\s)
>> *)
Definition time_pattern : Re.re :=
  Re.Alt
    (Re.cat [Re.Lit (u "(");
             Re.Grp 1 (Re.cat [Re.Plus Re.Digit; Re.Lit (u ":"); Re.Plus Re.Digit]);
             Re.Star Re.Space; Re.Lit (u "-"); Re.Star Re.Space;
             Re.Grp 2 (Re.cat [Re.Plus Re.Digit; Re.Lit (u ":"); Re.Plus Re.Digit]);
             Re.Lit (u ")")])
  (Re.Alt
    (Re.cat [Re.Lit (u "("); Re.Grp 3 (Re.Plus Re.Digit); Re.Lit (u "-");
             Re.Grp 4 (Re.Plus Re.Digit); Re.Lit (u "s)")])
    (Re.cat [Re.Bol; Re.Grp 5 (Re.Plus Re.Digit); Re.Lit (u "-");
             Re.Grp 6 (Re.Plus Re.Digit); Re.Lit (u "s"); Re.One Re.Space])).

Definition multiline : Re.flags := {| Re.MULTILINE := true; Re.DOTALL := false |}.

(** The pattern [\n\s*\n+] of the blank-line clean-up. *)
Definition blank_lines_pattern : Re.re :=
  Re.cat [Re.Lit [nl]; Re.Star Re.Space; Re.Plus (Re.Chr nl)].

(** [a or b] on optional strings. *)
Definition py_or (a b : option str) : option str :=
  if Py.truthy a then a else b.

Section Parser.

(** The interpreter's Unicode tables: the decimal digits ([\d]) and their
    values ([int]). *)
Variable is_decimal : N -> bool.
Variable decimal_value : N -> N.

(** [int(s)] for a string of decimal digits. *)
Definition int (s : str) : N :=
  fold_left (fun acc c => 10 * acc + decimal_value c) s 0.

(** [f'0:{n:02d}' if n < 60 else f'{n // 60}:{n % 60:02d}'] *)
Definition seconds_to_time (n : N) : str :=
  if n <? 60 then u "0:" ++ Py.format_02d n
  else Py.str_of_N (n / 60) ++ u ":" ++ Py.format_02d (n mod 60).

(** The body of the loop [for i, match in enumerate(matches)]; [None] is
    the [continue] of its last branch. *)
Definition segment_of_match (script_content : str) (matches : list Re.rmatch)
    (i : nat) (m : Re.rmatch) : option ScriptSegment :=
  let g := Re.group script_content m in
  let times :=
    if Py.truthy (g 1%nat) && Py.truthy (g 2%nat) then
      Some (Py.or_empty (g 1%nat), Py.or_empty (g 2%nat))
    else if Py.truthy (g 3%nat) && Py.truthy (g 4%nat) then
      Some (seconds_to_time (int (Py.or_empty (g 3%nat))),
            seconds_to_time (int (Py.or_empty (g 4%nat))))
    else if Py.truthy (g 5%nat) && Py.truthy (g 6%nat) then
      Some (seconds_to_time (int (Py.or_empty (g 5%nat))),
            seconds_to_time (int (Py.or_empty (g 6%nat))))
    else None in
  match times with
  | None => None
  | Some (start_time, end_time) =>
    let time_range := start_time ++ u " - " ++ end_time in
    let segment_start := Re.m_end m in
    let segment_end :=
      if (i <? length matches - 1)%nat
      then match matches !! S i with
           | Some next => Re.m_start next
           | None => length script_content
           end
      else length script_content in
    let segment_content := Py.strip (Py.slice segment_start segment_end script_content) in
    let segment_content :=
      Py.strip (Re.sub is_decimal Re.no_flags time_pattern [] segment_content) in
    let segment_content :=
      Re.sub is_decimal Re.no_flags blank_lines_pattern [nl; nl] segment_content in
    let segment_content := Py.strip segment_content in
    Some {| segment_id := u "segment_" ++ Py.str_of_nat i;
            time_range := time_range;
            content := segment_content;
            is_first := Nat.eqb i 0;
            is_last := Nat.eqb i (length matches - 1);
            is_frame_0 := false |}
  end.

(** [frame_0_content]: [None] when the pattern has no match, else the
    stripped text of the group that matched. *)
Definition frame_0_content_of (script_content : str) : option str :=
  match Re.search is_decimal frame_0_flags frame_0_pattern script_content with
  | Some m =>
    let g := Re.group script_content m in
    Some (Py.strip (Py.or_empty (py_or (g 1%nat) (py_or (g 2%nat) (g 3%nat)))))
  | None => None
  end.

(** [time_pattern] matches of the script, as [re.finditer] with MULTILINE. *)
Definition time_matches (script_content : str) : list Re.rmatch :=
  Re.finditer is_decimal multiline time_pattern script_content.

Definition parse_script (script_content : str) : list ScriptSegment :=
  if bool_decide (script_content = []) || bool_decide (Py.strip script_content = [])
  then []
  else
    let frame_0_content := frame_0_content_of script_content in
    let segments :=
      if Py.truthy frame_0_content then
        [{| segment_id := u "frame_0";
            time_range := u "0:00 - 0:00";
            content := Py.or_empty frame_0_content;
            is_first := false;
            is_last := false;
            is_frame_0 := true |}]
      else [] in
    let matches := time_matches script_content in
    if bool_decide (matches = []) then
      if Py.truthy frame_0_content then segments
      else
        [{| segment_id := u "segment_0";
            time_range := [];
            content := Py.strip script_content;
            is_first := true;
            is_last := true;
            is_frame_0 := false |}]
    else
      segments ++ omap id (imap (segment_of_match script_content matches) matches).

(** [extract_prompt_for_segment] *)
Definition extract_prompt_for_segment (segment : ScriptSegment) (is_first_frame : bool)
  : str :=
  let prompt := content segment in
  let prompt :=
    if is_first_frame && is_first segment
    then prompt ++ u " 开场画面，第一帧，初始场景"
    else prompt in
  Py.strip prompt.

End Parser.

(** [get_segment_by_id]: the first segment of the list that has the id. *)
Fixpoint get_segment_by_id (segments : list ScriptSegment) (sid : str)
  : option ScriptSegment :=
  match segments with
  | [] => None
  | segment :: segments' =>
    if Py.eqb (segment_id segment) sid then Some segment
    else get_segment_by_id segments' sid
  end.

(** The tables restricted to the ASCII digits, on which every Unicode table
    agrees; they serve to run the parser on texts whose digits are ASCII. *)
Definition ascii_is_decimal (c : N) : bool := (48 <=? c) && (c <=? 57).
Definition ascii_decimal_value (c : N) : N := c - 48.

End ScriptParser.

(** ** The tables ([src/models/tables]) *)

(** Timestamps are instants in microseconds since the epoch (UTC), so that
    [timedelta] arithmetic is integer arithmetic; a naive [datetime] read
    from the database is taken as UTC, as [_refresh_stale_keyframes] does. *)
Definition timestamp := Z.
Bind Scope Z_scope with timestamp.

Module KeyframeStatus.
Inductive t := PENDING | GENERATING | COMPLETED | FAILED.
#[global] Instance eq_dec : EqDecision t.
Proof. solve_decision. Defined.
End KeyframeStatus.

Module VideoStatus.
Inductive t := PENDING | GENERATING | COMPLETED | FAILED.
#[global] Instance eq_dec : EqDecision t.
Proof. solve_decision. Defined.
End VideoStatus.

Module Script.
(** The columns of [scripts] the services read. *)
Record t := {
  id : Z;
  content : option str;
}.
End Script.

Module Keyframe.
Record t := {
  id : Z;
  script_id : Z;
  segment_id : str;
  image_url : option str;
  prompt : option str;
  status : KeyframeStatus.t;
  error_message : option str;
  created_at : timestamp;
  updated_at : option timestamp;
}.
#[global] Instance eq_dec : EqDecision t.
Proof. solve_decision. Defined.
End Keyframe.

#[global] Instance Q_eq_dec : EqDecision Q.
Proof. solve_decision. Defined.

Module VideoSegment.
Record t := {
  id : Z;
  script_id : Z;
  segment_index : Z;
  first_frame_url : option str;
  last_frame_url : option str;
  prompt : option str;
  video_url : option str;
  model : option str;
  aspect_ratio : option str;
  status : VideoStatus.t;
  (** a finite [float] is a rational *)
  duration : Q;
  task_id : option str;
  error_message : option str;
  created_at : timestamp;
  updated_at : option timestamp;
}.
#[global] Instance eq_dec : EqDecision t.
Proof. solve_decision. Defined.
End VideoSegment.

(** The database: the rows of each table in insertion order, and the next
    value of each auto-increment primary key. *)
Record database := {
  scripts : list Script.t;
  keyframes : list Keyframe.t;
  video_segments : list VideoSegment.t;
  next_keyframe_id : Z;
  next_video_segment_id : Z;
}.

(** ** Exceptions, JSON values and the outside world *)

Module Runtime.

(** The exceptions the services raise or meet.  [NotFoundError] and
    [ValidationError] are those of [src/utils/exceptions.py]; [Exception] is
    [raise Exception(msg)]; the two httpx errors are told apart by the
    handlers of the image service; [OtherError] is any other error of the
    interpreter or of a library ([KeyError], [AttributeError], a JSON
    decoding error, ...), with the text [str(e)] gives. *)
Inductive exn :=
| NotFoundError (resource : str)
| ValidationError (detail : str)
| Exception (msg : str)
| HTTPStatusError (status_code : N) (msg : str)
| RequestError (msg : str)
| OtherError (msg : str).

(** [str(e)] *)
Definition str_of_exn (e : exn) : str :=
  match e with
  | NotFoundError resource => u "404: " ++ resource ++ u "不存在"
  | ValidationError detail => u "400: " ++ detail
  | Exception msg => msg
  | HTTPStatusError _ msg => msg
  | RequestError msg => msg
  | OtherError msg => msg
  end.

Inductive result (A : Type) :=
| Ok (a : A)
| Raise (e : exn).
Arguments Ok {A} a.
Arguments Raise {A} e.

(** A decoded JSON value; a payload built by the services is one too.  An
    object keeps its members in order; a lookup takes the last member of a
    name, as [json.loads] does. *)
Inductive json :=
| JNull
| JBool (b : bool)
| JInt (n : Z)
| JFloat (q : Q)
| JStr (s : str)
| JList (l : list json)
| JObj (members : list (str * json)).

Definition dict_lookup (members : list (str * json)) (key : str) : option json :=
  snd <$> List.find (fun m => Py.eqb (fst m) key) (rev members).

(** Truth value of a Python object. *)
Definition truth (j : json) : bool :=
  match j with
  | JNull => false
  | JBool b => b
  | JInt n => negb (n =? 0)%Z
  | JFloat q => negb (Qeq_bool q 0)
  | JStr s => negb (bool_decide (s = []))
  | JList l => match l with [] => false | _ => true end
  | JObj m => match m with [] => false | _ => true end
  end.

(** [j == n] for an integer [n] other than 0 and 1 is false of booleans;
    [False == 0] and [True == 1]. *)
Definition eq_int (j : json) (n : Z) : bool :=
  match j with
  | JInt k => (k =? n)%Z
  | JFloat q => Qeq_bool q (inject_Z n)
  | JBool b => (Z.b2z b =? n)%Z
  | _ => false
  end.

Definition eq_str (j : json) (s : str) : bool :=
  match j with
  | JStr t => Py.eqb t s
  | _ => false
  end.

(** [j.get(key, default)] *)
Definition get (j : json) (key : str) (default : json) : result json :=
  match j with
  | JObj m => Ok (match dict_lookup m key with Some v => v | None => default end)
  | _ => Raise (OtherError (u "AttributeError: object has no attribute 'get'"))
  end.

(** [j[key]] *)
Definition getitem (j : json) (key : str) : result json :=
  match j with
  | JObj m =>
    match dict_lookup m key with
    | Some v => Ok v
    | None => Raise (OtherError (u "KeyError: " ++ key))
    end
  | _ => Raise (OtherError (u "TypeError: object is not subscriptable by str"))
  end.

(** [j[0]] *)
Definition getitem_0 (j : json) : result json :=
  match j with
  | JList (x :: _) => Ok x
  | JStr (c :: _) => Ok (JStr [c])
  | JList [] | JStr [] => Raise (OtherError (u "IndexError: index out of range"))
  | JObj _ => Raise (OtherError (u "KeyError: 0"))
  | _ => Raise (OtherError (u "TypeError: object is not subscriptable"))
  end.

(** [len(j)] *)
Definition len (j : json) : result nat :=
  match j with
  | JList l => Ok (length l)
  | JStr s => Ok (length s)
  | JObj m => Ok (length m)
  | _ => Raise (OtherError (u "TypeError: object has no len()"))
  end.

(** What the dictionary returned by [oss_service.upload_from_url] holds for
    its callers. *)
Record upload_result := { upload_url : str; object_key : str }.

(** Every call that leaves the process, in the order made.  [EvGenerateImage]
    records a call of [image_generation_service.generate_image] with its
    arguments; request headers are not recorded. *)
Inductive event :=
| EvPost (url : str) (params : list (str * str)) (body : json)
| EvGet (url : str)
| EvUpload (url filename category : str)
| EvSleep (seconds : N)
| EvUtcNow
| EvDbNow
| EvLocalNow
| EvGenerateImage (prompt model aspect_ratio : str) (quality : option str)
                  (reference_image_url : option str).

(** The environment of a run: the interpreter's tables, the configuration
    read at start-up, and the behaviour of the outside world, which answers
    each call as a function of the calls made before it.
      - [http_post]: [client.post(...)], [raise_for_status()] and [.json()];
      - [http_get]: [client.get(...)] and [raise_for_status()];
      - [oss_upload_from_url]: [oss_service.upload_from_url(...)];
      - [utcnow]: [datetime.now(timezone.utc)]; [db_now]: SQL [now()];
      - [local_now]: [datetime.now().strftime("%Y%m%d%H%M%S")]. *)
Record env := {
  is_decimal : N -> bool;
  decimal_value : N -> N;
  str_of_json : json -> str;
  image_api_key : option str;
  image_base_url : str;
  video_api_key : option str;
  video_base_url : str;
  volc_access_key_id : str;
  volc_secret_access_key : str;
  volc_base_url : str;
  http_post : list event -> str -> list (str * str) -> json -> result json;
  http_get : list event -> str -> result unit;
  oss_upload_from_url : list event -> str -> str -> str -> result upload_result;
  utcnow : list event -> timestamp;
  db_now : list event -> timestamp;
  local_now : list event -> str;
}.

(** A background unit handed to [asyncio.create_task]. *)
Inductive task :=
| TaskGenerateKeyframes (keyframe_ids : list Z)
    (segments : list ScriptParser.ScriptSegment)
    (model aspect_ratio : str) (quality : option str)
| TaskGenerateVideos (video_segment_ids : list Z).

Record world := {
  db : database;
  log : list event;
  tasks : list task;
}.

(** Computations that read and write the world and may raise. *)
Definition M (A : Type) : Type := world -> result A * world.

Definition ret {A} (a : A) : M A := fun w => (Ok a, w).

Definition raise {A} (e : exn) : M A := fun w => (Raise e, w).

Definition bind {A B} (m : M A) (k : A -> M B) : M B :=
  fun w =>
    match m w with
    | (Ok a, w') => k a w'
    | (Raise e, w') => (Raise e, w')
    end.

(** [try: m except Exception as e: h e] *)
Definition try_except {A} (m : M A) (h : exn -> M A) : M A :=
  fun w =>
    match m w with
    | (Ok a, w') => (Ok a, w')
    | (Raise e, w') => h e w'
    end.

Definition lift {A} (r : result A) : M A := fun w => (r, w).

Definition emit (e : event) : M unit :=
  fun w => (Ok tt, {| db := db w; log := log w ++ [e]; tasks := tasks w |}).

Definition get_db : M database := fun w => (Ok (db w), w).

Definition put_db (d : database) : M unit :=
  fun w => (Ok tt, {| db := d; log := log w; tasks := tasks w |}).

(** [asyncio.create_task] *)
Definition create_task (t : task) : M unit :=
  fun w => (Ok tt, {| db := db w; log := log w; tasks := tasks w ++ [t] |}).

Section Calls.

Variable E : env.

(** A call of the outside world is answered from the calls made before it
    and is then added to the log. *)
Definition post (url : str) (params : list (str * str)) (body : json) : M json :=
  fun w =>
    (http_post E (log w) url params body,
     {| db := db w; log := log w ++ [EvPost url params body]; tasks := tasks w |}).

Definition http_get_url (url : str) : M unit :=
  fun w =>
    (http_get E (log w) url,
     {| db := db w; log := log w ++ [EvGet url]; tasks := tasks w |}).

Definition upload_from_url (url filename category : str) : M upload_result :=
  fun w =>
    (oss_upload_from_url E (log w) url filename category,
     {| db := db w; log := log w ++ [EvUpload url filename category];
        tasks := tasks w |}).

(** [asyncio.sleep] *)
Definition sleep (seconds : N) : M unit := emit (EvSleep seconds).

Definition read_utcnow : M timestamp :=
  fun w =>
    (Ok (utcnow E (log w)),
     {| db := db w; log := log w ++ [EvUtcNow]; tasks := tasks w |}).

Definition read_db_now : M timestamp :=
  fun w =>
    (Ok (db_now E (log w)),
     {| db := db w; log := log w ++ [EvDbNow]; tasks := tasks w |}).

Definition read_local_now : M str :=
  fun w =>
    (Ok (local_now E (log w)),
     {| db := db w; log := log w ++ [EvLocalNow]; tasks := tasks w |}).

(** [f'{j}'] for a decoded JSON value: a string is printed as it is. *)
Definition format (j : json) : str :=
  match j with
  | JStr s => s
  | _ => str_of_json E j
  end.

End Calls.

End Runtime.

Notation "x <- m ;; k" := (Runtime.bind m (fun x => k))
  (at level 100, m at level 99, k at level 200, right associativity).
Notation "m ;; k" := (Runtime.bind m (fun _ => k))
  (at level 100, k at level 200, right associativity).

(** ** [src/services/volc_jimeng_service.py] and
       [src/services/image_generation_service.py] *)

Module ImageGeneration.
Import Runtime.

Section WithEnv.

Variable E : env.

(** *** [VolcJiMengService] *)

Definition API_VERSION : str := u "2022-08-31".

Definition jimeng_max_retries : nat := 30.

(** [json.dumps({"return_url": True})]; 34 is the double quote. *)
Definition return_url_json : str :=
  u "{" ++ [34] ++ u "return_url" ++ [34] ++ u ": true}".

(** The polling loop of [VolcJiMengService.generate_image]:
    [for i in range(max_retries)], with [n] iterations left. *)
Fixpoint jimeng_poll (url : str) (query_params : list (str * str))
    (query_body : json) (n : nat) : M json :=
  match n with
  | O =>
    raise (Exception (u "火山即梦任务超时，轮询" ++ Py.str_of_nat jimeng_max_retries
                      ++ u "次后任务仍未完成"))
  | S n' =>
    sleep 2 ;;
    query_result <- post E url query_params query_body ;;
    data <- lift (get query_result (u "data") (JObj [])) ;;
    status <- lift (get data (u "status") JNull) ;;
    if eq_str status (u "done") then
      code <- lift (get query_result (u "code") JNull) ;;
      if negb (eq_int code 10000) then
        error_msg <- lift (get query_result (u "message") (JStr (u "未知错误"))) ;;
        raise (Exception (u "火山即梦生成失败: " ++ format E error_msg))
      else
        data <- lift (get query_result (u "data") (JObj [])) ;;
        image_urls <- lift (get data (u "image_urls") (JList [])) ;;
        if negb (truth image_urls) then
          raise (Exception (u "火山即梦未返回图片"))
        else
          lift (getitem_0 image_urls)
    else if eq_str status (u "in_queue") || eq_str status (u "generating") then
      jimeng_poll url query_params query_body n'
    else if eq_str status (u "not_found") then
      raise (Exception (u "火山即梦任务未找到"))
    else if eq_str status (u "expired") then
      raise (Exception (u "火山即梦任务已过期"))
    else
      raise (Exception (u "火山即梦任务状态未知: " ++ format E status))
  end.

(** [VolcJiMengService.generate_image].  Its one caller passes the size as
    [f"{width}x{height}"], which the method splits back into the two
    integers; the embedding passes the pair. *)
Definition volc_generate_image (prompt : str) (size : N * N)
    (reference_image_urls : option (list str)) : M json :=
  if bool_decide (volc_access_key_id E = []) || bool_decide (volc_secret_access_key E = [])
  then raise (Exception (u "火山引擎API密钥未配置"))
  else
    let uri := u "/" in
    let query_params :=
      [(u "Action", u "CVSync2AsyncSubmitTask"); (u "Version", API_VERSION)] in
    let body_dict :=
      [(u "req_key", JStr (u "jimeng_t2i_v40"));
       (u "prompt", JStr prompt);
       (u "force_single", JBool true)]
      ++ match reference_image_urls with
         | Some (r :: rs) => [(u "image_urls", JList (JStr <$> take 6 (r :: rs)))]
         | _ => []
         end
      ++ [(u "width", JInt (Z.of_N (fst size)));
          (u "height", JInt (Z.of_N (snd size)))] in
    let url := volc_base_url E ++ uri in
    result <- post E url query_params (JObj body_dict) ;;
    code <- lift (get result (u "code") JNull) ;;
    if negb (eq_int code 10000) then
      error_msg <- lift (get result (u "message") (JStr (u "未知错误"))) ;;
      raise (Exception (u "火山即梦提交任务失败: " ++ format E error_msg))
    else
      data <- lift (get result (u "data") (JObj [])) ;;
      task_id <- lift (get data (u "task_id") JNull) ;;
      if negb (truth task_id) then
        raise (Exception (u "火山即梦未返回task_id"))
      else
        let query_params :=
          [(u "Action", u "CVSync2AsyncGetResult"); (u "Version", API_VERSION)] in
        let query_body_dict :=
          [(u "req_key", JStr (u "jimeng_t2i_v40"));
           (u "task_id", task_id);
           (u "req_json", JStr return_url_json)] in
        jimeng_poll url query_params (JObj query_body_dict) jimeng_max_retries.

(** *** [ImageGenerationService] *)

Definition max_polls : nat := 60.
Definition poll_interval : N := 2.

(** The handlers that close [generate_image_nano_banana] and
    [generate_image_sora]. *)
Definition http_handlers {A} (e : exn) : M A :=
  match e with
  | HTTPStatusError status_code _ =>
    raise (Exception (u "HTTP错误: " ++ Py.str_of_N status_code))
  | RequestError msg => raise (Exception (u "请求错误: " ++ msg))
  | e => raise e
  end.

(** [f"生成失败: {failure_reason}" if failure_reason else f"生成失败: {error}"] *)
Definition failure_message (data : json) : M str :=
  failure_reason <- lift (get data (u "failure_reason") (JStr [])) ;;
  error <- lift (get data (u "error") (JStr [])) ;;
  ret (if truth failure_reason
       then u "生成失败: " ++ format E failure_reason
       else u "生成失败: " ++ format E error).

(** [results and len(results) > 0] *)
Definition has_results (results : json) : M bool :=
  if truth results then
    n <- lift (len results) ;;
    ret (0 <? n)%nat
  else ret false.

Definition succeeded (image_url task_id : json) : json :=
  JObj [(u "url", image_url); (u "task_id", task_id);
        (u "status", JStr (u "succeeded"))].

(** The polling loop of [generate_image_nano_banana]:
    [for i in range(max_polls)], with [n] iterations left. *)
Fixpoint nano_banana_poll (result_url : str) (task_id : json) (n : nat) : M json :=
  match n with
  | O => raise (Exception (u "图片生成超时"))
  | S n' =>
    sleep poll_interval ;;
    poll_result <- post E result_url [] (JObj [(u "id", task_id)]) ;;
    code <- lift (get poll_result (u "code") JNull) ;;
    if negb (eq_int code 0) then
      msg <- lift (get poll_result (u "msg") (JStr (u "未知错误"))) ;;
      raise (Exception (u "轮询错误: " ++ format E msg))
    else
      data <- lift (get poll_result (u "data") (JObj [])) ;;
      status <- lift (get data (u "status") JNull) ;;
      if eq_str status (u "succeeded") then
        results <- lift (get data (u "results") (JList [])) ;;
        ok <- has_results results ;;
        if ok then
          first <- lift (getitem_0 results) ;;
          image_url <- lift (get first (u "url") JNull) ;;
          ret (succeeded image_url task_id)
        else raise (Exception (u "生成成功但未返回图片URL"))
      else if eq_str status (u "failed") then
        error_msg <- failure_message data ;;
        raise (Exception error_msg)
      else nano_banana_poll result_url task_id n'
  end.

Definition generate_image_nano_banana (prompt model aspect_ratio : str)
    (quality : option str) (reference_image_url : option str) : M json :=
  if negb (Py.truthy (image_api_key E)) then
    raise (Exception (u "图片生成API密钥未配置"))
  else
    let url := image_base_url E ++ u "/v1/draw/nano-banana" in
    let payload :=
      [(u "model", JStr model);
       (u "prompt", JStr prompt);
       (u "aspectRatio", JStr aspect_ratio);
       (u "webHook", JStr (u "-1"));
       (u "shutProgress", JBool false)]
      ++ (if Py.truthy reference_image_url
          then [(u "urls", JList [JStr (Py.or_empty reference_image_url)])]
          else []) in
    try_except
      (result <- post E url [] (JObj payload) ;;
       code <- lift (get result (u "code") JNull) ;;
       if negb (eq_int code 0) then
         msg <- lift (get result (u "msg") (JStr (u "未知错误"))) ;;
         raise (Exception (u "API错误: " ++ format E msg))
       else
         data <- lift (getitem result (u "data")) ;;
         task_id <- lift (getitem data (u "id")) ;;
         let result_url := image_base_url E ++ u "/v1/draw/result" in
         nano_banana_poll result_url task_id max_polls)
      http_handlers.

(** [size_map.get(aspect_ratio, 'auto')] of [generate_image_sora] *)
Definition sora_size (aspect_ratio : str) : str :=
  if Py.eqb aspect_ratio (u "auto") then u "auto"
  else if Py.eqb aspect_ratio (u "1:1") then u "1:1"
  else if Py.eqb aspect_ratio (u "3:2") then u "3:2"
  else if Py.eqb aspect_ratio (u "2:3") then u "2:3"
  else if Py.eqb aspect_ratio (u "16:9") then u "3:2"
  else if Py.eqb aspect_ratio (u "9:16") then u "2:3"
  else u "auto".

(** The polling loop of [generate_image_sora]. *)
Fixpoint sora_image_poll (result_url : str) (task_id : json) (n : nat) : M json :=
  match n with
  | O => raise (Exception (u "图片生成超时"))
  | S n' =>
    sleep poll_interval ;;
    poll_result <- post E result_url [] (JObj [(u "id", task_id)]) ;;
    code <- lift (get poll_result (u "code") JNull) ;;
    if negb (eq_int code 0) then
      msg <- lift (get poll_result (u "msg") (JStr (u "未知错误"))) ;;
      raise (Exception (u "轮询错误: " ++ format E msg))
    else
      data <- lift (get poll_result (u "data") (JObj [])) ;;
      status <- lift (get data (u "status") JNull) ;;
      if eq_str status (u "succeeded") then
        results <- lift (get data (u "results") (JList [])) ;;
        ok <- has_results results ;;
        if ok then
          first <- lift (getitem_0 results) ;;
          image_url <- lift (get first (u "url") JNull) ;;
          ret (succeeded image_url task_id)
        else
          image_url <- lift (get data (u "url") JNull) ;;
          if truth image_url then ret (succeeded image_url task_id)
          else raise (Exception (u "生成成功但未返回图片URL"))
      else if eq_str status (u "failed") then
        error_msg <- failure_message data ;;
        raise (Exception error_msg)
      else sora_image_poll result_url task_id n'
  end.

Definition generate_image_sora (prompt aspect_ratio : str) (quality : option str)
  : M json :=
  if negb (Py.truthy (image_api_key E)) then
    raise (Exception (u "图片生成API密钥未配置"))
  else
    let url := image_base_url E ++ u "/v1/draw/completions" in
    let size := sora_size aspect_ratio in
    let payload :=
      [(u "model", JStr (u "sora-image"));
       (u "prompt", JStr prompt);
       (u "size", JStr size);
       (u "variants", JInt 1);
       (u "webHook", JStr (u "-1"));
       (u "shutProgress", JBool false)] in
    try_except
      (result <- post E url [] (JObj payload) ;;
       code <- lift (get result (u "code") JNull) ;;
       if negb (eq_int code 0) then
         msg <- lift (get result (u "msg") (JStr (u "未知错误"))) ;;
         raise (Exception (u "API错误: " ++ format E msg))
       else
         data <- lift (getitem result (u "data")) ;;
         task_id <- lift (getitem data (u "id")) ;;
         let result_url := image_base_url E ++ u "/v1/draw/result" in
         sora_image_poll result_url task_id max_polls)
      http_handlers.

(** [quality_multipliers.get(quality, 1.0) if quality else 1.0], as the
    fraction it is. *)
Definition quality_multiplier (quality : option str) : N * N :=
  match quality with
  | Some q =>
    if Py.eqb q (u "1K") then (1, 1)
    else if Py.eqb q (u "2K") then (3, 2)
    else if Py.eqb q (u "4K") then (2, 1)
    else (1, 1)
  | None => (1, 1)
  end.

(** [base_size_map.get(aspect_ratio, (1024, 1024))] *)
Definition base_size (aspect_ratio : str) : N * N :=
  if Py.eqb aspect_ratio (u "1:1") then (1024, 1024)
  else if Py.eqb aspect_ratio (u "16:9") then (1920, 1080)
  else if Py.eqb aspect_ratio (u "9:16") then (1080, 1920)
  else if Py.eqb aspect_ratio (u "4:3") then (1024, 768)
  else if Py.eqb aspect_ratio (u "3:4") then (768, 1024)
  else if Py.eqb aspect_ratio (u "3:2") then (1536, 1024)
  else if Py.eqb aspect_ratio (u "2:3") then (1024, 1536)
  else if Py.eqb aspect_ratio (u "5:4") then (1280, 1024)
  else if Py.eqb aspect_ratio (u "4:5") then (1024, 1280)
  else if Py.eqb aspect_ratio (u "21:9") then (2560, 1080)
  else (1024, 1024).

Definition generate_image_jimeng (prompt aspect_ratio : str) (quality : option str)
    (reference_image_url : option str) : M json :=
  let '(num, den) := quality_multiplier quality in
  let '(base_width, base_height) := base_size aspect_ratio in
  let width := base_width * num / den in
  let height := base_height * num / den in
  let reference_images :=
    if Py.truthy reference_image_url
    then Some [Py.or_empty reference_image_url]
    else None in
  image_url <- volc_generate_image prompt (width, height) reference_images ;;
  ret (JObj [(u "url", image_url); (u "status", JStr (u "succeeded"))]).

(** [ImageGenerationService.generate_image] *)
Definition generate_image (prompt model aspect_ratio : str) (quality : option str)
    (reference_image_url : option str) : M json :=
  emit (EvGenerateImage prompt model aspect_ratio quality reference_image_url) ;;
  if Py.eqb model (u "jimeng_t2i_v40") then
    generate_image_jimeng prompt aspect_ratio quality reference_image_url
  else if Py.eqb model (u "nano-banana-fast") || Py.eqb model (u "nano-banana") then
    generate_image_nano_banana prompt model aspect_ratio quality reference_image_url
  else if Py.eqb model (u "sora-image") then
    generate_image_sora prompt aspect_ratio quality
  else
    raise (Exception (u "不支持的模型: " ++ model)).

End WithEnv.

End ImageGeneration.

(** ** [src/services/image_model_service.py] *)

Module ImageModelService.
Import Runtime.

(** An entry of [MODEL_CONFIGS]. *)
Record model_config := {
  name : str;
  description : str;
  aspect_ratios : list str;
  qualities : list str;
  has_quality_selector : bool;
  supports_reference : bool;
}.

(** [MODEL_CONFIGS], a dictionary written with distinct keys, in the order
    of the source. *)
Definition MODEL_CONFIGS : list (str * model_config) :=
  [(u "jimeng_t2i_v40",
    {| name := u "即梦 4.0";
       description := u "火山引擎即梦4.0，支持图生图，高质量图片生成";
       aspect_ratios :=
         [u "1:1"; u "16:9"; u "9:16"; u "4:3"; u "3:4"; u "3:2"; u "2:3";
          u "5:4"; u "4:5"; u "21:9"];
       qualities := [u "1K"; u "2K"; u "4K"];
       has_quality_selector := true;
       supports_reference := true |});
   (u "nano-banana-fast",
    {| name := u "Nano Banana Fast";
       description := u "快速版本";
       aspect_ratios :=
         [u "auto"; u "1:1"; u "16:9"; u "9:16"; u "4:3"; u "3:4";
          u "3:2"; u "2:3"; u "5:4"; u "4:5"; u "21:9"];
       qualities := [];
       has_quality_selector := false;
       supports_reference := true |});
   (u "nano-banana",
    {| name := u "Nano Banana";
       description := u "标准版本";
       aspect_ratios :=
         [u "auto"; u "1:1"; u "16:9"; u "9:16"; u "4:3"; u "3:4";
          u "3:2"; u "2:3"; u "5:4"; u "4:5"; u "21:9"];
       qualities := [];
       has_quality_selector := false;
       supports_reference := true |});
   (u "sora-image",
    {| name := u "Sora Image";
       description := u "图片生成模型";
       aspect_ratios := [u "auto"; u "1:1"; u "3:2"; u "2:3"];
       qualities := [];
       has_quality_selector := false;
       supports_reference := false |})].

(** [MODEL_CONFIGS[model_id]] and [model_id in MODEL_CONFIGS] *)
Definition lookup (model_id : str) : option model_config :=
  snd <$> List.find (fun entry => Py.eqb (fst entry) model_id) MODEL_CONFIGS.

(** [get_available_models]: each configuration with its id. *)
Definition get_available_models : list (str * model_config) := MODEL_CONFIGS.

(** [raise ValueError(f"不支持的模型: {model_id}")] *)
Definition unknown_model {A} (model_id : str) : result A :=
  Raise (OtherError (u "不支持的模型: " ++ model_id)).

(** [get_aspect_ratios] *)
Definition get_aspect_ratios (model_id : str) : result (list str) :=
  match lookup model_id with
  | Some config => Ok (aspect_ratios config)
  | None => unknown_model model_id
  end.

(** [get_qualities] *)
Definition get_qualities (model_id : str) : result (list str) :=
  match lookup model_id with
  | Some config => Ok (qualities config)
  | None => unknown_model model_id
  end.

(** [get_model_config]: the configuration and its id. *)
Definition get_model_config (model_id : str) : result (str * model_config) :=
  match lookup model_id with
  | Some config => Ok (model_id, config)
  | None => unknown_model model_id
  end.

End ImageModelService.

(** ** [src/services/keyframe_service.py] *)

Module KeyframeService.
Import Runtime.

(** [STALE_KEYFRAME_TIMEOUT = timedelta(minutes=5)], in microseconds. *)
Definition STALE_KEYFRAME_TIMEOUT : Z := 5 * 60 * 1000000.

(** The message the reaper stores. *)
Definition stale_message : str := u "生成超时，请重新生成关键帧".

Definition set_status (k : Keyframe.t) (st : KeyframeStatus.t)
    (err : option str) : Keyframe.t :=
  {| Keyframe.id := Keyframe.id k;
     Keyframe.script_id := Keyframe.script_id k;
     Keyframe.segment_id := Keyframe.segment_id k;
     Keyframe.image_url := Keyframe.image_url k;
     Keyframe.prompt := Keyframe.prompt k;
     Keyframe.status := st;
     Keyframe.error_message := err;
     Keyframe.created_at := Keyframe.created_at k;
     Keyframe.updated_at := Keyframe.updated_at k |}.

Definition set_completed (k : Keyframe.t) (url prompt : str) : Keyframe.t :=
  {| Keyframe.id := Keyframe.id k;
     Keyframe.script_id := Keyframe.script_id k;
     Keyframe.segment_id := Keyframe.segment_id k;
     Keyframe.image_url := Some url;
     Keyframe.prompt := Some prompt;
     Keyframe.status := KeyframeStatus.COMPLETED;
     Keyframe.error_message := None;
     Keyframe.created_at := Keyframe.created_at k;
     Keyframe.updated_at := Keyframe.updated_at k |}.

Definition set_updated_at (k : Keyframe.t) (t : timestamp) : Keyframe.t :=
  {| Keyframe.id := Keyframe.id k;
     Keyframe.script_id := Keyframe.script_id k;
     Keyframe.segment_id := Keyframe.segment_id k;
     Keyframe.image_url := Keyframe.image_url k;
     Keyframe.prompt := Keyframe.prompt k;
     Keyframe.status := Keyframe.status k;
     Keyframe.error_message := Keyframe.error_message k;
     Keyframe.created_at := Keyframe.created_at k;
     Keyframe.updated_at := Some t |}.

Definition with_keyframes (d : database) (ks : list Keyframe.t) (next : Z)
  : database :=
  {| scripts := scripts d;
     keyframes := ks;
     video_segments := video_segments d;
     next_keyframe_id := next;
     next_video_segment_id := next_video_segment_id d |}.

(** [select(Script).where(Script.id == script_id)], [scalar_one_or_none()] *)
Definition select_script (script_id : Z) : M (option Script.t) :=
  d <- get_db ;;
  ret (List.find (fun s => (Script.id s =? script_id)%Z) (scripts d)).

(** [select(Keyframe).where(Keyframe.id == keyframe_id)] *)
Definition select_keyframe (keyframe_id : Z) : M (option Keyframe.t) :=
  d <- get_db ;;
  ret (List.find (fun k => (Keyframe.id k =? keyframe_id)%Z) (keyframes d)).

(** The UPDATE a commit issues for the changed objects [objs]: a row whose
    object differs from it takes the object's columns, and [updated_at]
    takes the database's [now()] ([onupdate]). *)
Definition flush_row (objs : list Keyframe.t) (t : timestamp) (row : Keyframe.t)
  : Keyframe.t :=
  match List.find (fun o => (Keyframe.id o =? Keyframe.id row)%Z) objs with
  | Some o => if bool_decide (o = row) then row else set_updated_at o t
  | None => row
  end.

Section WithEnv.

Variable E : env.

Definition commit_keyframes (objs : list Keyframe.t) : M unit :=
  t <- read_db_now E ;;
  d <- get_db ;;
  put_db (with_keyframes d (flush_row objs t <$> keyframes d) (next_keyframe_id d)).

(** [delete(Keyframe).where(Keyframe.script_id == script_id)] and commit *)
Definition delete_keyframes (script_id : Z) : M unit :=
  d <- get_db ;;
  put_db (with_keyframes d
            (List.filter (fun k => negb (Keyframe.script_id k =? script_id)%Z)
                         (keyframes d))
            (next_keyframe_id d)).

(** A new [Keyframe(script_id, segment_id, prompt, status=GENERATING)] as
    the INSERT stores it. *)
Definition new_keyframe (id script_id : Z) (segment_id prompt : str) (t : timestamp)
  : Keyframe.t :=
  {| Keyframe.id := id;
     Keyframe.script_id := script_id;
     Keyframe.segment_id := segment_id;
     Keyframe.image_url := None;
     Keyframe.prompt := Some prompt;
     Keyframe.status := KeyframeStatus.GENERATING;
     Keyframe.error_message := None;
     Keyframe.created_at := t;
     Keyframe.updated_at := Some t |}.

(** [db.add] of each pending (segment_id, prompt) and commit: the rows take
    consecutive primary keys in the order added. *)
Definition insert_keyframes (script_id : Z) (pending : list (str * str))
  : M (list Keyframe.t) :=
  t <- read_db_now E ;;
  d <- get_db ;;
  let rows :=
    imap (fun i p => new_keyframe (next_keyframe_id d + Z.of_nat i) script_id
                                  (fst p) (snd p) t) pending in
  put_db (with_keyframes d (keyframes d ++ rows)
            (next_keyframe_id d + Z.of_nat (length pending))) ;;
  ret rows.

(** [generate_keyframes] *)
Definition generate_keyframes (script_id : Z) (model aspect_ratio : str)
    (quality : option str) : M (list Keyframe.t) :=
  script <- select_script script_id ;;
  match script with
  | None => raise (NotFoundError (u "脚本不存在: " ++ Py.str_of_Z script_id))
  | Some script =>
    if negb (Py.truthy (Script.content script)) then
      raise (ValidationError (u "脚本内容为空"))
    else
      let segments :=
        ScriptParser.parse_script (is_decimal E) (decimal_value E)
          (Py.or_empty (Script.content script)) in
      if bool_decide (segments = []) then
        raise (ValidationError (u "脚本中没有找到有效段落"))
      else
        delete_keyframes script_id ;;
        let normal_segments :=
          List.filter (fun s => negb (ScriptParser.is_frame_0 s)) segments in
        match normal_segments with
        | [] => raise (ValidationError (u "脚本中没有有效的段落"))
        | first_normal :: _ =>
          let frame_0_segment := List.find ScriptParser.is_frame_0 segments in
          let frame_0_keyframe :=
            match frame_0_segment with
            | Some frame_0 =>
              [(ScriptParser.segment_id first_normal ++ u "_first_frame",
                ScriptParser.content frame_0)]
            | None => []
            end in
          let body_keyframes :=
            (fun s => (ScriptParser.segment_id s, ScriptParser.content s))
              <$> normal_segments in
          keyframes <- insert_keyframes script_id (frame_0_keyframe ++ body_keyframes) ;;
          let keyframe_ids := Keyframe.id <$> keyframes in
          create_task
            (TaskGenerateKeyframes keyframe_ids segments model aspect_ratio quality) ;;
          ret keyframes
        end
  end.

(** [{seg.segment_id: seg for seg in segments}]: a later segment of the
    same id replaces an earlier one. *)
Definition segment_map_of (segments : list ScriptParser.ScriptSegment)
  : gmap str ScriptParser.ScriptSegment :=
  foldl (fun m seg => <[ScriptParser.segment_id seg := seg]> m) ∅ segments.

(** The prompt [_generate_single_keyframe_image_with_session] settles on. *)
Definition prompt_of (keyframe : Keyframe.t)
    (segment_map : gmap str ScriptParser.ScriptSegment) : str :=
  let is_old_first_frame := Py.endswith (Keyframe.segment_id keyframe) (u "_first_frame") in
  if Py.truthy (Keyframe.prompt keyframe) then Py.or_empty (Keyframe.prompt keyframe)
  else if is_old_first_frame then
    let base_segment_id := Py.remove (Keyframe.segment_id keyframe) (u "_first_frame") in
    match segment_map !! base_segment_id with
    | Some segment => ScriptParser.extract_prompt_for_segment segment is_old_first_frame
    | None => []
    end
  else [].

(** A URL handed to httpx must be a string. *)
Definition as_url (j : json) : M str :=
  match j with
  | JStr s => ret s
  | _ => raise (OtherError (u "TypeError: invalid type for url"))
  end.

(** The [try] block of [_generate_single_keyframe_image_with_session]. *)
Definition generate_single_keyframe_try (keyframe_id : Z)
    (segment_map : gmap str ScriptParser.ScriptSegment)
    (model aspect_ratio : str) (quality : option str)
    (reference_image_url : option str) : M (option str) :=
  keyframe <- select_keyframe keyframe_id ;;
  match keyframe with
  | None => ret None
  | Some keyframe =>
    let prompt := prompt_of keyframe segment_map in
    result <- ImageGeneration.generate_image E prompt model aspect_ratio quality
                reference_image_url ;;
    image_url <- lift (get result (u "url") JNull) ;;
    if negb (truth image_url) then
      raise (Exception (u "图片生成成功但未返回URL"))
    else
      image_url <- as_url image_url ;;
      http_get_url E image_url ;;
      let filename := u "keyframe_" ++ Py.str_of_Z (Keyframe.id keyframe) ++ u ".jpg" in
      upload_result <- upload_from_url E image_url filename (u "keyframes") ;;
      keyframe_to_update <- select_keyframe keyframe_id ;;
      match keyframe_to_update with
      | Some keyframe_to_update =>
        commit_keyframes
          [set_completed keyframe_to_update (upload_url upload_result) prompt] ;;
        ret (Some (upload_url upload_result))
      | None => ret None
      end
  end.

(** Its [except Exception as e] block. *)
Definition generate_single_keyframe_except (keyframe_id : Z) (e : exn)
  : M (option str) :=
  try_except
    (keyframe_to_update <- select_keyframe keyframe_id ;;
     match keyframe_to_update with
     | Some keyframe_to_update =>
       commit_keyframes
         [set_status keyframe_to_update KeyframeStatus.FAILED (Some (str_of_exn e))]
     | None => ret tt
     end)
    (fun _ => ret tt) ;;
  ret None.

(** [_generate_single_keyframe_image_with_session]: the URL of the stored
    image, [None] on failure. *)
Definition _generate_single_keyframe_image_with_session (keyframe_id : Z)
    (segment_map : gmap str ScriptParser.ScriptSegment)
    (model aspect_ratio : str) (quality : option str)
    (reference_image_url : option str) : M (option str) :=
  try_except
    (generate_single_keyframe_try keyframe_id segment_map model aspect_ratio quality
       reference_image_url)
    (generate_single_keyframe_except keyframe_id).

(** The loop of [_generate_keyframes_background]:
    [for i, keyframe_id in enumerate(keyframe_ids)]. *)
Fixpoint generate_keyframes_loop (keyframe_ids : list Z)
    (segment_map : gmap str ScriptParser.ScriptSegment)
    (model aspect_ratio : str) (quality : option str)
    (previous_image_url : option str) : M unit :=
  match keyframe_ids with
  | [] => ret tt
  | keyframe_id :: keyframe_ids' =>
    result_url <- _generate_single_keyframe_image_with_session keyframe_id
                    segment_map model aspect_ratio quality previous_image_url ;;
    let previous_image_url :=
      if Py.truthy result_url then result_url else previous_image_url in
    generate_keyframes_loop keyframe_ids' segment_map model aspect_ratio quality
      previous_image_url
  end.

(** [_generate_keyframes_background] *)
Definition _generate_keyframes_background (keyframe_ids : list Z)
    (segments : list ScriptParser.ScriptSegment)
    (model aspect_ratio : str) (quality : option str) : M unit :=
  try_except
    (let segment_map := segment_map_of segments in
     generate_keyframes_loop keyframe_ids segment_map model aspect_ratio quality None)
    (fun _ => ret tt).

(** The test of [_refresh_stale_keyframes] on one keyframe: it is still
    [GENERATING], has an [updated_at], and that is more than the timeout
    before [now]. *)
Definition is_stale (now : timestamp) (keyframe : Keyframe.t) : bool :=
  match Keyframe.updated_at keyframe with
  | Some updated_at =>
    bool_decide (Keyframe.status keyframe = KeyframeStatus.GENERATING)
    && bool_decide (now - updated_at > STALE_KEYFRAME_TIMEOUT)%Z
  | None => false
  end.

Definition refresh_stale (now : timestamp) (keyframe : Keyframe.t) : Keyframe.t :=
  if is_stale now keyframe
  then set_status keyframe KeyframeStatus.FAILED (Some stale_message)
  else keyframe.

(** [_refresh_stale_keyframes]: the list holds the objects, which the loop
    changes in place; the result is the list after the loop. *)
Definition _refresh_stale_keyframes (keyframes : list Keyframe.t)
  : M (list Keyframe.t) :=
  match keyframes with
  | [] => ret []
  | _ =>
    now <- read_utcnow E ;;
    let refreshed := refresh_stale now <$> keyframes in
    let has_updates := existsb (is_stale now) keyframes in
    (if has_updates then commit_keyframes refreshed else ret tt) ;;
    ret refreshed
  end.

(** [order_by(Keyframe.created_at)] *)
Definition by_created_at (a b : Keyframe.t) : Prop :=
  (Keyframe.created_at a <= Keyframe.created_at b)%Z.

#[global] Instance by_created_at_dec a b : Decision (by_created_at a b).
Proof. unfold by_created_at. apply _. Defined.

(** [get_keyframes_by_script_id] *)
Definition get_keyframes_by_script_id (script_id : Z) : M (list Keyframe.t) :=
  d <- get_db ;;
  let keyframes :=
    merge_sort by_created_at
      (List.filter (fun k => (Keyframe.script_id k =? script_id)%Z) (keyframes d)) in
  keyframes <- _refresh_stale_keyframes keyframes ;;
  ret keyframes.

End WithEnv.

(** *** Single keyframes *)

(** [keyframe.prompt = prompt] *)
Definition set_prompt (k : Keyframe.t) (prompt : str) : Keyframe.t :=
  {| Keyframe.id := Keyframe.id k;
     Keyframe.script_id := Keyframe.script_id k;
     Keyframe.segment_id := Keyframe.segment_id k;
     Keyframe.image_url := Keyframe.image_url k;
     Keyframe.prompt := Some prompt;
     Keyframe.status := Keyframe.status k;
     Keyframe.error_message := Keyframe.error_message k;
     Keyframe.created_at := Keyframe.created_at k;
     Keyframe.updated_at := Keyframe.updated_at k |}.

(** [keyframe.image_url = url], [status = COMPLETED], [error_message = None] *)
Definition set_image (k : Keyframe.t) (url : str) : Keyframe.t :=
  {| Keyframe.id := Keyframe.id k;
     Keyframe.script_id := Keyframe.script_id k;
     Keyframe.segment_id := Keyframe.segment_id k;
     Keyframe.image_url := Some url;
     Keyframe.prompt := Keyframe.prompt k;
     Keyframe.status := KeyframeStatus.COMPLETED;
     Keyframe.error_message := None;
     Keyframe.created_at := Keyframe.created_at k;
     Keyframe.updated_at := Keyframe.updated_at k |}.

(** The arguments of the background unit [_regenerate_keyframe_background]
    that [regenerate_keyframe] starts.  The units of the two batch requests
    are the [task]s of the world; the unit of a single regeneration is
    returned beside the row. *)
Record regenerate_unit := {
  saved_keyframe_id : Z;
  saved_model : option str;
  saved_aspect_ratio : str;
  saved_quality : str;
}.

Section Single.

Variable E : env.

(** [get_keyframe_by_id] *)
Definition get_keyframe_by_id (keyframe_id : Z) : M (option Keyframe.t) :=
  select_keyframe keyframe_id.

(** [update_keyframe_prompt] *)
Definition update_keyframe_prompt (keyframe_id : Z) (prompt : str) : M Keyframe.t :=
  keyframe <- select_keyframe keyframe_id ;;
  match keyframe with
  | None => raise (NotFoundError (u "关键帧不存在: " ++ Py.str_of_Z keyframe_id))
  | Some keyframe =>
    let keyframe := set_prompt keyframe prompt in
    commit_keyframes E [keyframe] ;;
    ret keyframe
  end.

(** [regenerate_keyframe]; starting the background unit is taken to
    succeed, as [create_task] is. *)
Definition regenerate_keyframe (keyframe_id : Z) (model aspect_ratio quality : option str)
  : M (Keyframe.t * regenerate_unit) :=
  keyframe <- select_keyframe keyframe_id ;;
  match keyframe with
  | None => raise (NotFoundError (u "关键帧不存在: " ++ Py.str_of_Z keyframe_id))
  | Some keyframe =>
    script <- select_script (Keyframe.script_id keyframe) ;;
    let model :=
      if negb (Py.truthy model) && bool_decide (is_Some script)
      then Some (u "jimeng_t2i_v40") else model in
    let aspect_ratio :=
      if negb (Py.truthy aspect_ratio) then u "auto" else Py.or_empty aspect_ratio in
    let quality :=
      if negb (Py.truthy quality) then u "720p" else Py.or_empty quality in
    let keyframe := set_status keyframe KeyframeStatus.GENERATING None in
    commit_keyframes E [keyframe] ;;
    ret (keyframe,
         {| saved_keyframe_id := Keyframe.id keyframe;
            saved_model := model;
            saved_aspect_ratio := aspect_ratio;
            saved_quality := quality |})
  end.

(** The [try] block of [_regenerate_keyframe_background].  A model that is
    [None] meets no branch of [generate_image] but the last, which raises
    with the text of [f'{None}']. *)
Definition regenerate_keyframe_try (keyframe_id : Z) (model : option str)
    (aspect_ratio quality : str) : M unit :=
  keyframe <- select_keyframe keyframe_id ;;
  match keyframe with
  | None => ret tt
  | Some keyframe =>
    let prompt := Py.or_empty (Keyframe.prompt keyframe) in
    result <-
      match model with
      | Some model =>
        ImageGeneration.generate_image E prompt model aspect_ratio (Some quality) None
      | None => raise (Exception (u "不支持的模型: None"))
      end ;;
    image_url <- lift (get result (u "url") JNull) ;;
    if negb (truth image_url) then
      raise (Exception (u "图片生成成功但未返回URL"))
    else
      image_url <- as_url image_url ;;
      let filename := u "keyframe_" ++ Py.str_of_Z (Keyframe.id keyframe) ++ u ".jpg" in
      upload_result <- upload_from_url E image_url filename (u "keyframes") ;;
      commit_keyframes E [set_image keyframe (upload_url upload_result)]
  end.

(** [_regenerate_keyframe_background]; its [except] block is that of
    [_generate_single_keyframe_image_with_session]. *)
Definition _regenerate_keyframe_background (keyframe_id : Z) (model : option str)
    (aspect_ratio quality : str) : M unit :=
  try_except
    (regenerate_keyframe_try keyframe_id model aspect_ratio quality)
    (fun e => generate_single_keyframe_except E keyframe_id e ;; ret tt).

End Single.

End KeyframeService.

(** ** [src/services/video_service.py] *)

Module VideoService.
Import Runtime.

(** [order_by(Keyframe.segment_id)], in the order of the code points. *)
Definition by_segment_id (a b : Keyframe.t) : Prop :=
  Py.leb (Keyframe.segment_id a) (Keyframe.segment_id b) = true.

#[global] Instance by_segment_id_dec a b : Decision (by_segment_id a b).
Proof. unfold by_segment_id. apply _. Defined.

(** [order_by(VideoSegment.segment_index)] *)
Definition by_segment_index (a b : VideoSegment.t) : Prop :=
  (VideoSegment.segment_index a <= VideoSegment.segment_index b)%Z.

#[global] Instance by_segment_index_dec a b : Decision (by_segment_index a b).
Proof. unfold by_segment_index. apply _. Defined.

(** An entry of [video_configs]. *)
Record video_config := {
  cfg_segment_index : Z;
  cfg_first_frame_url : option str;
  cfg_last_frame_url : option str;
  cfg_prompt : str;
}.

Definition with_video_segments (d : database) (vs : list VideoSegment.t) (next : Z)
  : database :=
  {| scripts := scripts d;
     keyframes := keyframes d;
     video_segments := vs;
     next_keyframe_id := next_keyframe_id d;
     next_video_segment_id := next |}.

(** [{kf.segment_id: kf for kf in keyframes}] *)
Definition keyframe_map_of (keyframes : list Keyframe.t) : gmap str Keyframe.t :=
  foldl (fun m kf => <[Keyframe.segment_id kf := kf]> m) ∅ keyframes.

(** The keyframes that are neither a first nor a last frame. *)
Definition is_normal (kf : Keyframe.t) : bool :=
  negb (Py.endswith (Keyframe.segment_id kf) (u "_first_frame"))
  && negb (Py.endswith (Keyframe.segment_id kf) (u "_last_frame")).

(** The loop [for i in range(len(normal_segments) - 1)] that appends the
    configuration of the video from [normal_segments[i]] to
    [normal_segments[i + 1]]; [segment_index] is the running counter. *)
Fixpoint following_configs (segment_index : Z) (normal_segments : list Keyframe.t)
  : list video_config :=
  match normal_segments with
  | current_segment :: (next_segment :: _) as rest =>
    {| cfg_segment_index := segment_index;
       cfg_first_frame_url := Keyframe.image_url current_segment;
       cfg_last_frame_url := Keyframe.image_url next_segment;
       cfg_prompt := Py.or_empty (Keyframe.prompt next_segment) |}
      :: following_configs (segment_index + 1) rest
  | _ => []
  end.

Definition set_status (v : VideoSegment.t) (st : VideoStatus.t)
    (url err : option str) : VideoSegment.t :=
  {| VideoSegment.id := VideoSegment.id v;
     VideoSegment.script_id := VideoSegment.script_id v;
     VideoSegment.segment_index := VideoSegment.segment_index v;
     VideoSegment.first_frame_url := VideoSegment.first_frame_url v;
     VideoSegment.last_frame_url := VideoSegment.last_frame_url v;
     VideoSegment.prompt := VideoSegment.prompt v;
     VideoSegment.video_url := url;
     VideoSegment.model := VideoSegment.model v;
     VideoSegment.aspect_ratio := VideoSegment.aspect_ratio v;
     VideoSegment.status := st;
     VideoSegment.duration := VideoSegment.duration v;
     VideoSegment.task_id := VideoSegment.task_id v;
     VideoSegment.error_message := err;
     VideoSegment.created_at := VideoSegment.created_at v;
     VideoSegment.updated_at := VideoSegment.updated_at v |}.

Definition set_updated_at (v : VideoSegment.t) (t : timestamp) : VideoSegment.t :=
  {| VideoSegment.id := VideoSegment.id v;
     VideoSegment.script_id := VideoSegment.script_id v;
     VideoSegment.segment_index := VideoSegment.segment_index v;
     VideoSegment.first_frame_url := VideoSegment.first_frame_url v;
     VideoSegment.last_frame_url := VideoSegment.last_frame_url v;
     VideoSegment.prompt := VideoSegment.prompt v;
     VideoSegment.video_url := VideoSegment.video_url v;
     VideoSegment.model := VideoSegment.model v;
     VideoSegment.aspect_ratio := VideoSegment.aspect_ratio v;
     VideoSegment.status := VideoSegment.status v;
     VideoSegment.duration := VideoSegment.duration v;
     VideoSegment.task_id := VideoSegment.task_id v;
     VideoSegment.error_message := VideoSegment.error_message v;
     VideoSegment.created_at := VideoSegment.created_at v;
     VideoSegment.updated_at := Some t |}.

Definition flush_row (objs : list VideoSegment.t) (t : timestamp)
    (row : VideoSegment.t) : VideoSegment.t :=
  match List.find (fun o => (VideoSegment.id o =? VideoSegment.id row)%Z) objs with
  | Some o => if bool_decide (o = row) then row else set_updated_at o t
  | None => row
  end.

(** [int(duration)]: truncation toward zero. *)
Definition int_of_float (q : Q) : Z := Z.quot (Qnum q) (Zpos (Qden q)).

Definition json_of_option (o : option str) : json :=
  match o with
  | Some s => JStr s
  | None => JNull
  end.

Definition max_attempts : nat := 60.

Section WithEnv.

Variable E : env.

Definition select_video_segment (video_segment_id : Z) : M (option VideoSegment.t) :=
  d <- get_db ;;
  ret (List.find (fun v => (VideoSegment.id v =? video_segment_id)%Z)
                 (video_segments d)).

Definition commit_video_segments (objs : list VideoSegment.t) : M unit :=
  t <- read_db_now E ;;
  d <- get_db ;;
  put_db (with_video_segments d (flush_row objs t <$> video_segments d)
            (next_video_segment_id d)).

(** [delete(VideoSegment).where(VideoSegment.script_id == script_id)] and
    commit *)
Definition delete_video_segments (script_id : Z) : M unit :=
  d <- get_db ;;
  put_db (with_video_segments d
            (List.filter (fun v => negb (VideoSegment.script_id v =? script_id)%Z)
                         (video_segments d))
            (next_video_segment_id d)).

(** A new [VideoSegment(...)] with [status=GENERATING], as the INSERT
    stores it. *)
Definition new_video_segment (id script_id : Z) (config : video_config)
    (model aspect_ratio : str) (duration : Q) (t : timestamp) : VideoSegment.t :=
  {| VideoSegment.id := id;
     VideoSegment.script_id := script_id;
     VideoSegment.segment_index := cfg_segment_index config;
     VideoSegment.first_frame_url := cfg_first_frame_url config;
     VideoSegment.last_frame_url := cfg_last_frame_url config;
     VideoSegment.prompt := Some (cfg_prompt config);
     VideoSegment.video_url := None;
     VideoSegment.model := Some model;
     VideoSegment.aspect_ratio := Some aspect_ratio;
     VideoSegment.status := VideoStatus.GENERATING;
     VideoSegment.duration := duration;
     VideoSegment.task_id := None;
     VideoSegment.error_message := None;
     VideoSegment.created_at := t;
     VideoSegment.updated_at := Some t |}.

Definition insert_video_segments (script_id : Z) (configs : list video_config)
    (model aspect_ratio : str) (duration : Q) : M (list VideoSegment.t) :=
  t <- read_db_now E ;;
  d <- get_db ;;
  let rows :=
    imap (fun i c => new_video_segment (next_video_segment_id d + Z.of_nat i)
                       script_id c model aspect_ratio duration t) configs in
  put_db (with_video_segments d (video_segments d ++ rows)
            (next_video_segment_id d + Z.of_nat (length configs))) ;;
  ret rows.

(** The completed keyframes of the script, ordered by [segment_id]. *)
Definition completed_keyframes (d : database) (script_id : Z) : list Keyframe.t :=
  merge_sort by_segment_id
    (List.filter
       (fun k => (Keyframe.script_id k =? script_id)%Z
                 && bool_decide (Keyframe.status k = KeyframeStatus.COMPLETED))
       (keyframes d)).

(** [generate_videos] *)
Definition generate_videos (script_id : Z) (model aspect_ratio : str) (duration : Q)
  : M (list VideoSegment.t) :=
  script <- KeyframeService.select_script script_id ;;
  match script with
  | None => raise (NotFoundError (u "脚本不存在: " ++ Py.str_of_Z script_id))
  | Some _ =>
    delete_video_segments script_id ;;
    d <- get_db ;;
    let keyframes := completed_keyframes d script_id in
    if bool_decide (keyframes = []) then
      raise (ValidationError (u "脚本没有已完成的关键帧"))
    else
      let keyframe_map := keyframe_map_of keyframes in
      let normal_segments := List.filter is_normal keyframes in
      match normal_segments with
      | [] => raise (ValidationError (u "脚本没有有效的段落关键帧"))
      | first_segment :: _ =>
        let first_frame_key := Keyframe.segment_id first_segment ++ u "_first_frame" in
        match keyframe_map !! first_frame_key with
        | None => raise (ValidationError (u "缺少首帧关键帧: " ++ first_frame_key))
        | Some first_frame =>
          let video_configs :=
            {| cfg_segment_index := 0;
               cfg_first_frame_url := Keyframe.image_url first_frame;
               cfg_last_frame_url := Keyframe.image_url first_segment;
               cfg_prompt := Py.or_empty (Keyframe.prompt first_segment) |}
              :: following_configs 1 normal_segments in
          video_segments <-
            insert_video_segments script_id video_configs model aspect_ratio duration ;;
          let video_segment_ids := VideoSegment.id <$> video_segments in
          create_task (TaskGenerateVideos video_segment_ids) ;;
          ret video_segments
        end
      end
  end.

(** The polling loop of [_call_sora_api]:
    [while attempt < max_attempts], with [n] attempts left. *)
Fixpoint sora_poll (result_url : str) (task_id : json) (n : nat) : M json :=
  match n with
  | O => raise (Exception (u "视频生成超时"))
  | S n' =>
    sleep 5 ;;
    result_data <- post E result_url [] (JObj [(u "id", task_id)]) ;;
    code <- lift (get result_data (u "code") JNull) ;;
    if negb (eq_int code 0) then
      msg <- lift (get result_data (u "msg") JNull) ;;
      raise (Exception (u "获取结果失败: " ++ format E msg))
    else
      data <- lift (getitem result_data (u "data")) ;;
      status <- lift (get data (u "status") JNull) ;;
      if eq_str status (u "succeeded") then
        results <- lift (get data (u "results") (JList [])) ;;
        if truth results then
          first <- lift (getitem_0 results) ;;
          url <- lift (get first (u "url") JNull) ;;
          if truth url then lift (getitem first (u "url"))
          else raise (Exception (u "视频生成成功但未返回URL"))
        else raise (Exception (u "视频生成成功但未返回URL"))
      else if eq_str status (u "failed") then
        error <- lift (get data (u "error") (JStr (u "未知错误"))) ;;
        raise (Exception (u "视频生成失败: " ++ format E error))
      else sora_poll result_url task_id n'
  end.

(** [_call_sora_api] *)
Definition _call_sora_api (model : str) (prompt reference_url aspect_ratio : option str)
    (duration : Q) : M json :=
  let url := video_base_url E ++ u "/v1/video/sora-video" in
  let payload :=
    [(u "model", JStr model);
     (u "prompt", json_of_option prompt);
     (u "aspectRatio", json_of_option aspect_ratio);
     (u "duration", JInt (int_of_float duration));
     (u "size", JStr (u "small"));
     (u "shutProgress", JBool true);
     (u "webHook", JStr (u "-1"))]
    ++ (if Py.truthy reference_url
        then [(u "url", JStr (Py.or_empty reference_url))]
        else []) in
  result <- post E url [] (JObj payload) ;;
  code <- lift (get result (u "code") JNull) ;;
  if negb (eq_int code 0) then
    msg <- lift (get result (u "msg") JNull) ;;
    raise (Exception (u "Sora API错误: " ++ format E msg))
  else
    data <- lift (getitem result (u "data")) ;;
    task_id <- lift (getitem data (u "id")) ;;
    let result_url := video_base_url E ++ u "/v1/draw/result" in
    sora_poll result_url task_id max_attempts.

(** The polling loop of [_call_veo_api]. *)
Fixpoint veo_poll (result_url : str) (task_id : json) (n : nat) : M json :=
  match n with
  | O => raise (Exception (u "视频生成超时"))
  | S n' =>
    sleep 5 ;;
    result_data <- post E result_url [] (JObj [(u "id", task_id)]) ;;
    code <- lift (get result_data (u "code") JNull) ;;
    if negb (eq_int code 0) then
      msg <- lift (get result_data (u "msg") JNull) ;;
      raise (Exception (u "获取结果失败: " ++ format E msg))
    else
      data <- lift (getitem result_data (u "data")) ;;
      status <- lift (get data (u "status") JNull) ;;
      if eq_str status (u "succeeded") then
        video_url <- lift (get data (u "url") JNull) ;;
        if truth video_url then ret video_url
        else raise (Exception (u "视频生成成功但未返回URL"))
      else if eq_str status (u "failed") then
        error <- lift (get data (u "error") (JStr (u "未知错误"))) ;;
        raise (Exception (u "视频生成失败: " ++ format E error))
      else veo_poll result_url task_id n'
  end.

(** [_call_veo_api] *)
Definition _call_veo_api (model : str)
    (prompt first_frame_url last_frame_url aspect_ratio : option str) : M json :=
  let url := video_base_url E ++ u "/v1/video/veo" in
  let payload :=
    [(u "model", JStr model);
     (u "prompt", json_of_option prompt);
     (u "aspectRatio", json_of_option aspect_ratio);
     (u "shutProgress", JBool true);
     (u "webHook", JStr (u "-1"))]
    ++ (if Py.truthy first_frame_url
        then [(u "firstFrameUrl", JStr (Py.or_empty first_frame_url))]
        else [])
    ++ (if Py.truthy last_frame_url
        then [(u "lastFrameUrl", JStr (Py.or_empty last_frame_url))]
        else []) in
  result <- post E url [] (JObj payload) ;;
  code <- lift (get result (u "code") JNull) ;;
  if negb (eq_int code 0) then
    msg <- lift (get result (u "msg") JNull) ;;
    raise (Exception (u "Veo API错误: " ++ format E msg))
  else
    data <- lift (getitem result (u "data")) ;;
    task_id <- lift (getitem data (u "id")) ;;
    let result_url := video_base_url E ++ u "/v1/draw/result" in
    veo_poll result_url task_id max_attempts.

(** [_call_video_generation_api]; the model is a nullable column. *)
Definition _call_video_generation_api (model : option str)
    (prompt first_frame_url last_frame_url aspect_ratio : option str)
    (duration : Q) : M json :=
  if negb (Py.truthy (video_api_key E)) then
    raise (Exception (u "GRSAI API密钥未配置"))
  else
    match model with
    | None =>
      raise (OtherError (u "AttributeError: 'NoneType' object has no attribute 'startswith'"))
    | Some model =>
      if Py.startswith model (u "sora") then
        _call_sora_api model prompt last_frame_url aspect_ratio duration
      else if Py.startswith model (u "veo") then
        _call_veo_api model prompt first_frame_url last_frame_url aspect_ratio
      else
        raise (Exception (u "不支持的模型: " ++ model))
    end.

(** The [try] block of [_generate_single_video_with_session]. *)
Definition generate_single_video_try (video_segment_id : Z) : M unit :=
  video_segment <- select_video_segment video_segment_id ;;
  match video_segment with
  | None => ret tt
  | Some video_segment =>
    third_party_video_url <-
      _call_video_generation_api
        (VideoSegment.model video_segment)
        (VideoSegment.prompt video_segment)
        (VideoSegment.first_frame_url video_segment)
        (VideoSegment.last_frame_url video_segment)
        (VideoSegment.aspect_ratio video_segment)
        (VideoSegment.duration video_segment) ;;
    stamp <- read_local_now E ;;
    let filename :=
      u "video_segment_" ++ Py.str_of_Z video_segment_id ++ u "_" ++ stamp
        ++ u ".mp4" in
    third_party_video_url <- KeyframeService.as_url third_party_video_url ;;
    oss_upload_result <- upload_from_url E third_party_video_url filename (u "videos") ;;
    let oss_video_url := upload_url oss_upload_result in
    commit_video_segments
      [set_status video_segment VideoStatus.COMPLETED (Some oss_video_url) None]
  end.

(** Its [except Exception as e] block. *)
Definition generate_single_video_except (video_segment_id : Z) (e : exn) : M unit :=
  try_except
    (video_segment_to_update <- select_video_segment video_segment_id ;;
     match video_segment_to_update with
     | Some video_segment_to_update =>
       commit_video_segments
         [set_status video_segment_to_update VideoStatus.FAILED
            (VideoSegment.video_url video_segment_to_update)
            (Some (str_of_exn e))]
     | None => ret tt
     end)
    (fun _ => ret tt).

(** [_generate_single_video_with_session] *)
Definition _generate_single_video_with_session (video_segment_id : Z) : M unit :=
  try_except (generate_single_video_try video_segment_id)
             (generate_single_video_except video_segment_id).



(** [get_video_segments_by_script] *)
Definition get_video_segments_by_script (script_id : Z) : M (list VideoSegment.t) :=
  d <- get_db ;;
  ret (merge_sort by_segment_index
         (List.filter (fun v => (VideoSegment.script_id v =? script_id)%Z)
                      (video_segments d))).

End WithEnv.

(** *** Single video segments and the model list *)

(** The assignments of [regenerate_video_segment]: the model when one is
    given, [GENERATING], no error message and no video URL. *)
Definition reset (v : VideoSegment.t) (model : option str) : VideoSegment.t :=
  {| VideoSegment.id := VideoSegment.id v;
     VideoSegment.script_id := VideoSegment.script_id v;
     VideoSegment.segment_index := VideoSegment.segment_index v;
     VideoSegment.first_frame_url := VideoSegment.first_frame_url v;
     VideoSegment.last_frame_url := VideoSegment.last_frame_url v;
     VideoSegment.prompt := VideoSegment.prompt v;
     VideoSegment.video_url := None;
     VideoSegment.model := if Py.truthy model then model else VideoSegment.model v;
     VideoSegment.aspect_ratio := VideoSegment.aspect_ratio v;
     VideoSegment.status := VideoStatus.GENERATING;
     VideoSegment.duration := VideoSegment.duration v;
     VideoSegment.task_id := VideoSegment.task_id v;
     VideoSegment.error_message := None;
     VideoSegment.created_at := VideoSegment.created_at v;
     VideoSegment.updated_at := VideoSegment.updated_at v |}.

(** [regenerate_video_segment]: the row, and the argument of the unit
    [_generate_single_video_with_session] it starts. *)
Definition regenerate_video_segment (E : env) (video_segment_id : Z) (model : option str)
  : M (VideoSegment.t * Z) :=
  video_segment <- select_video_segment video_segment_id ;;
  match video_segment with
  | None => raise (NotFoundError (u "视频片段不存在: " ++ Py.str_of_Z video_segment_id))
  | Some video_segment =>
    let video_segment := reset video_segment model in
    commit_video_segments E [video_segment] ;;
    ret (video_segment, video_segment_id)
  end.

(** An entry of the list [get_available_models] returns. *)
Record model_info := {
  info_id : str;
  info_name : str;
  info_description : str;
  supports_first_last_frame : bool;
}.

(** [get_available_models] *)
Definition get_available_models : list model_info :=
  [{| info_id := u "sora-2";
      info_name := u "Sora 2";
      info_description := u "支持单图参考，生成高质量视频";
      supports_first_last_frame := false |};
   {| info_id := u "veo3-fast";
      info_name := u "Veo 3 Fast";
      info_description := u "快速生成，支持首尾帧控制";
      supports_first_last_frame := true |};
   {| info_id := u "veo3-pro";
      info_name := u "Veo 3 Pro";
      info_description := u "专业级质量，支持首尾帧控制";
      supports_first_last_frame := true |};
   {| info_id := u "veo3.1-fast";
      info_name := u "Veo 3.1 Fast";
      info_description := u "最新版本快速模式，支持首尾帧控制";
      supports_first_last_frame := true |};
   {| info_id := u "veo3.1-pro";
      info_name := u "Veo 3.1 Pro";
      info_description := u "最新版本专业模式，支持首尾帧控制";
      supports_first_last_frame := true |}].

End VideoService.

(** ** Example environments *)

Module Scenario.
Import Runtime.

Definition is_post (e : event) : bool :=
  match e with
  | EvPost _ _ _ => true
  | _ => false
  end.

(** An outside world that answers the n-th POST with the n-th of [replies],
    stores every upload under [https://oss/<filename>], and whose clocks
    read [now]; the API keys are configured. *)
Definition scripted (replies : list (result json)) (now : timestamp) : env :=
  {| is_decimal := ScriptParser.ascii_is_decimal;
     decimal_value := ScriptParser.ascii_decimal_value;
     str_of_json := fun _ => u "?";
     image_api_key := Some (u "key");
     image_base_url := u "https://api";
     video_api_key := Some (u "key");
     video_base_url := u "https://api";
     volc_access_key_id := u "id";
     volc_secret_access_key := u "secret";
     volc_base_url := u "https://volc";
     http_post := fun h _ _ _ =>
       nth (length (List.filter is_post h)) replies
           (Raise (RequestError (u "connection closed")));
     http_get := fun _ _ => Ok tt;
     oss_upload_from_url := fun _ _ filename _ =>
       Ok {| upload_url := u "https://oss/" ++ filename; object_key := filename |};
     utcnow := fun _ => now;
     db_now := fun _ => now;
     local_now := fun _ => u "20260101000000" |}.

(** Replies of the image and video API: a task accepted, a task finished
    with one result, and a submission refused. *)
Definition accepted (task_id : str) : result json :=
  Ok (JObj [(u "code", JInt 0); (u "data", JObj [(u "id", JStr task_id)])]).

Definition finished (url : str) : result json :=
  Ok (JObj [(u "code", JInt 0);
            (u "data", JObj [(u "status", JStr (u "succeeded"));
                             (u "results", JList [JObj [(u "url", JStr url)]])])]).

Definition refused : result json :=
  Ok (JObj [(u "code", JInt 1); (u "msg", JStr (u "busy"))]).

(** A script with an opening frame and two body segments. *)
Definition script_text : str :=
  u "第0帧：open" ++ [10] ++ u "(0:00 - 0:06) a" ++ [10] ++ u "(0:06 - 0:12) b".

Definition empty_db : database :=
  {| scripts := []; keyframes := []; video_segments := [];
     next_keyframe_id := 1; next_video_segment_id := 1 |}.

Definition world_of (d : database) : world := {| db := d; log := []; tasks := [] |}.

(** A database that holds script 1 only. *)
Definition one_script : database :=
  {| scripts := [{| Script.id := 1; Script.content := Some script_text |}];
     keyframes := []; video_segments := [];
     next_keyframe_id := 1; next_video_segment_id := 1 |}.

End Scenario.

(* ================================================================== *)
(** * Part II. Properties *)
(* ================================================================== *)

(** ** Strings *)

Module PyFacts.

Lemma compare_refl (a : str) : Py.compare a a = Eq.
Proof.
  induction a as [|x a IH]; simpl; [reflexivity|].
  now rewrite N.compare_refl.
Qed.

Lemma compare_antisym (a b : str) : Py.compare b a = CompOpp (Py.compare a b).
Proof.
  revert b; induction a as [|x a IH]; intros [|y b]; simpl; try reflexivity.
  rewrite (N.compare_antisym x y).
  destruct (N.compare x y); simpl; auto.
Qed.

Lemma compare_eq (a b : str) : Py.compare a b = Eq -> a = b.
Proof.
  revert b; induction a as [|x a IH]; intros [|y b]; simpl; try discriminate; auto.
  destruct (N.compare x y) eqn:Hxy; try discriminate.
  intros H. apply N.compare_eq in Hxy. f_equal; auto.
Qed.

Lemma compare_lt_trans (a b c : str) :
  Py.compare a b = Lt -> Py.compare b c = Lt -> Py.compare a c = Lt.
Proof.
  revert b c; induction a as [|x a IH]; intros [|y b] [|z c]; simpl;
    try discriminate; auto.
  destruct (N.compare x y) eqn:Hxy; destruct (N.compare y z) eqn:Hyz;
    try discriminate; intros H1 H2.
  - apply N.compare_eq in Hxy, Hyz; subst. rewrite N.compare_refl. eauto.
  - apply N.compare_eq in Hxy; subst. now rewrite Hyz.
  - apply N.compare_eq in Hyz; subst. now rewrite Hxy.
  - rewrite N.compare_lt_iff in Hxy, Hyz.
    assert (Hxz : (x < z)%N) by lia.
    rewrite <- N.compare_lt_iff in Hxz. now rewrite Hxz.
Qed.

Lemma leb_total (a b : str) : Py.leb a b = true \/ Py.leb b a = true.
Proof.
  unfold Py.leb. rewrite (compare_antisym a b).
  destruct (Py.compare a b); simpl; auto.
Qed.

Lemma leb_trans (a b c : str) :
  Py.leb a b = true -> Py.leb b c = true -> Py.leb a c = true.
Proof.
  unfold Py.leb.
  destruct (Py.compare a b) eqn:Hab; try discriminate;
    destruct (Py.compare b c) eqn:Hbc; try discriminate; intros _ _.
  - apply compare_eq in Hab, Hbc; subst. now rewrite compare_refl.
  - apply compare_eq in Hab; subst. now rewrite Hbc.
  - apply compare_eq in Hbc; subst. now rewrite Hab.
  - now rewrite (compare_lt_trans a b c).
Qed.

Lemma eqb_eq (a b : str) : Py.eqb a b = true <-> a = b.
Proof. unfold Py.eqb. apply bool_decide_eq_true. Qed.


Lemma startswith_inv (s p : str) :
  Py.startswith s p = true -> exists t, s = p ++ t.
Proof.
  revert s; induction p as [|c p IH]; intros s H; simpl in *.
  - now exists s.
  - destruct s as [|d s]; [discriminate|].
    apply andb_prop in H as [H1 H2]. apply N.eqb_eq in H1; subst.
    destruct (IH _ H2) as [t ->]. now exists t.
Qed.


Lemma endswith_inv (s p : str) :
  Py.endswith s p = true -> exists t, s = t ++ p.
Proof.
  unfold Py.endswith. intros H. apply startswith_inv in H as [t Ht].
  exists (rev t). apply (f_equal (@rev N)) in Ht.
  rewrite rev_involutive, rev_app_distr, rev_involutive in Ht. exact Ht.
Qed.

End PyFacts.

(** ** The script parser *)

Module ScriptParserFacts.
Import ScriptParser.

(** The id the parser gives the body segment of index [i]. *)
Definition body_id (i : nat) : str := u "segment_" ++ Py.str_of_nat i.

(** The split the specification describes for a text without timestamps,
    with one piece per line (the text cut at each newline). *)
Fixpoint line_by_line_spec (s : str) : list str :=
  match s with
  | [] => [[]]
  | c :: s' =>
    if c =? nl then [] :: line_by_line_spec s'
    else match line_by_line_spec s' with
         | l :: ls => (c :: l) :: ls
         | [] => [[c]]
         end
  end.

(** The segment the parser returns for a text without timestamps. *)
Definition whole_script (script_content : str) : ScriptSegment :=
  {| segment_id := u "segment_0";
     time_range := [];
     content := Py.strip script_content;
     is_first := true;
     is_last := true;
     is_frame_0 := false |}.

Section Shape.

Variable is_decimal : N -> bool.
Variable decimal_value : N -> N.

Lemma segment_of_match_id c ms i m s :
  segment_of_match is_decimal decimal_value c ms i m = Some s ->
  segment_id s = body_id i /\ is_frame_0 s = false.
Proof.
  unfold segment_of_match.
  repeat match goal with
         | |- context [if ?b then _ else _] => destruct b
         end; intros H; try discriminate; injection H as <-; auto.
Qed.

Lemma bodies_of_matches c ms (l : list Re.rmatch) (k : nat) :
  exists idx,
    StronglySorted lt idx /\ Forall (le k) idx /\
    segment_id <$>
      omap id (imap (fun i => segment_of_match is_decimal decimal_value c ms (k + i)) l)
    = body_id <$> idx /\
    Forall (fun s => is_frame_0 s = false)
      (omap id (imap (fun i => segment_of_match is_decimal decimal_value c ms (k + i)) l)).
Proof.
  revert k; induction l as [|m l IH]; intros k.
  - exists []. repeat split; constructor.
  - destruct (IH (S k)) as (idx & Hs & Hle & Hid & Hf).
    rewrite imap_cons.
    assert (Hext : imap ((fun i => segment_of_match is_decimal decimal_value c ms (k + i)) ∘ S) l
                 = imap (fun i => segment_of_match is_decimal decimal_value c ms (S k + i)) l).
    { apply imap_ext. intros i x _. simpl. f_equal. lia. }
    rewrite Hext.
    remember (imap (fun i => segment_of_match is_decimal decimal_value c ms (S k + i)) l)
      as tl eqn:Htl.
    replace (k + 0)%nat with k by lia.
    destruct (segment_of_match is_decimal decimal_value c ms k m) as [s|] eqn:Hm.
    + apply segment_of_match_id in Hm as [Hsid Hf0].
      exists (k :: idx). repeat split.
      * constructor; [exact Hs|]. eapply Forall_impl; [exact Hle|]. simpl; intros; lia.
      * constructor; [lia|]. eapply Forall_impl; [exact Hle|]. simpl; intros; lia.
      * simpl. rewrite Hsid. f_equal. exact Hid.
      * simpl. constructor; assumption.
    + exists idx. repeat split; auto.
      eapply Forall_impl; [exact Hle|]. simpl; intros; lia.
Qed.

(** The parser returns the opening frame, if the script has one, and then
    the body segments, whose ids are [segment_i] for increasing [i]. *)
Lemma parse_script_shape (c : str) :
  exists pre bodies idx,
    parse_script is_decimal decimal_value c = pre ++ bodies /\
    (pre = [] \/ exists f0, pre = [f0] /\ is_frame_0 f0 = true) /\
    Forall (fun s => is_frame_0 s = false) bodies /\
    StronglySorted lt idx /\
    segment_id <$> bodies = body_id <$> idx.
Proof.
  unfold parse_script.
  destruct (_ || _).
  { exists [], [], []. repeat split; auto; constructor. }
  set (f0 := {| segment_id := u "frame_0"; time_range := _; content := _;
                is_first := false; is_last := false; is_frame_0 := true |}).
  destruct (Py.truthy (frame_0_content_of is_decimal c)) eqn:Ht;
    destruct (bool_decide (time_matches is_decimal c = [])) eqn:Hm.
  - exists [f0], [], []. repeat split; eauto; constructor.
  - destruct (bodies_of_matches c (time_matches is_decimal c)
                (time_matches is_decimal c) 0) as (idx & Hs & _ & Hid & Hf).
    eexists [f0], _, idx. repeat split; eauto.
  - exists [], [whole_script c], [0%nat]. repeat split; auto; repeat constructor.
  - destruct (bodies_of_matches c (time_matches is_decimal c)
                (time_matches is_decimal c) 0) as (idx & Hs & _ & Hid & Hf).
    eexists [], _, idx. repeat split; eauto.
Qed.

End Shape.

(** C7, as amended: for a non-blank script in which [time_pattern] has no
    match and no opening frame is found, the parser does not split the text
    line by line: it returns the whole stripped text as the single segment
    [segment_0]. *)
Theorem C7_no_timestamp_whole_text_one_segment
    (is_decimal : N -> bool) (decimal_value : N -> N) (script_content : str) :
  Py.strip script_content <> [] ->
  time_matches is_decimal script_content = [] ->
  Py.truthy (frame_0_content_of is_decimal script_content) = false ->
  parse_script is_decimal decimal_value script_content = [whole_script script_content].
Proof.
  intros Hstrip Hm Hf. unfold parse_script.
  assert (Hne : script_content <> []) by (intros ->; apply Hstrip; reflexivity).
  rewrite (bool_decide_eq_false_2 _ Hne), (bool_decide_eq_false_2 _ Hstrip). simpl.
  rewrite Hf, Hm. reflexivity.
Qed.

(** A script of two lines, [a] and [b], without any timestamp. *)
Definition two_lines : str := u "a" ++ [nl] ++ u "b".

Lemma C7_no_timestamp_witness :
  parse_script ascii_is_decimal ascii_decimal_value two_lines = [whole_script two_lines].
Proof.
  apply (C7_no_timestamp_whole_text_one_segment ascii_is_decimal ascii_decimal_value two_lines);
    vm_compute; [discriminate | reflexivity | reflexivity].
Defined.

(** C7, as stated, fails on the two-line script: it has no timestamp and
    no opening frame, its lines are [a] and [b], and the parser returns one
    segment holding both lines. *)
Lemma C7_two_lines_one_segment :
  time_matches ascii_is_decimal two_lines = [] /\
  frame_0_content_of ascii_is_decimal two_lines = None /\
  line_by_line_spec two_lines = [u "a"; u "b"] /\
  content <$> parse_script ascii_is_decimal ascii_decimal_value two_lines = [two_lines] /\
  length (parse_script ascii_is_decimal ascii_decimal_value two_lines)
    <> length (line_by_line_spec two_lines).
Proof. vm_compute. repeat split; discriminate. Qed.

End ScriptParserFacts.

(** ** Calls to the outside world *)

Module Effects.
Import Runtime.

Definition is_sleep (e : event) : bool :=
  match e with
  | EvSleep _ => true
  | _ => false
  end.

(** The polling attempts among the events of a run: each attempt starts
    with a sleep. *)
Definition attempts (evs : list event) : nat := length (List.filter is_sleep evs).

(** Every sleep among [evs] lasts [c] seconds. *)
Definition interval (c : N) (evs : list event) : Prop :=
  forall s, In (EvSleep s) evs -> s = c.

(** [w'] is [w] after the calls [evs], with the same database and tasks. *)
Definition after (w : world) (evs : list event) : world :=
  {| db := db w; log := log w ++ evs; tasks := tasks w |}.

(** [calls c n m]: whatever the world, [m] leaves the database and the
    tasks as they are and makes at most [n] polling attempts, each after a
    sleep of [c] seconds. *)
Definition calls {A} (c : N) (n : nat) (m : M A) : Prop :=
  forall w, exists evs,
    snd (m w) = after w evs /\ (attempts evs <= n)%nat /\ interval c evs.

Lemma after_nil w : after w [] = w.
Proof. destruct w; unfold after; simpl. now rewrite app_nil_r. Qed.

Lemma after_after w evs evs' : after (after w evs) evs' = after w (evs ++ evs').
Proof. unfold after; simpl. now rewrite app_assoc. Qed.

Lemma attempts_app evs evs' : attempts (evs ++ evs') = (attempts evs + attempts evs')%nat.
Proof. unfold attempts. now rewrite List.filter_app, length_app. Qed.

Lemma interval_app c evs evs' : interval c evs -> interval c evs' -> interval c (evs ++ evs').
Proof. intros H1 H2 s Hin. apply in_app_or in Hin as [?|?]; auto. Qed.

Lemma interval_nil c : interval c [].
Proof. intros s []. Qed.

Lemma calls_weaken {A} c n n' (m : M A) : (n <= n')%nat -> calls c n m -> calls c n' m.
Proof. intros Hle H w. destruct (H w) as (evs & ? & ? & ?). exists evs. repeat split; auto; lia. Qed.

Lemma calls_ret {A} c n (a : A) : calls c n (ret a).
Proof. intros w. exists []. rewrite after_nil. repeat split; [unfold attempts; simpl; lia | apply interval_nil]. Qed.

Lemma calls_raise {A} c n e : calls c n (@raise A e).
Proof. intros w. exists []. rewrite after_nil. repeat split; [unfold attempts; simpl; lia | apply interval_nil]. Qed.

Lemma calls_lift {A} c n (r : result A) : calls c n (lift r).
Proof. intros w. exists []. rewrite after_nil. repeat split; [unfold attempts; simpl; lia | apply interval_nil]. Qed.

Lemma calls_get_db c n : calls c n get_db.
Proof. intros w. exists []. rewrite after_nil. repeat split; [unfold attempts; simpl; lia | apply interval_nil]. Qed.

Lemma calls_one {A} c n (m : M A) (e : event) :
  is_sleep e = false ->
  (forall w, snd (m w) = after w [e]) -> calls c n m.
Proof.
  intros He H w. exists [e]. repeat split; auto.
  - unfold attempts; simpl. rewrite He. simpl; lia.
  - intros s [->|[]]. discriminate.
Qed.

Lemma calls_post E c n url params body : calls c n (post E url params body).
Proof. now apply (calls_one _ _ _ (EvPost url params body)). Qed.

Lemma calls_http_get E c n url : calls c n (http_get_url E url).
Proof. now apply (calls_one _ _ _ (EvGet url)). Qed.

Lemma calls_upload E c n url filename category :
  calls c n (upload_from_url E url filename category).
Proof. now apply (calls_one _ _ _ (EvUpload url filename category)). Qed.

Lemma calls_local_now E c n : calls c n (read_local_now E).
Proof. now apply (calls_one _ _ _ EvLocalNow). Qed.

Lemma calls_emit c n e : is_sleep e = false -> calls c n (emit e).
Proof. intros He. now apply (calls_one _ _ _ e). Qed.

Lemma calls_bind {A B} c n1 n2 (m : M A) (k : A -> M B) :
  calls c n1 m -> (forall a, calls c n2 (k a)) -> calls c (n1 + n2) (bind m k).
Proof.
  intros Hm Hk w. unfold bind.
  destruct (Hm w) as (evs & Hw & Hn & Hi).
  destruct (m w) as [[a|e] w1]; simpl in Hw; subst w1.
  - destruct (Hk a (after w evs)) as (evs' & Hw' & Hn' & Hi').
    exists (evs ++ evs'). rewrite Hw', after_after, attempts_app.
    repeat split; [lia | now apply interval_app].
  - exists evs. repeat split; auto. lia.
Qed.

Lemma calls_bind_pure {A B} c n (m : M A) (k : A -> M B) :
  calls c 0 m -> (forall a, calls c n (k a)) -> calls c n (bind m k).
Proof. intros Hm Hk. apply (calls_bind c 0 n); assumption. Qed.

Lemma calls_sleep_bind {B} c n (k : M B) :
  calls c n k -> calls c (S n) (bind (sleep c) (fun _ => k)).
Proof.
  intros Hk. apply (calls_bind c 1 n); [|intros _; exact Hk].
  intros w. exists [EvSleep c]. repeat split; auto.
  intros s [Heq|[]]. now injection Heq.
Qed.

Lemma calls_try_except {A} c n1 n2 (m : M A) (h : exn -> M A) :
  calls c n1 m -> (forall e, calls c n2 (h e)) -> calls c (n1 + n2) (try_except m h).
Proof.
  intros Hm Hh w. unfold try_except.
  destruct (Hm w) as (evs & Hw & Hn & Hi).
  destruct (m w) as [[a|e] w1]; simpl in Hw; subst w1.
  - exists evs. repeat split; auto. lia.
  - destruct (Hh e (after w evs)) as (evs' & Hw' & Hn' & Hi').
    exists (evs ++ evs'). rewrite Hw', after_after, attempts_app.
    repeat split; [lia | now apply interval_app].
Qed.

(** Steps that derive [calls] along the structure of a computation; the
    database [calls_db] holds the lemmas about the computations met. *)
Create HintDb calls_db.

#[global] Hint Resolve calls_ret calls_raise calls_lift calls_post calls_http_get
  calls_upload calls_local_now calls_get_db : calls_db.

Ltac calls_leaf :=
  first [ assumption
        | apply calls_emit; reflexivity
        | solve [auto 1 with calls_db nocore] ].

Ltac calls_step :=
  first [ calls_leaf
        | apply calls_sleep_bind
        | apply calls_bind_pure; [solve [repeat calls_step] | intros]
        | match goal with
          | |- calls _ _ (if ?b then _ else _) => destruct b
          | |- calls _ _ (match ?x with _ => _ end) => destruct x
          | |- calls _ _ (let '(_, _) := ?x in _) => destruct x
          end ].

Section WithEnv.

Variable E : env.

Lemma calls_has_results c n results : calls c n (ImageGeneration.has_results results).
Proof. unfold ImageGeneration.has_results. repeat calls_step. Qed.

Lemma calls_failure_message c n data : calls c n (ImageGeneration.failure_message E data).
Proof. unfold ImageGeneration.failure_message. repeat calls_step. Qed.

Hint Resolve calls_has_results calls_failure_message : calls_db.

Lemma calls_jimeng_poll url params body n :
  calls 2 n (ImageGeneration.jimeng_poll E url params body n).
Proof.
  induction n as [|n IH]; simpl; repeat calls_step.
Qed.

Lemma calls_nano_banana_poll url task_id n :
  calls 2 n (ImageGeneration.nano_banana_poll E url task_id n).
Proof.
  induction n as [|n IH]; simpl; repeat calls_step.
Qed.

Lemma calls_sora_image_poll url task_id n :
  calls 2 n (ImageGeneration.sora_image_poll E url task_id n).
Proof.
  induction n as [|n IH]; simpl; repeat calls_step.
Qed.

Lemma calls_sora_poll url task_id n :
  calls 5 n (VideoService.sora_poll E url task_id n).
Proof.
  induction n as [|n IH]; simpl; repeat calls_step.
Qed.

Lemma calls_veo_poll url task_id n :
  calls 5 n (VideoService.veo_poll E url task_id n).
Proof.
  induction n as [|n IH]; simpl; repeat calls_step.
Qed.

Lemma calls_http_handlers {A} c n e : calls c n (@ImageGeneration.http_handlers A e).
Proof. destruct e; simpl; calls_leaf. Qed.

Lemma calls_try_except_0 {A} c n (m : M A) (h : exn -> M A) :
  calls c n m -> (forall e, calls c 0 (h e)) -> calls c n (try_except m h).
Proof.
  intros Hm Hh. apply (calls_weaken c (n + 0)); [lia|].
  now apply calls_try_except.
Qed.

Lemma calls_jimeng_poll_60 url params body :
  calls 2 60 (ImageGeneration.jimeng_poll E url params body
                ImageGeneration.jimeng_max_retries).
Proof.
  apply (calls_weaken 2 30); [unfold ImageGeneration.jimeng_max_retries; lia|].
  apply calls_jimeng_poll.
Qed.

Lemma calls_nano_banana_poll_60 url task_id :
  calls 2 60 (ImageGeneration.nano_banana_poll E url task_id ImageGeneration.max_polls).
Proof. apply calls_nano_banana_poll. Qed.

Lemma calls_sora_image_poll_60 url task_id :
  calls 2 60 (ImageGeneration.sora_image_poll E url task_id ImageGeneration.max_polls).
Proof. apply calls_sora_image_poll. Qed.

Lemma calls_sora_poll_60 url task_id :
  calls 5 60 (VideoService.sora_poll E url task_id VideoService.max_attempts).
Proof. apply calls_sora_poll. Qed.

Lemma calls_veo_poll_60 url task_id :
  calls 5 60 (VideoService.veo_poll E url task_id VideoService.max_attempts).
Proof. apply calls_veo_poll. Qed.

Hint Resolve calls_jimeng_poll_60 calls_nano_banana_poll_60 calls_sora_image_poll_60
  calls_sora_poll_60 calls_veo_poll_60 : calls_db.

Opaque ImageGeneration.jimeng_poll ImageGeneration.nano_banana_poll
  ImageGeneration.sora_image_poll VideoService.sora_poll VideoService.veo_poll.

Lemma calls_volc_generate_image prompt size refs :
  calls 2 60 (ImageGeneration.volc_generate_image E prompt size refs).
Proof.
  unfold ImageGeneration.volc_generate_image.
  repeat calls_step.
Qed.

Lemma calls_generate_image prompt model aspect_ratio quality reference :
  calls 2 60
    (ImageGeneration.generate_image E prompt model aspect_ratio quality reference).
Proof.
  unfold ImageGeneration.generate_image, ImageGeneration.generate_image_jimeng,
    ImageGeneration.generate_image_nano_banana, ImageGeneration.generate_image_sora.
  apply calls_bind_pure; [calls_leaf|intros _].
  repeat first
    [ calls_step
    | apply calls_http_handlers
    | apply calls_try_except_0; [|intros]
    | apply (calls_bind 2 60 0); [apply calls_volc_generate_image | intros] ].
Qed.

Lemma calls_video_generation_api model prompt first_frame_url last_frame_url
    aspect_ratio duration :
  calls 5 60
    (VideoService._call_video_generation_api E model prompt first_frame_url
       last_frame_url aspect_ratio duration).
Proof.
  unfold VideoService._call_video_generation_api, VideoService._call_sora_api,
    VideoService._call_veo_api.
  repeat calls_step.
Qed.

Transparent ImageGeneration.jimeng_poll ImageGeneration.nano_banana_poll
  ImageGeneration.sora_image_poll VideoService.sora_poll VideoService.veo_poll.

End WithEnv.

#[global] Hint Resolve calls_has_results calls_failure_message calls_http_handlers
  calls_jimeng_poll_60 calls_nano_banana_poll_60 calls_sora_image_poll_60
  calls_sora_poll_60 calls_veo_poll_60 : calls_db.

(** The first call of a computation that starts with a POST. *)
Lemma post_then {A} E c n url params body (k : json -> M A) w :
  (forall a, calls c n (k a)) ->
  exists evs,
    log (snd (bind (post E url params body) k w))
    = log w ++ EvPost url params body :: evs.
Proof.
  intros Hk. unfold bind, post.
  destruct (http_post E (log w) url params body) as [a|e].
  - destruct (Hk a {| db := db w; log := log w ++ [EvPost url params body];
                      tasks := tasks w |}) as (evs & Hw & _).
    exists evs. rewrite Hw. unfold after. cbn [log]. now rewrite <- app_assoc.
  - exists []. reflexivity.
Qed.

(** *** Polls that never reach a terminal status *)





Section Pending.

Variable E : env.






End Pending.

End Effects.

(** ** The jobs: every failure ends in the [failed] state *)

Module JobFacts.
Import Runtime Effects.

Lemma calls_keeps_db {A} c n (m : M A) w : calls c n m -> db (snd (m w)) = db w.
Proof. intros H. destruct (H w) as (evs & -> & _). reflexivity. Qed.

Definition keyframe_by_id (keyframe_id : Z) (d : database) : option Keyframe.t :=
  List.find (fun k => (Keyframe.id k =? keyframe_id)%Z) (keyframes d).

Definition video_segment_by_id (video_segment_id : Z) (d : database)
  : option VideoSegment.t :=
  List.find (fun v => (VideoSegment.id v =? video_segment_id)%Z) (video_segments d).

Lemma flush_keyframe_single o t r :
  KeyframeService.flush_row [o] t r
  = if (Keyframe.id o =? Keyframe.id r)%Z
    then (if bool_decide (o = r) then r else KeyframeService.set_updated_at o t)
    else r.
Proof.
  unfold KeyframeService.flush_row. simpl.
  destruct (Keyframe.id o =? Keyframe.id r)%Z; reflexivity.
Qed.

Lemma flush_keyframe_id o t r :
  Keyframe.id (KeyframeService.flush_row [o] t r) = Keyframe.id r.
Proof.
  rewrite flush_keyframe_single.
  destruct (Keyframe.id o =? Keyframe.id r)%Z eqn:Ho; [|reflexivity].
  destruct (bool_decide (o = r)); [reflexivity|].
  simpl. now apply Z.eqb_eq.
Qed.

Lemma find_flush_keyframe (rows : list Keyframe.t) kid k o t :
  List.find (fun k => (Keyframe.id k =? kid)%Z) rows = Some k ->
  Keyframe.id o = kid ->
  List.find (fun k => (Keyframe.id k =? kid)%Z) (KeyframeService.flush_row [o] t <$> rows)
  = Some (if bool_decide (o = k) then k else KeyframeService.set_updated_at o t).
Proof.
  intros Hfind Ho. induction rows as [|r rows IH]; [discriminate|].
  cbn [fmap list_fmap List.find] in Hfind |- *.
  rewrite flush_keyframe_id.
  destruct (Keyframe.id r =? kid)%Z eqn:Hr.
  - injection Hfind as ->. apply Z.eqb_eq in Hr.
    rewrite flush_keyframe_single, Ho, Hr, Z.eqb_refl. reflexivity.
  - now apply IH.
Qed.

Lemma flush_video_segment_single o t r :
  VideoService.flush_row [o] t r
  = if (VideoSegment.id o =? VideoSegment.id r)%Z
    then (if bool_decide (o = r) then r else VideoService.set_updated_at o t)
    else r.
Proof.
  unfold VideoService.flush_row. simpl.
  destruct (VideoSegment.id o =? VideoSegment.id r)%Z; reflexivity.
Qed.

Lemma flush_video_segment_id o t r :
  VideoSegment.id (VideoService.flush_row [o] t r) = VideoSegment.id r.
Proof.
  rewrite flush_video_segment_single.
  destruct (VideoSegment.id o =? VideoSegment.id r)%Z eqn:Ho; [|reflexivity].
  destruct (bool_decide (o = r)); [reflexivity|].
  simpl. now apply Z.eqb_eq.
Qed.

Lemma find_flush_video_segment (rows : list VideoSegment.t) vid v o t :
  List.find (fun v => (VideoSegment.id v =? vid)%Z) rows = Some v ->
  VideoSegment.id o = vid ->
  List.find (fun v => (VideoSegment.id v =? vid)%Z) (VideoService.flush_row [o] t <$> rows)
  = Some (if bool_decide (o = v) then v else VideoService.set_updated_at o t).
Proof.
  intros Hfind Ho. induction rows as [|r rows IH]; [discriminate|].
  cbn [fmap list_fmap List.find] in Hfind |- *.
  rewrite flush_video_segment_id.
  destruct (VideoSegment.id r =? vid)%Z eqn:Hr.
  - injection Hfind as ->. apply Z.eqb_eq in Hr.
    rewrite flush_video_segment_single, Ho, Hr, Z.eqb_refl. reflexivity.
  - now apply IH.
Qed.

Lemma find_id {A} (f : A -> Z) (rows : list A) x kid :
  List.find (fun k => (f k =? kid)%Z) rows = Some x -> f x = kid.
Proof. intros H. apply List.find_some in H as [_ H]. now apply Z.eqb_eq. Qed.

(** The outcome of a computation started from [w0] that writes the database
    only at its end: it raises with the database and the tasks of [w0], or
    it returns a value that satisfies [Good]. *)
Definition raises_unchanged {A} (w0 : world) (Good : A -> world -> Prop)
    (rw : result A * world) : Prop :=
  match rw with
  | (Raise _, w1) => db w1 = db w0 /\ tasks w1 = tasks w0
  | (Ok a, w1) => Good a w1
  end.

Lemma raises_unchanged_bind {A B} c n w0 Good (m : M A) (k : A -> M B) w :
  calls c n m ->
  db w = db w0 -> tasks w = tasks w0 ->
  (forall a w', db w' = db w0 -> tasks w' = tasks w0 ->
                raises_unchanged w0 Good (k a w')) ->
  raises_unchanged w0 Good (bind m k w).
Proof.
  intros Hm Hd Ht Hk. unfold bind.
  destruct (Hm w) as (evs & Hw & _).
  destruct (m w) as [[a|e] w1]; simpl in Hw; subst w1.
  - apply Hk; simpl; assumption.
  - simpl. auto.
Qed.

Lemma raises_unchanged_raise {A} w0 Good e w :
  db w = db w0 -> tasks w = tasks w0 ->
  @raises_unchanged A w0 Good (raise e w).
Proof. simpl. auto. Qed.

Section WithEnv.

Variable E : env.

Lemma calls_as_url c n j : calls c n (KeyframeService.as_url j).
Proof. destruct j; simpl; calls_leaf. Qed.

(** *** The keyframe job *)

Lemma keyframe_try_outcome kid sm model ar q ref w k :
  keyframe_by_id kid (db w) = Some k ->
  raises_unchanged w
    (fun r w1 => exists url k',
       r = Some url /\ keyframe_by_id kid (db w1) = Some k' /\
       Keyframe.status k' = KeyframeStatus.COMPLETED /\
       Keyframe.image_url k' = Some url /\ tasks w1 = tasks w)
    (KeyframeService.generate_single_keyframe_try E kid sm model ar q ref w).
Proof.
  unfold keyframe_by_id. intros Hk.
  unfold KeyframeService.generate_single_keyframe_try.
  unfold bind at 1, KeyframeService.select_keyframe at 1, bind at 1, get_db, ret.
  cbn [fst snd]. rewrite Hk.
  eapply raises_unchanged_bind; [apply calls_generate_image|reflexivity..|].
  intros result w1 Hd1 Ht1.
  eapply raises_unchanged_bind; [apply (calls_lift 0 0)|assumption..|].
  intros image_url w2 Hd2 Ht2.
  destruct (negb (truth image_url)); [now apply raises_unchanged_raise|].
  eapply raises_unchanged_bind; [apply (calls_as_url 0 0)|assumption..|].
  intros url w3 Hd3 Ht3.
  eapply raises_unchanged_bind; [apply (calls_http_get E 0 0)|assumption..|].
  intros _ w4 Hd4 Ht4.
  eapply raises_unchanged_bind; [apply (calls_upload E 0 0)|assumption..|].
  intros up w5 Hd5 Ht5.
  unfold bind, KeyframeService.select_keyframe, KeyframeService.commit_keyframes,
    bind, get_db, put_db, read_db_now, ret.
  cbn [fst snd db log tasks]. rewrite Hd5, Hk.
  cbn [fst snd db log tasks keyframes KeyframeService.with_keyframes raises_unchanged].
  eexists _, _. split; [reflexivity|]. split.
  { rewrite Hd5. apply find_flush_keyframe; [exact Hk|]. simpl. eapply find_id. exact Hk. }
  destruct (bool_decide _) eqn:Hd.
  - apply bool_decide_eq_true in Hd. rewrite <- Hd. simpl. auto.
  - simpl. auto.
Qed.

Lemma keyframe_except_fails kid e w k :
  keyframe_by_id kid (db w) = Some k ->
  exists w' k',
    KeyframeService.generate_single_keyframe_except E kid e w = (Ok None, w') /\
    keyframe_by_id kid (db w') = Some k' /\
    Keyframe.status k' = KeyframeStatus.FAILED /\
    Keyframe.error_message k' = Some (str_of_exn e) /\
    tasks w' = tasks w.
Proof.
  unfold keyframe_by_id. intros Hk.
  unfold KeyframeService.generate_single_keyframe_except, try_except, bind,
    KeyframeService.select_keyframe, KeyframeService.commit_keyframes, bind,
    get_db, put_db, read_db_now, ret.
  cbn [fst snd db log tasks]. rewrite Hk.
  cbn [fst snd db log tasks keyframes KeyframeService.with_keyframes].
  eexists _, _. split; [reflexivity|].
  cbn [fst snd db log tasks keyframes KeyframeService.with_keyframes].
  split.
  { apply find_flush_keyframe; [exact Hk|]. simpl. eapply find_id. exact Hk. }
  destruct (bool_decide _) eqn:Hd.
  - apply bool_decide_eq_true in Hd. rewrite <- Hd. simpl. auto.
  - simpl. auto.
Qed.


(** The job of an existing keyframe returns, and leaves the keyframe
    [COMPLETED] with its image or [FAILED] with the error of the [try]
    block. *)
Lemma keyframe_job_terminal kid sm model ar q ref w k :
  keyframe_by_id kid (db w) = Some k ->
  exists r w' k',
    KeyframeService._generate_single_keyframe_image_with_session E kid sm model ar q ref w
      = (Ok r, w') /\
    keyframe_by_id kid (db w') = Some k' /\ tasks w' = tasks w /\
    ((exists url, r = Some url /\ Keyframe.status k' = KeyframeStatus.COMPLETED
                  /\ Keyframe.image_url k' = Some url) \/
     (exists e w1,
        KeyframeService.generate_single_keyframe_try E kid sm model ar q ref w
          = (Raise e, w1) /\
        r = None /\ Keyframe.status k' = KeyframeStatus.FAILED
        /\ Keyframe.error_message k' = Some (str_of_exn e))).
Proof.
  intros Hk.
  pose proof (keyframe_try_outcome kid sm model ar q ref w k Hk) as Hout.
  unfold KeyframeService._generate_single_keyframe_image_with_session, try_except.
  destruct (KeyframeService.generate_single_keyframe_try E kid sm model ar q ref w)
    as [[r|e] w1] eqn:Htry; simpl in Hout.
  - destruct Hout as (url & k' & -> & Hk' & Hst & Himg & Ht).
    exists (Some url), w1, k'. repeat split; auto. left. eauto.
  - destruct Hout as [Hd Ht].
    assert (Hk1 : keyframe_by_id kid (db w1) = Some k)
      by (unfold keyframe_by_id in *; now rewrite Hd).
    destruct (keyframe_except_fails kid e w1 k Hk1) as (w2 & k' & Hrun & Hk' & Hst & Herr & Ht').
    exists None, w2, k'. repeat split; auto; [congruence|].
    right. exists e, w1. auto.
Qed.

(** *** The video job *)

Lemma video_try_outcome vid w v :
  video_segment_by_id vid (db w) = Some v ->
  raises_unchanged w
    (fun _ w1 => exists v',
       video_segment_by_id vid (db w1) = Some v' /\
       VideoSegment.status v' = VideoStatus.COMPLETED /\
       is_Some (VideoSegment.video_url v') /\ tasks w1 = tasks w)
    (VideoService.generate_single_video_try E vid w).
Proof.
  unfold video_segment_by_id. intros Hv.
  unfold VideoService.generate_single_video_try.
  unfold bind at 1, VideoService.select_video_segment at 1, bind at 1, get_db, ret.
  cbn [fst snd]. rewrite Hv.
  eapply raises_unchanged_bind; [apply calls_video_generation_api|reflexivity..|].
  intros url w1 Hd1 Ht1.
  eapply raises_unchanged_bind; [apply (calls_local_now E 0 0)|assumption..|].
  intros stamp w2 Hd2 Ht2.
  eapply raises_unchanged_bind; [apply (calls_as_url 0 0)|assumption..|].
  intros url' w3 Hd3 Ht3.
  eapply raises_unchanged_bind; [apply (calls_upload E 0 0)|assumption..|].
  intros up w4 Hd4 Ht4.
  unfold VideoService.commit_video_segments, bind, get_db, put_db, read_db_now, ret.
  cbn [fst snd db log tasks video_segments VideoService.with_video_segments
       raises_unchanged].
  eexists. split.
  { rewrite Hd4. apply find_flush_video_segment; [exact Hv|]. simpl. eapply find_id. exact Hv. }
  destruct (bool_decide _) eqn:Hd.
  - apply bool_decide_eq_true in Hd. rewrite <- Hd. simpl. eauto.
  - simpl. eauto.
Qed.

Lemma video_except_fails vid e w v :
  video_segment_by_id vid (db w) = Some v ->
  exists w' v',
    VideoService.generate_single_video_except E vid e w = (Ok tt, w') /\
    video_segment_by_id vid (db w') = Some v' /\
    VideoSegment.status v' = VideoStatus.FAILED /\
    VideoSegment.error_message v' = Some (str_of_exn e) /\
    tasks w' = tasks w /\ log w' = log w ++ [EvDbNow].
Proof.
  unfold video_segment_by_id. intros Hv.
  unfold VideoService.generate_single_video_except, try_except, bind,
    VideoService.select_video_segment, VideoService.commit_video_segments, bind,
    get_db, put_db, read_db_now, ret.
  cbn [fst snd db log tasks]. rewrite Hv.
  cbn [fst snd db log tasks video_segments VideoService.with_video_segments].
  eexists _, _. split; [reflexivity|].
  cbn [fst snd db log tasks video_segments VideoService.with_video_segments].
  split.
  { apply find_flush_video_segment; [exact Hv|]. simpl. eapply find_id. exact Hv. }
  destruct (bool_decide _) eqn:Hd.
  - apply bool_decide_eq_true in Hd. rewrite <- Hd. simpl. auto.
  - simpl. auto.
Qed.

Lemma video_try_raise vid w v e w1 :
  video_segment_by_id vid (db w) = Some v ->
  VideoService._call_video_generation_api E
    (VideoSegment.model v) (VideoSegment.prompt v) (VideoSegment.first_frame_url v)
    (VideoSegment.last_frame_url v) (VideoSegment.aspect_ratio v)
    (VideoSegment.duration v) w = (Raise e, w1) ->
  VideoService.generate_single_video_try E vid w = (Raise e, w1).
Proof.
  unfold video_segment_by_id. intros Hv Hg.
  unfold VideoService.generate_single_video_try.
  unfold bind at 1, VideoService.select_video_segment at 1, bind at 1, get_db, ret.
  cbn [fst snd]. rewrite Hv. unfold bind at 1. now rewrite Hg.
Qed.

Lemma video_job_terminal vid w v :
  video_segment_by_id vid (db w) = Some v ->
  exists w' v',
    VideoService._generate_single_video_with_session E vid w = (Ok tt, w') /\
    video_segment_by_id vid (db w') = Some v' /\ tasks w' = tasks w /\
    (VideoSegment.status v' = VideoStatus.COMPLETED \/
     (exists e w1,
        VideoService.generate_single_video_try E vid w = (Raise e, w1) /\
        VideoSegment.status v' = VideoStatus.FAILED
        /\ VideoSegment.error_message v' = Some (str_of_exn e))).
Proof.
  intros Hv.
  pose proof (video_try_outcome vid w v Hv) as Hout.
  unfold VideoService._generate_single_video_with_session, try_except.
  destruct (VideoService.generate_single_video_try E vid w) as [[[]|e] w1] eqn:Htry;
    simpl in Hout.
  - destruct Hout as (v' & Hv' & Hst & _ & Ht).
    exists w1, v'. repeat split; auto.
  - destruct Hout as [Hd Ht].
    assert (Hv1 : video_segment_by_id vid (db w1) = Some v)
      by (unfold video_segment_by_id in *; now rewrite Hd).
    destruct (video_except_fails vid e w1 v Hv1)
      as (w2 & v' & Hrun & Hv' & Hst & Herr & Ht' & _).
    exists w2, v'. repeat split; auto; [congruence|].
    right. exists e, w1. auto.
Qed.

End WithEnv.

End JobFacts.

(** ** Polling *)

Module PollingFacts.
Import Runtime Effects JobFacts.


Lemma video_job_raise E vid w v e w1 :
  video_segment_by_id vid (db w) = Some v ->
  VideoService._call_video_generation_api E
    (VideoSegment.model v) (VideoSegment.prompt v) (VideoSegment.first_frame_url v)
    (VideoSegment.last_frame_url v) (VideoSegment.aspect_ratio v)
    (VideoSegment.duration v) w = (Raise e, w1) ->
  exists w2 v',
    VideoService._generate_single_video_with_session E vid w = (Ok tt, w2) /\
    video_segment_by_id vid (db w2) = Some v' /\
    VideoSegment.status v' = VideoStatus.FAILED /\
    VideoSegment.error_message v' = Some (str_of_exn e) /\
    log w2 = log w1 ++ [EvDbNow].
Proof.
  intros Hv Hg.
  unfold VideoService._generate_single_video_with_session, try_except.
  rewrite (video_try_raise E vid w v e w1 Hv Hg).
  assert (Hd : db w1 = db w).
  { pose proof (calls_keeps_db 5 60 _ w
                  (calls_video_generation_api E (VideoSegment.model v)
                     (VideoSegment.prompt v) (VideoSegment.first_frame_url v)
                     (VideoSegment.last_frame_url v) (VideoSegment.aspect_ratio v)
                     (VideoSegment.duration v))) as H.
    now rewrite Hg in H. }
  assert (Hv1 : video_segment_by_id vid (db w1) = Some v)
    by (unfold video_segment_by_id in *; now rewrite Hd).
  destruct (video_except_fails E vid e w1 v Hv1)
    as (w2 & v' & Hrun & Hv' & Hst & Herr & _ & Hlog).
  exists w2, v'. repeat split; assumption.
Qed.


End PollingFacts.

(** ** Keyframe generation *)

Module KeyframeFacts.
Import Runtime JobFacts.

Definition script_by_id (script_id : Z) (d : database) : option Script.t :=
  List.find (fun s => (Script.id s =? script_id)%Z) (scripts d).

(** The keyframe rows of a script, in insertion order. *)
Definition keyframes_of (script_id : Z) (d : database) : list Keyframe.t :=
  List.filter (fun k => (Keyframe.script_id k =? script_id)%Z) (keyframes d).

Lemma imap_new_keyframe_field {B} (g : Keyframe.t -> B) (h : str * str -> B)
    (n sid : Z) (t : timestamp) (pending : list (str * str)) :
  (forall i p, g (KeyframeService.new_keyframe (n + Z.of_nat i) sid (fst p) (snd p) t) = h p) ->
  g <$> imap (fun i p => KeyframeService.new_keyframe (n + Z.of_nat i) sid (fst p) (snd p) t)
             pending
  = h <$> pending.
Proof.
  intros H. rewrite fmap_imap, <- imap_const.
  apply imap_ext. intros i p _. apply H.
Qed.

Lemma filter_negb_frame_0 (l : list ScriptParser.ScriptSegment) :
  Forall (fun s => ScriptParser.is_frame_0 s = false) l ->
  List.filter (fun s => negb (ScriptParser.is_frame_0 s)) l = l.
Proof.
  induction 1 as [|s l Hs _ IH]; simpl; [reflexivity|].
  now rewrite Hs, IH.
Qed.

Lemma filter_other_script sid (l : list Keyframe.t) :
  List.filter (fun k => (Keyframe.script_id k =? sid)%Z)
    (List.filter (fun k => negb (Keyframe.script_id k =? sid)%Z) l) = [].
Proof.
  induction l as [|k l IH]; simpl; [reflexivity|].
  destruct (Keyframe.script_id k =? sid)%Z eqn:Hk; simpl; [exact IH|].
  now rewrite Hk.
Qed.

Lemma filter_same_script sid (l : list Keyframe.t) :
  Forall (fun k => Keyframe.script_id k = sid) l ->
  List.filter (fun k => (Keyframe.script_id k =? sid)%Z) l = l.
Proof.
  induction 1 as [|k l Hk _ IH]; simpl; [reflexivity|].
  now rewrite Hk, Z.eqb_refl, IH.
Qed.

(** C3.  For a script whose text parses into an opening frame followed by
    K >= 1 body segments, a keyframe generation request returns K+1 rows in
    the [generating] state, which are then the keyframe rows of the script:
    the opening frame first, under the id of the first body segment
    suffixed with [_first_frame] and with the opening frame's text as
    prompt, then one row per body segment in the order of the script, whose
    ids are [segment_i] for increasing [i]. *)
Theorem C3_opening_frame_and_bodies_in_order
    (E : env) (script_id : Z) (model aspect_ratio : str) (quality : option str)
    (w : world) (script : Script.t)
    (opening first_body : ScriptParser.ScriptSegment)
    (bodies : list ScriptParser.ScriptSegment) :
  script_by_id script_id (db w) = Some script ->
  Py.truthy (Script.content script) = true ->
  ScriptParser.parse_script (is_decimal E) (decimal_value E)
    (Py.or_empty (Script.content script)) = opening :: first_body :: bodies ->
  ScriptParser.is_frame_0 opening = true ->
  exists rows w',
    KeyframeService.generate_keyframes E script_id model aspect_ratio quality w
      = (Ok rows, w') /\
    keyframes_of script_id (db w') = rows /\
    length rows = S (length (first_body :: bodies)) /\
    Keyframe.segment_id <$> rows
      = (ScriptParser.segment_id first_body ++ u "_first_frame")
          :: (ScriptParser.segment_id <$> first_body :: bodies) /\
    Keyframe.prompt <$> rows
      = Some <$> (ScriptParser.content opening
                    :: (ScriptParser.content <$> first_body :: bodies)) /\
    Forall (fun k => Keyframe.status k = KeyframeStatus.GENERATING) rows /\
    (exists idx, StronglySorted lt idx /\
       ScriptParser.segment_id <$> first_body :: bodies
         = ScriptParserFacts.body_id <$> idx).
Proof.
  intros Hscript Hcontent Hparse Hopening.
  destruct (ScriptParserFacts.parse_script_shape (is_decimal E) (decimal_value E)
              (Py.or_empty (Script.content script)))
    as (pre & bs & idx & Hshape & Hpre & Hbs & Hidx & Hids).
  rewrite Hparse in Hshape.
  assert (Hbodies : bs = first_body :: bodies).
  { destruct Hpre as [->|(f0 & -> & _)]; simpl in Hshape.
    - subst bs. inversion Hbs as [|? ? Hf0]; subst. congruence.
    - now injection Hshape. }
  subst bs.
  unfold KeyframeService.generate_keyframes.
  unfold bind at 1, KeyframeService.select_script at 1, bind at 1, get_db, ret.
  cbn [fst snd]. unfold script_by_id in Hscript. rewrite Hscript, Hcontent.
  cbn [negb]. rewrite Hparse.
  rewrite bool_decide_eq_false_2 by discriminate.
  unfold bind at 1, KeyframeService.delete_keyframes at 1, bind at 1, get_db, put_db.
  cbn [fst snd db log tasks].
  assert (Hnormal : List.filter (fun s => negb (ScriptParser.is_frame_0 s))
                      (opening :: first_body :: bodies) = first_body :: bodies).
  { cbn [List.filter]. rewrite Hopening. cbn [negb].
    change (List.filter (fun s => negb (ScriptParser.is_frame_0 s)) (first_body :: bodies)
            = first_body :: bodies).
    apply (filter_negb_frame_0 _ Hbs). }
  assert (Hfind : List.find ScriptParser.is_frame_0 (opening :: first_body :: bodies)
                  = Some opening).
  { cbn [List.find]. now rewrite Hopening. }
  rewrite Hnormal, Hfind.
  unfold bind, KeyframeService.insert_keyframes, bind, get_db, put_db, read_db_now,
    create_task, ret.
  cbn [fst snd db log tasks keyframes next_keyframe_id KeyframeService.with_keyframes].
  eexists _, _. split; [reflexivity|].
  cbn [fst snd db log tasks keyframes next_keyframe_id KeyframeService.with_keyframes].
  split.
  { unfold keyframes_of, KeyframeService.with_keyframes. cbn [keyframes].
    rewrite List.filter_app, filter_other_script. cbn [app].
    apply filter_same_script. apply Forall_forall. intros k Hk.
    apply elem_of_lookup_imap in Hk as (i & p & -> & _). reflexivity. }
  split; [rewrite length_imap; cbn [app length]; now rewrite length_fmap|].
  split.
  { rewrite (imap_new_keyframe_field Keyframe.segment_id fst) by reflexivity.
    cbn [fmap list_fmap app fst]. f_equal. f_equal.
    rewrite <- !list_fmap_compose. reflexivity. }
  split.
  { rewrite (imap_new_keyframe_field Keyframe.prompt (fun p => Some (snd p))) by reflexivity.
    cbn [fmap list_fmap app snd]. f_equal. f_equal.
    rewrite <- !list_fmap_compose. reflexivity. }
  split.
  { apply Forall_forall. intros k Hk.
    apply elem_of_lookup_imap in Hk as (i & p & -> & _). reflexivity. }
  exists idx. auto.
Qed.

Lemma C3_opening_frame_witness :
  exists rows w',
    KeyframeService.generate_keyframes (Scenario.scripted [] 0) 1 (u "nano-banana")
      (u "16:9") None (Scenario.world_of Scenario.one_script) = (Ok rows, w') /\
    Keyframe.segment_id <$> rows = [u "segment_0_first_frame"; u "segment_0"; u "segment_1"].
Proof.
  destruct (C3_opening_frame_and_bodies_in_order
              (Scenario.scripted [] 0) 1 (u "nano-banana") (u "16:9") None
              (Scenario.world_of Scenario.one_script)
              {| Script.id := 1; Script.content := Some Scenario.script_text |}
              {| ScriptParser.segment_id := u "frame_0";
                 ScriptParser.time_range := u "0:00 - 0:00";
                 ScriptParser.content := u "open";
                 ScriptParser.is_first := false;
                 ScriptParser.is_last := false;
                 ScriptParser.is_frame_0 := true |}
              {| ScriptParser.segment_id := u "segment_0";
                 ScriptParser.time_range := u "0:00 - 0:06";
                 ScriptParser.content := u "a";
                 ScriptParser.is_first := true;
                 ScriptParser.is_last := false;
                 ScriptParser.is_frame_0 := false |}
              [{| ScriptParser.segment_id := u "segment_1";
                  ScriptParser.time_range := u "0:06 - 0:12";
                  ScriptParser.content := u "b";
                  ScriptParser.is_first := false;
                  ScriptParser.is_last := true;
                  ScriptParser.is_frame_0 := false |}])
    as (rows & w' & Hrun & _ & _ & Hids & _);
    [reflexivity | reflexivity | vm_compute; reflexivity | reflexivity |].
  exists rows, w'. split; [exact Hrun | exact Hids].
Defined.

(** *** The reaper *)

(** What a list-read of script [sid] at time [now] leaves in a row of the
    table: a keyframe of the script that is stale is stored as [FAILED] with
    the timeout message, and the database stamps it at [t]. *)
Definition reaped (sid : Z) (now t : timestamp) (row : Keyframe.t) : Keyframe.t :=
  if (Keyframe.script_id row =? sid)%Z && KeyframeService.is_stale now row
  then KeyframeService.set_updated_at
         (KeyframeService.set_status row KeyframeStatus.FAILED
            (Some KeyframeService.stale_message)) t
  else row.

Lemma NoDup_fmap_eq {A B} (f : A -> B) (l : list A) x y :
  NoDup (f <$> l) -> x ∈ l -> y ∈ l -> f x = f y -> x = y.
Proof.
  induction l as [|a l IH]; intros Hnd Hx Hy Hf; [inversion Hx|].
  rewrite fmap_cons in Hnd. apply NoDup_cons in Hnd as [Hna Hnd].
  apply elem_of_cons in Hx as [->|Hx]; apply elem_of_cons in Hy as [->|Hy]; auto.
  - exfalso. apply Hna. rewrite Hf. now apply list_elem_of_fmap_2.
  - exfalso. apply Hna. rewrite <- Hf. now apply list_elem_of_fmap_2.
Qed.

Lemma refresh_stale_id now k :
  Keyframe.id (KeyframeService.refresh_stale now k) = Keyframe.id k.
Proof. unfold KeyframeService.refresh_stale. now destruct (KeyframeService.is_stale now k). Qed.

Lemma refresh_stale_fixed now k :
  KeyframeService.refresh_stale now k = k <-> KeyframeService.is_stale now k = false.
Proof.
  unfold KeyframeService.refresh_stale.
  destruct (KeyframeService.is_stale now k) eqn:Hs; split; auto; try discriminate.
  intros Heq. unfold KeyframeService.is_stale in Hs.
  destruct (Keyframe.updated_at k); [|discriminate].
  apply andb_prop in Hs as [Hs _]. apply bool_decide_eq_true in Hs.
  rewrite <- Heq in Hs. discriminate.
Qed.

(** What the UPDATE of the reaper does to a row of the table. *)
Lemma flush_refreshed sid now t (rows listed : list Keyframe.t) row :
  NoDup (Keyframe.id <$> rows) ->
  (forall r, r ∈ listed <-> r ∈ rows /\ Keyframe.script_id r = sid) ->
  row ∈ rows ->
  KeyframeService.flush_row (KeyframeService.refresh_stale now <$> listed) t row
  = reaped sid now t row.
Proof.
  intros Hnd Hlisted Hrow. unfold KeyframeService.flush_row, reaped.
  destruct (List.find _ _) as [o|] eqn:Hfind.
  - apply List.find_some in Hfind as [Hin Hid]. apply Z.eqb_eq in Hid.
    apply list_elem_of_In, list_elem_of_fmap in Hin as (r & -> & Hr).
    rewrite refresh_stale_id in Hid.
    apply Hlisted in Hr as [Hr Hsid].
    assert (r = row) by (eapply (NoDup_fmap_eq Keyframe.id); eauto). subst r.
    rewrite Hsid, Z.eqb_refl. simpl.
    destruct (bool_decide _) eqn:Hd.
    + apply bool_decide_eq_true, refresh_stale_fixed in Hd. now rewrite Hd.
    + apply bool_decide_eq_false in Hd.
      destruct (KeyframeService.is_stale now row) eqn:Hs.
      * unfold KeyframeService.refresh_stale. now rewrite Hs.
      * exfalso. apply Hd. now apply refresh_stale_fixed.
  - destruct (Keyframe.script_id row =? sid)%Z eqn:Hsid; [|reflexivity].
    apply Z.eqb_eq in Hsid. exfalso.
    assert (Hin : row ∈ listed) by (apply Hlisted; auto).
    pose proof (List.find_none _ _ Hfind (KeyframeService.refresh_stale now row)) as Hnone.
    cbv beta in Hnone. rewrite refresh_stale_id, Z.eqb_refl in Hnone.
    discriminate Hnone. apply list_elem_of_In, list_elem_of_fmap_2, Hin.
Qed.

Lemma listed_keyframes sid (d : database) r :
  r ∈ merge_sort KeyframeService.by_created_at (keyframes_of sid d)
  <-> r ∈ keyframes d /\ Keyframe.script_id r = sid.
Proof.
  rewrite merge_sort_Permutation. unfold keyframes_of.
  rewrite !list_elem_of_In, List.filter_In, Z.eqb_eq. reflexivity.
Qed.

Lemma reaped_unless_stale sid now t row :
  ((Keyframe.script_id row =? sid)%Z && KeyframeService.is_stale now row = false) ->
  reaped sid now t row = row.
Proof. unfold reaped. now intros ->. Qed.

(** A list-read of the keyframes of a script: the rows it returns, and what
    it leaves in the database. *)
Lemma get_keyframes_by_script_id_run E sid w :
  NoDup (Keyframe.id <$> keyframes (db w)) ->
  exists w',
    KeyframeService.get_keyframes_by_script_id E sid w
    = (Ok (KeyframeService.refresh_stale (utcnow E (log w))
             <$> merge_sort KeyframeService.by_created_at (keyframes_of sid (db w))),
       w') /\
    keyframes (db w')
    = reaped sid (utcnow E (log w)) (db_now E (log w ++ [EvUtcNow])) <$> keyframes (db w) /\
    video_segments (db w') = video_segments (db w) /\
    scripts (db w') = scripts (db w) /\
    tasks w' = tasks w.
Proof.
  intros Hnd.
  unfold KeyframeService.get_keyframes_by_script_id.
  unfold bind at 1, get_db. cbn [fst snd].
  fold (keyframes_of sid (db w)).
  pose proof (listed_keyframes sid (db w)) as Hlisted.
  set (listed := merge_sort KeyframeService.by_created_at (keyframes_of sid (db w))) in *.
  set (now := utcnow E (log w)).
  assert (Hsame : existsb (KeyframeService.is_stale now) listed = false ->
                  keyframes (db w)
                  = reaped sid now (db_now E (log w ++ [EvUtcNow])) <$> keyframes (db w)).
  { intros Hex. symmetry. rewrite <- (list_fmap_id (keyframes (db w))) at 2.
    apply list_fmap_ext. intros i row Hrow. unfold id. apply reaped_unless_stale.
    destruct (Keyframe.script_id row =? sid)%Z eqn:Hsid; [|reflexivity]. simpl.
    apply Z.eqb_eq in Hsid.
    destruct (KeyframeService.is_stale now row) eqn:Hs; [|reflexivity].
    assert (Hin : row ∈ listed) by (apply Hlisted; split; [eapply list_elem_of_lookup_2|]; eauto).
    assert (Hex' : existsb (KeyframeService.is_stale now) listed = true).
    { apply existsb_exists. exists row. split; [now apply list_elem_of_In|exact Hs]. }
    congruence. }
  unfold KeyframeService._refresh_stale_keyframes.
  destruct listed as [|k0 listed'] eqn:Hl.
  - exists w. unfold bind, ret. cbn [fst snd fmap list_fmap].
    repeat split; auto.
  - rewrite <- Hl in *. clear Hl.
    unfold bind at 1, bind at 1, read_utcnow. cbn [fst snd db log tasks]. fold now.
    destruct (existsb (KeyframeService.is_stale now) listed) eqn:Hex.
    + unfold bind, KeyframeService.commit_keyframes, bind, read_db_now, get_db, put_db, ret.
      cbn [fst snd db log tasks]. eexists. split; [reflexivity|].
      cbn [db log tasks keyframes video_segments scripts KeyframeService.with_keyframes].
      repeat split; auto.
      apply list_fmap_ext. intros i row Hrow.
      apply flush_refreshed with (rows := keyframes (db w)); auto.
      eapply list_elem_of_lookup_2; eauto.
    + unfold bind, ret. cbn [fst snd db log tasks]. eexists. split; [reflexivity|].
      cbn [db log tasks]. repeat split; auto.
Qed.

Lemma find_fmap_same_id (g : Keyframe.t -> Keyframe.t) (rows : list Keyframe.t) k :
  (forall r, Keyframe.id (g r) = Keyframe.id r) ->
  NoDup (Keyframe.id <$> rows) -> k ∈ rows ->
  List.find (fun r => (Keyframe.id r =? Keyframe.id k)%Z) (g <$> rows) = Some (g k).
Proof.
  intros Hg Hnd Hk. induction rows as [|r rows IH]; [inversion Hk|].
  cbn [fmap list_fmap List.find]. rewrite Hg.
  destruct (Keyframe.id r =? Keyframe.id k)%Z eqn:Hr.
  - apply Z.eqb_eq in Hr.
    assert (r = k) by (eapply (NoDup_fmap_eq Keyframe.id); eauto; constructor).
    now subst.
  - apply elem_of_cons in Hk as [->|Hk]; [now rewrite Z.eqb_refl in Hr|].
    rewrite fmap_cons in Hnd. apply NoDup_cons in Hnd as [_ Hnd]. auto.
Qed.

Lemma reaped_id sid now t row : Keyframe.id (reaped sid now t row) = Keyframe.id row.
Proof. unfold reaped. now destruct (_ && _). Qed.

Lemma is_stale_iff now k :
  KeyframeService.is_stale now k = true <->
  Keyframe.status k = KeyframeStatus.GENERATING /\
  exists t, Keyframe.updated_at k = Some t
            /\ (now - t > KeyframeService.STALE_KEYFRAME_TIMEOUT)%Z.
Proof.
  unfold KeyframeService.is_stale. destruct (Keyframe.updated_at k) as [t|].
  - rewrite andb_true_iff, !bool_decide_eq_true. split.
    + intros [? ?]. eauto.
    + intros [? (t' & Ht & ?)]. injection Ht as <-. auto.
  - split; [discriminate|]. intros [_ (t & Ht & _)]. discriminate.
Qed.

(** Listing the video segments of a script reads the table and changes
    nothing. *)
Lemma get_video_segments_by_script_pure sid w :
  VideoService.get_video_segments_by_script sid w
  = (Ok (merge_sort VideoService.by_segment_index
           (List.filter (fun v => (VideoSegment.script_id v =? sid)%Z)
                        (video_segments (db w)))),
     w).
Proof. reflexivity. Qed.

(** C4, as amended: the reaper exists for keyframes only.  A list-read of
    the keyframes of a script stores as [FAILED], with the timeout message,
    every keyframe of the script that is [GENERATING] and whose [updated_at]
    is more than 5 minutes before the time of the read, and returns it so;
    a [GENERATING] keyframe within the 5 minutes is left as it is; and
    listing the video segments of a script changes no row at all. *)
Theorem C4_list_read_reaps_stale_keyframes_only (E : env) (script_id : Z) (w : world) :
  NoDup (Keyframe.id <$> keyframes (db w)) ->
  exists rows w',
    KeyframeService.get_keyframes_by_script_id E script_id w = (Ok rows, w') /\
    (forall k t,
       k ∈ keyframes (db w) ->
       Keyframe.script_id k = script_id ->
       Keyframe.status k = KeyframeStatus.GENERATING ->
       Keyframe.updated_at k = Some t ->
       ((utcnow E (log w) - t > KeyframeService.STALE_KEYFRAME_TIMEOUT)%Z ->
        exists k',
          keyframe_by_id (Keyframe.id k) (db w') = Some k' /\
          Keyframe.status k' = KeyframeStatus.FAILED /\
          Keyframe.error_message k' = Some KeyframeService.stale_message /\
          KeyframeService.set_status k KeyframeStatus.FAILED
            (Some KeyframeService.stale_message) ∈ rows) /\
       ((utcnow E (log w) - t <= KeyframeService.STALE_KEYFRAME_TIMEOUT)%Z ->
        keyframe_by_id (Keyframe.id k) (db w') = Some k /\ k ∈ rows)) /\
    video_segments (db w') = video_segments (db w) /\
    (forall sid w0, snd (VideoService.get_video_segments_by_script sid w0) = w0).
Proof.
  intros Hnd.
  destruct (get_keyframes_by_script_id_run E script_id w Hnd)
    as (w' & Hrun & Hrows & Hvideo & _ & _).
  eexists _, w'. split; [exact Hrun|]. split; [|split; [exact Hvideo|reflexivity]].
  intros k t Hk Hsid Hst Hup.
  assert (Hfind : keyframe_by_id (Keyframe.id k) (db w')
                  = Some (reaped script_id (utcnow E (log w))
                            (db_now E (log w ++ [EvUtcNow])) k)).
  { unfold keyframe_by_id. rewrite Hrows.
    apply find_fmap_same_id; auto. intros r. apply reaped_id. }
  assert (Hlisted : k ∈ merge_sort KeyframeService.by_created_at
                          (keyframes_of script_id (db w)))
    by (apply listed_keyframes; auto).
  split; intros Hage.
  - assert (Hstale : KeyframeService.is_stale (utcnow E (log w)) k = true)
      by (apply is_stale_iff; eauto).
    eexists. split; [exact Hfind|].
    unfold reaped. rewrite Hsid, Z.eqb_refl, Hstale. simpl. repeat split.
    apply list_elem_of_fmap. exists k. split; [|exact Hlisted].
    unfold KeyframeService.refresh_stale. now rewrite Hstale.
  - assert (Hstale : KeyframeService.is_stale (utcnow E (log w)) k = false).
    { destruct (KeyframeService.is_stale (utcnow E (log w)) k) eqn:Hs; [|reflexivity].
      apply is_stale_iff in Hs as [_ (t' & Ht' & Hgt)].
      rewrite Hup in Ht'. injection Ht' as <-. lia. }
    split.
    + rewrite Hfind. f_equal. apply reaped_unless_stale. rewrite Hstale.
      apply andb_false_r.
    + apply list_elem_of_fmap. exists k. split; [|exact Hlisted].
      symmetry. now apply refresh_stale_fixed.
Qed.

(** A keyframe and a video segment of script 1 that were left [GENERATING]
    at time 0, read ten minutes later. *)
Definition stuck_keyframe : Keyframe.t :=
  {| Keyframe.id := 1; Keyframe.script_id := 1; Keyframe.segment_id := u "segment_0";
     Keyframe.image_url := None; Keyframe.prompt := Some (u "a");
     Keyframe.status := KeyframeStatus.GENERATING; Keyframe.error_message := None;
     Keyframe.created_at := 0; Keyframe.updated_at := Some 0%Z |}.

Definition stuck_video_segment : VideoSegment.t :=
  {| VideoSegment.id := 1; VideoSegment.script_id := 1; VideoSegment.segment_index := 0;
     VideoSegment.first_frame_url := Some (u "https://oss/keyframe_1.jpg");
     VideoSegment.last_frame_url := Some (u "https://oss/keyframe_2.jpg");
     VideoSegment.prompt := Some (u "a"); VideoSegment.video_url := None;
     VideoSegment.model := Some (u "veo3.1-fast");
     VideoSegment.aspect_ratio := Some (u "16:9");
     VideoSegment.status := VideoStatus.GENERATING; VideoSegment.duration := 6;
     VideoSegment.task_id := None; VideoSegment.error_message := None;
     VideoSegment.created_at := 0; VideoSegment.updated_at := Some 0%Z |}.

Definition stuck_db : database :=
  {| scripts := [{| Script.id := 1; Script.content := Some Scenario.script_text |}];
     keyframes := [stuck_keyframe];
     video_segments := [stuck_video_segment];
     next_keyframe_id := 2; next_video_segment_id := 2 |}.

Definition ten_minutes : timestamp := 10 * 60 * 1000000.

Lemma C4_list_read_witness :
  exists rows w',
    KeyframeService.get_keyframes_by_script_id (Scenario.scripted [] ten_minutes) 1
      (Scenario.world_of stuck_db) = (Ok rows, w') /\
    Keyframe.status <$> keyframes (db w') = [KeyframeStatus.FAILED].
Proof.
  destruct (C4_list_read_reaps_stale_keyframes_only
              (Scenario.scripted [] ten_minutes) 1 (Scenario.world_of stuck_db))
    as (rows & w' & Hrun & _).
  - vm_compute. repeat constructor. intros H. inversion H.
  - exists rows, w'. split; [exact Hrun|].
    vm_compute in Hrun. injection Hrun as _ <-. reflexivity.
Defined.

(** C4, as stated, fails for video segments: a video segment that has been
    [GENERATING] for ten minutes is returned by the list-read as it is, and
    the read changes nothing. *)
Lemma C4_stale_video_segment_stays_generating :
  VideoService.get_video_segments_by_script 1 (Scenario.world_of stuck_db)
    = (Ok [stuck_video_segment], Scenario.world_of stuck_db) /\
  VideoSegment.status stuck_video_segment = VideoStatus.GENERATING /\
  VideoSegment.updated_at stuck_video_segment = Some 0%Z /\
  (utcnow (Scenario.scripted [] ten_minutes) (log (Scenario.world_of stuck_db)) - 0
   > KeyframeService.STALE_KEYFRAME_TIMEOUT)%Z.
Proof. vm_compute. repeat split; reflexivity. Qed.

(** *** The reference chain *)

(** The loop goes on after a job that returns [None], with the reference it
    had; after a job that returns a URL, with that URL. *)
Lemma generate_keyframes_loop_after_failure E kid ids sm model ar q previous w w1 :
  KeyframeService._generate_single_keyframe_image_with_session E kid sm model ar q
    previous w = (Ok None, w1) ->
  KeyframeService.generate_keyframes_loop E (kid :: ids) sm model ar q previous w
  = KeyframeService.generate_keyframes_loop E ids sm model ar q previous w1.
Proof.
  intros Hjob. cbn [KeyframeService.generate_keyframes_loop].
  unfold bind at 1. now rewrite Hjob.
Qed.

Lemma generate_keyframes_loop_after_success E kid ids sm model ar q previous w w1 c url :
  KeyframeService._generate_single_keyframe_image_with_session E kid sm model ar q
    previous w = (Ok (Some (c :: url)), w1) ->
  KeyframeService.generate_keyframes_loop E (kid :: ids) sm model ar q previous w
  = KeyframeService.generate_keyframes_loop E ids sm model ar q (Some (c :: url)) w1.
Proof.
  intros Hjob. cbn [KeyframeService.generate_keyframes_loop].
  unfold bind at 1. now rewrite Hjob.
Qed.

(** The reference image of each call of [generate_image] in a log. *)
Definition references (evs : list event) : list (option str) :=
  omap (fun e => match e with
                 | EvGenerateImage _ _ _ _ reference => Some reference
                 | _ => None
                 end) evs.

(** An image vendor that serves the first task, refuses the second
    submission and serves the third. *)
Definition second_refused : env :=
  Scenario.scripted
    [Scenario.accepted (u "t1"); Scenario.finished (u "https://vendor/1.png");
     Scenario.refused;
     Scenario.accepted (u "t3"); Scenario.finished (u "https://vendor/3.png")]
    0.

(** The run of the background unit that a keyframe generation request for
    script 1 (an opening frame and two body segments) hands over. *)
Definition keyframes_run (E : env) : world :=
  let w1 :=
    snd (KeyframeService.generate_keyframes E 1 (u "nano-banana") (u "16:9") None
           (Scenario.world_of Scenario.one_script)) in
  match tasks w1 with
  | TaskGenerateKeyframes ids segments model aspect_ratio quality :: _ =>
    snd (KeyframeService._generate_keyframes_background E ids segments model
           aspect_ratio quality w1)
  | _ => w1
  end.

(** C1, on the code: the three keyframes are visited in creation order and
    the second one fails; the third call is then made with the stored image
    of the first keyframe as its reference, not without a reference. *)
Theorem C1_reference_after_failure_is_last_success :
  Keyframe.id <$> keyframes (db (keyframes_run second_refused)) = [1; 2; 3]%Z /\
  Keyframe.status <$> keyframes (db (keyframes_run second_refused))
    = [KeyframeStatus.COMPLETED; KeyframeStatus.FAILED; KeyframeStatus.COMPLETED] /\
  Keyframe.image_url <$> keyframes (db (keyframes_run second_refused))
    = [Some (u "https://oss/keyframe_1.jpg"); None; Some (u "https://oss/keyframe_3.jpg")] /\
  references (log (keyframes_run second_refused))
    = [None; Some (u "https://oss/keyframe_1.jpg"); Some (u "https://oss/keyframe_1.jpg")].
Proof. vm_compute. repeat split; reflexivity. Qed.

End KeyframeFacts.

(** ** Video generation *)

Module VideoFacts.
Import Runtime JobFacts KeyframeFacts.

#[global] Instance by_segment_id_trans : Transitive VideoService.by_segment_id.
Proof. intros a b c. unfold VideoService.by_segment_id. apply PyFacts.leb_trans. Qed.

#[global] Instance by_segment_id_total : Total VideoService.by_segment_id.
Proof. intros a b. unfold VideoService.by_segment_id. apply PyFacts.leb_total. Qed.

(** The video segment rows of a script, in insertion order. *)
Definition video_segments_of (script_id : Z) (d : database) : list VideoSegment.t :=
  List.filter (fun v => (VideoSegment.script_id v =? script_id)%Z) (video_segments d).

(** The database once the video segments of a script are deleted. *)
Definition without_video_segments (script_id : Z) (d : database) : database :=
  VideoService.with_video_segments d
    (List.filter (fun v => negb (VideoSegment.script_id v =? script_id)%Z)
                 (video_segments d))
    (next_video_segment_id d).

Lemma completed_keyframes_elem (d : database) sid k :
  k ∈ VideoService.completed_keyframes d sid <->
  k ∈ keyframes d /\ Keyframe.script_id k = sid
  /\ Keyframe.status k = KeyframeStatus.COMPLETED.
Proof.
  unfold VideoService.completed_keyframes. rewrite merge_sort_Permutation.
  rewrite !list_elem_of_In, List.filter_In, andb_true_iff, Z.eqb_eq, bool_decide_eq_true.
  reflexivity.
Qed.

Lemma completed_keyframes_without sid d :
  VideoService.completed_keyframes (without_video_segments sid d) sid
  = VideoService.completed_keyframes d sid.
Proof. reflexivity. Qed.

(** *** The dictionary of keyframes *)

Lemma keyframe_map_from_None (ks : list Keyframe.t) (m : gmap str Keyframe.t) key :
  (forall k, k ∈ ks -> Keyframe.segment_id k <> key) ->
  foldl (fun m kf => <[Keyframe.segment_id kf := kf]> m) m ks !! key = m !! key.
Proof.
  revert m; induction ks as [|k ks IH]; intros m Hne; [reflexivity|].
  cbn [foldl]. rewrite IH.
  - apply lookup_insert_ne. apply Hne. constructor.
  - intros k' Hk'. apply Hne. now constructor.
Qed.


Lemma keyframe_map_lookup_None ks key :
  (forall k, k ∈ ks -> Keyframe.segment_id k <> key) ->
  VideoService.keyframe_map_of ks !! key = None.
Proof.
  intros H. unfold VideoService.keyframe_map_of.
  rewrite keyframe_map_from_None by exact H. apply lookup_empty.
Qed.


(** *** The validations of [generate_videos] *)

Lemma generate_videos_no_completed E sid model ar dur w script :
  script_by_id sid (db w) = Some script ->
  VideoService.completed_keyframes (db w) sid = [] ->
  VideoService.generate_videos E sid model ar dur w
  = (Raise (ValidationError (u "脚本没有已完成的关键帧")),
     {| db := without_video_segments sid (db w); log := log w; tasks := tasks w |}).
Proof.
  intros Hscript Hnone.
  unfold VideoService.generate_videos.
  unfold bind at 1, KeyframeService.select_script at 1, bind at 1, get_db, ret.
  cbn [fst snd]. unfold script_by_id in Hscript. rewrite Hscript.
  unfold bind at 1, VideoService.delete_video_segments at 1, bind at 1, get_db, put_db.
  cbn [fst snd db log tasks].
  unfold bind at 1. cbn [fst snd db log tasks].
  fold (without_video_segments sid (db w)).
  rewrite completed_keyframes_without, Hnone.
  reflexivity.
Qed.

Lemma generate_videos_missing_first_frame E sid model ar dur w script first_body bodies :
  script_by_id sid (db w) = Some script ->
  List.filter VideoService.is_normal (VideoService.completed_keyframes (db w) sid)
    = first_body :: bodies ->
  (forall k, k ∈ VideoService.completed_keyframes (db w) sid ->
             Keyframe.segment_id k <> Keyframe.segment_id first_body ++ u "_first_frame") ->
  VideoService.generate_videos E sid model ar dur w
  = (Raise (ValidationError (u "缺少首帧关键帧: " ++ Keyframe.segment_id first_body
                             ++ u "_first_frame")),
     {| db := without_video_segments sid (db w); log := log w; tasks := tasks w |}).
Proof.
  intros Hscript Hnormal Hmissing.
  unfold VideoService.generate_videos.
  unfold bind at 1, KeyframeService.select_script at 1, bind at 1, get_db, ret.
  cbn [fst snd]. unfold script_by_id in Hscript. rewrite Hscript.
  unfold bind at 1, VideoService.delete_video_segments at 1, bind at 1, get_db, put_db.
  cbn [fst snd db log tasks].
  unfold bind at 1. cbn [fst snd db log tasks].
  fold (without_video_segments sid (db w)).
  rewrite completed_keyframes_without.
  rewrite bool_decide_eq_false_2.
  2:{ intros Hnil. rewrite Hnil in Hnormal. discriminate. }
  rewrite Hnormal.
  pose proof (keyframe_map_lookup_None _ _ Hmissing) as Hnone.
  destruct (VideoService.keyframe_map_of _ !! _) as [k|] eqn:Hlookup; [|reflexivity].
  discriminate Hnone.
Qed.

Lemma video_segments_of_without sid d :
  video_segments_of sid (without_video_segments sid d) = [].
Proof.
  unfold video_segments_of, without_video_segments. cbn [video_segments VideoService.with_video_segments].
  induction (video_segments d) as [|v l IH]; simpl; [reflexivity|].
  destruct (VideoSegment.script_id v =? sid)%Z eqn:Hv; simpl; [exact IH|].
  now rewrite Hv.
Qed.

Lemma video_segments_of_other sid sid' d :
  sid' <> sid ->
  video_segments_of sid' (without_video_segments sid d) = video_segments_of sid' d.
Proof.
  intros Hne.
  unfold video_segments_of, without_video_segments. cbn [video_segments VideoService.with_video_segments].
  induction (video_segments d) as [|v l IH]; simpl; [reflexivity|].
  destruct (VideoSegment.script_id v =? sid)%Z eqn:Hv; simpl.
  - apply Z.eqb_eq in Hv. rewrite Hv.
    destruct (sid =? sid')%Z eqn:Hs; [apply Z.eqb_eq in Hs; congruence|exact IH].
  - now rewrite IH.
Qed.

(** C5, as amended: a video generation request for a script without any
    completed keyframe raises [ValidationError], starts nothing (no
    background unit, no call to the outside world) and leaves the scripts
    and the keyframes as they were; but the video segments of the script
    are gone, deleted before the keyframes were loaded and checked.  The
    video segments of the other scripts stay. *)
Theorem C5_validation_error_comes_after_delete
    (E : env) (script_id : Z) (model aspect_ratio : str) (duration : Q) (w : world)
    (script : Script.t) :
  script_by_id script_id (db w) = Some script ->
  VideoService.completed_keyframes (db w) script_id = [] ->
  exists w',
    VideoService.generate_videos E script_id model aspect_ratio duration w
    = (Raise (ValidationError (u "脚本没有已完成的关键帧")), w') /\
    tasks w' = tasks w /\ log w' = log w /\
    scripts (db w') = scripts (db w) /\ keyframes (db w') = keyframes (db w) /\
    video_segments_of script_id (db w') = [] /\
    (forall other, other <> script_id ->
       video_segments_of other (db w') = video_segments_of other (db w)).
Proof.
  intros Hscript Hnone. eexists. split.
  - apply (generate_videos_no_completed E script_id model aspect_ratio duration w script);
      assumption.
  - cbn [db log tasks]. repeat split.
    + apply video_segments_of_without.
    + intros other Hne. now apply video_segments_of_other.
Qed.

Lemma C5_validation_error_witness :
  exists w',
    VideoService.generate_videos (Scenario.scripted [] 0) 1 (u "veo3.1-fast") (u "16:9") 6
      (Scenario.world_of stuck_db)
    = (Raise (ValidationError (u "脚本没有已完成的关键帧")), w') /\
    video_segments_of 1 (db w') = [].
Proof.
  destruct (C5_validation_error_comes_after_delete
              (Scenario.scripted [] 0) 1 (u "veo3.1-fast") (u "16:9") 6
              (Scenario.world_of stuck_db)
              {| Script.id := 1; Script.content := Some Scenario.script_text |})
    as (w' & Hrun & _ & _ & _ & _ & Hgone & _); [reflexivity | reflexivity |].
  exists w'. split; [exact Hrun | exact Hgone].
Defined.

(** C5, as stated, fails: script 1 has no completed keyframe and one video
    segment; the request raises [ValidationError] and the video segment is
    deleted all the same. *)
Lemma C5_video_segments_deleted_on_error :
  fst (VideoService.generate_videos (Scenario.scripted [] 0) 1 (u "veo3.1-fast")
         (u "16:9") 6 (Scenario.world_of stuck_db))
    = Raise (ValidationError (u "脚本没有已完成的关键帧")) /\
  video_segments (db (Scenario.world_of stuck_db)) = [stuck_video_segment] /\
  video_segments
    (db (snd (VideoService.generate_videos (Scenario.scripted [] 0) 1 (u "veo3.1-fast")
                (u "16:9") 6 (Scenario.world_of stuck_db)))) = [].
Proof. vm_compute. repeat split; reflexivity. Qed.

(** C6, as amended: both failures are [ValidationError]s.  A video
    generation request for a script without completed keyframes raises
    [ValidationError], and so does a request for a script that has
    completed body keyframes but no completed keyframe under the id
    [<first body id>_first_frame]: the error names the missing id, and it
    is not a [NotFoundError]. *)
Theorem C6_missing_opening_frame_is_validation_error
    (E : env) (script_id : Z) (model aspect_ratio : str) (duration : Q) (w : world)
    (script : Script.t) :
  script_by_id script_id (db w) = Some script ->
  (VideoService.completed_keyframes (db w) script_id = [] ->
   fst (VideoService.generate_videos E script_id model aspect_ratio duration w)
   = Raise (ValidationError (u "脚本没有已完成的关键帧"))) /\
  (forall first_body bodies,
     List.filter VideoService.is_normal
       (VideoService.completed_keyframes (db w) script_id) = first_body :: bodies ->
     (forall k, k ∈ VideoService.completed_keyframes (db w) script_id ->
        Keyframe.segment_id k <> Keyframe.segment_id first_body ++ u "_first_frame") ->
     fst (VideoService.generate_videos E script_id model aspect_ratio duration w)
     = Raise (ValidationError (u "缺少首帧关键帧: " ++ Keyframe.segment_id first_body
                               ++ u "_first_frame"))).
Proof.
  intros Hscript. split.
  - intros Hnone.
    now rewrite (generate_videos_no_completed E script_id model aspect_ratio duration
                   w script Hscript Hnone).
  - intros first_body bodies Hnormal Hmissing.
    now rewrite (generate_videos_missing_first_frame E script_id model aspect_ratio
                   duration w script first_body bodies Hscript Hnormal Hmissing).
Qed.

(** Script 1 with one completed body keyframe and no opening frame. *)
Definition body_keyframe (id : Z) (segment_id : str) : Keyframe.t :=
  {| Keyframe.id := id; Keyframe.script_id := 1; Keyframe.segment_id := segment_id;
     Keyframe.image_url := Some (u "https://oss/keyframe_" ++ Py.str_of_Z id ++ u ".jpg");
     Keyframe.prompt := Some (u "scene " ++ segment_id);
     Keyframe.status := KeyframeStatus.COMPLETED; Keyframe.error_message := None;
     Keyframe.created_at := 0; Keyframe.updated_at := Some 0%Z |}.

Definition db_of_keyframes (ks : list Keyframe.t) : database :=
  {| scripts := [{| Script.id := 1; Script.content := Some Scenario.script_text |}];
     keyframes := ks;
     video_segments := [];
     next_keyframe_id := 1 + Z.of_nat (length ks); next_video_segment_id := 1 |}.

Definition no_opening_frame : database := db_of_keyframes [body_keyframe 1 (u "segment_0")].

Lemma C6_missing_opening_frame_witness :
  fst (VideoService.generate_videos (Scenario.scripted [] 0) 1 (u "veo3.1-fast")
         (u "16:9") 6 (Scenario.world_of no_opening_frame))
  = Raise (ValidationError (u "缺少首帧关键帧: segment_0_first_frame")).
Proof.
  destruct (C6_missing_opening_frame_is_validation_error
              (Scenario.scripted [] 0) 1 (u "veo3.1-fast") (u "16:9") 6
              (Scenario.world_of no_opening_frame)
              {| Script.id := 1; Script.content := Some Scenario.script_text |})
    as [_ Hmissing]; [reflexivity|].
  apply (Hmissing (body_keyframe 1 (u "segment_0")) []); [reflexivity|].
  intros k Hk. vm_compute in Hk. apply list_elem_of_singleton in Hk. subst k.
  vm_compute. discriminate.
Defined.

(** C6, as stated, fails: with a completed body keyframe and no opening
    frame the request raises [ValidationError], which is no
    [NotFoundError]. *)
Lemma C6_missing_opening_frame_not_NotFoundError :
  fst (VideoService.generate_videos (Scenario.scripted [] 0) 1 (u "veo3.1-fast")
         (u "16:9") 6 (Scenario.world_of no_opening_frame))
    = Raise (ValidationError (u "缺少首帧关键帧: segment_0_first_frame")) /\
  (forall resource,
     fst (VideoService.generate_videos (Scenario.scripted [] 0) 1 (u "veo3.1-fast")
            (u "16:9") 6 (Scenario.world_of no_opening_frame))
     <> Raise (NotFoundError resource)).
Proof. vm_compute. split; [reflexivity|discriminate]. Qed.

(** *** The chain of video segments *)




Lemma filter_same_script_video sid (l : list VideoSegment.t) :
  Forall (fun v => VideoSegment.script_id v = sid) l ->
  List.filter (fun v => (VideoSegment.script_id v =? sid)%Z) l = l.
Proof.
  induction 1 as [|v l Hv _ IH]; simpl; [reflexivity|].
  now rewrite Hv, Z.eqb_refl, IH.
Qed.



(** *** The order of the chain *)


















End VideoFacts.

(** ** The vendor call of a video segment *)

Module DispatchFacts.
Import Runtime Effects JobFacts.

Opaque VideoService.sora_poll VideoService.veo_poll.

(** C10.  For a model whose name starts with [sora] the outcome of the call
    does not depend on the first frame, and, the API key being configured,
    the request sent carries the last frame alone, as [url]; for a model
    whose name starts with [veo] (and not with [sora]) the request carries
    the first frame as [firstFrameUrl] and the last frame as [lastFrameUrl];
    for a model with neither prefix nothing is sent, the call raises, and the
    job leaves the video segment in the [FAILED] state with the text of the
    error. *)
Theorem C10_model_prefix_selects_frames (E : env) :
  (forall model prompt first_frame_url first_frame_url' last_frame_url aspect_ratio
          duration,
     Py.startswith model (u "sora") = true ->
     VideoService._call_video_generation_api E (Some model) prompt first_frame_url
       last_frame_url aspect_ratio duration
     = VideoService._call_video_generation_api E (Some model) prompt first_frame_url'
         last_frame_url aspect_ratio duration) /\
  (forall model prompt first_frame_url last_frame_url aspect_ratio duration w,
     Py.truthy (video_api_key E) = true ->
     Py.startswith model (u "sora") = true ->
     exists evs,
       log (snd (VideoService._call_video_generation_api E (Some model) prompt
                   first_frame_url last_frame_url aspect_ratio duration w))
       = log w
         ++ EvPost (video_base_url E ++ u "/v1/video/sora-video") []
              (JObj ([(u "model", JStr model);
                      (u "prompt", VideoService.json_of_option prompt);
                      (u "aspectRatio", VideoService.json_of_option aspect_ratio);
                      (u "duration", JInt (VideoService.int_of_float duration));
                      (u "size", JStr (u "small"));
                      (u "shutProgress", JBool true);
                      (u "webHook", JStr (u "-1"))]
                     ++ match last_frame_url with
                        | Some (c :: url) => [(u "url", JStr (c :: url))]
                        | _ => []
                        end))
         :: evs) /\
  (forall model prompt first_frame_url last_frame_url aspect_ratio duration w,
     Py.truthy (video_api_key E) = true ->
     Py.startswith model (u "sora") = false ->
     Py.startswith model (u "veo") = true ->
     exists evs,
       log (snd (VideoService._call_video_generation_api E (Some model) prompt
                   first_frame_url last_frame_url aspect_ratio duration w))
       = log w
         ++ EvPost (video_base_url E ++ u "/v1/video/veo") []
              (JObj ([(u "model", JStr model);
                      (u "prompt", VideoService.json_of_option prompt);
                      (u "aspectRatio", VideoService.json_of_option aspect_ratio);
                      (u "shutProgress", JBool true);
                      (u "webHook", JStr (u "-1"))]
                     ++ match first_frame_url with
                        | Some (c :: url) => [(u "firstFrameUrl", JStr (c :: url))]
                        | _ => []
                        end
                     ++ match last_frame_url with
                        | Some (c :: url) => [(u "lastFrameUrl", JStr (c :: url))]
                        | _ => []
                        end))
         :: evs) /\
  (forall video_segment_id w v model,
     video_segment_by_id video_segment_id (db w) = Some v ->
     VideoSegment.model v = Some model ->
     Py.startswith model (u "sora") = false ->
     Py.startswith model (u "veo") = false ->
     exists w' v',
       VideoService._generate_single_video_with_session E video_segment_id w
         = (Ok tt, w') /\
       video_segment_by_id video_segment_id (db w') = Some v' /\
       VideoSegment.status v' = VideoStatus.FAILED /\
       VideoSegment.error_message v'
         = Some (if Py.truthy (video_api_key E) then u "不支持的模型: " ++ model
                 else u "GRSAI API密钥未配置") /\
       log w' = log w ++ [EvDbNow]).
Proof.
  split; [|split; [|split]].
  - intros model prompt f f' l ar dur Hsora.
    unfold VideoService._call_video_generation_api. now rewrite Hsora.
  - intros model prompt f l ar dur w Hkey Hsora.
    unfold VideoService._call_video_generation_api. rewrite Hkey, Hsora.
    cbn [negb]. unfold VideoService._call_sora_api.
    replace (match l with Some (c :: url) => [(u "url", JStr (c :: url))] | _ => [] end)
      with (if Py.truthy l then [(u "url", JStr (Py.or_empty l))] else [])
      by (destruct l as [[|c url]|]; reflexivity).
    apply (post_then E 5 60). intros result. repeat calls_step.
  - intros model prompt f l ar dur w Hkey Hsora Hveo.
    unfold VideoService._call_video_generation_api. rewrite Hkey, Hsora, Hveo.
    cbn [negb]. unfold VideoService._call_veo_api.
    replace (match f with
             | Some (c :: url) => [(u "firstFrameUrl", JStr (c :: url))] | _ => [] end)
      with (if Py.truthy f then [(u "firstFrameUrl", JStr (Py.or_empty f))] else [])
      by (destruct f as [[|c url]|]; reflexivity).
    replace (match l with
             | Some (c :: url) => [(u "lastFrameUrl", JStr (c :: url))] | _ => [] end)
      with (if Py.truthy l then [(u "lastFrameUrl", JStr (Py.or_empty l))] else [])
      by (destruct l as [[|c url]|]; reflexivity).
    apply (post_then E 5 60). intros result. repeat calls_step.
  - intros vid w v model Hv Hmodel Hsora Hveo.
    destruct (PollingFacts.video_job_raise E vid w v
                (Exception (if Py.truthy (video_api_key E)
                            then u "不支持的模型: " ++ model
                            else u "GRSAI API密钥未配置")) w Hv)
      as (w' & v' & Hrun & Hv' & Hst & Herr & Hlog).
    + unfold VideoService._call_video_generation_api. rewrite Hmodel.
      destruct (Py.truthy (video_api_key E)); cbn [negb]; [|reflexivity].
      now rewrite Hsora, Hveo.
    + exists w', v'. repeat split; assumption.
Qed.

Transparent VideoService.sora_poll VideoService.veo_poll.

(** A run against a vendor that accepts the task and reports it finished at
    the first poll: the first frame appears in no request. *)
Example sora_call_sends_last_frame_only :
  VideoService._call_video_generation_api
    (Scenario.scripted
       [Scenario.accepted (u "t1"); Scenario.finished (u "https://vendor/v.mp4")] 0)
    (Some (u "sora-2")) (Some (u "p")) (Some (u "https://oss/first.jpg"))
    (Some (u "https://oss/last.jpg")) (Some (u "16:9")) 6
    (Scenario.world_of Scenario.empty_db)
  = (Ok (JStr (u "https://vendor/v.mp4")),
     {| db := Scenario.empty_db;
        log := [EvPost (u "https://api/v1/video/sora-video") []
                  (JObj [(u "model", JStr (u "sora-2")); (u "prompt", JStr (u "p"));
                         (u "aspectRatio", JStr (u "16:9")); (u "duration", JInt 6);
                         (u "size", JStr (u "small")); (u "shutProgress", JBool true);
                         (u "webHook", JStr (u "-1"));
                         (u "url", JStr (u "https://oss/last.jpg"))]);
                EvSleep 5;
                EvPost (u "https://api/v1/draw/result") []
                  (JObj [(u "id", JStr (u "t1"))])];
        tasks := [] |}).
Proof. vm_compute. reflexivity. Qed.

End DispatchFacts.

(** ** More on strings *)

Module StrFacts.

Lemma length_lstrip (s : str) : (length (Py.lstrip s) <= length s)%nat.
Proof.
  induction s as [|c s IH]; simpl; [lia|]. destruct (Py.isspace c); simpl; lia.
Qed.

(** A string that [lstrip] leaves as it is: the empty one, or one that does
    not start with white space. *)
Lemma lstrip_fixed (s : str) :
  Py.lstrip s = s <->
  match s with [] => True | c :: _ => Py.isspace c = false end.
Proof.
  destruct s as [|c s]; simpl; [tauto|].
  destruct (Py.isspace c) eqn:Hc; split; auto; try discriminate.
  intros H. pose proof (length_lstrip s) as Hl. rewrite H in Hl. simpl in Hl. lia.
Qed.

Lemma lstrip_lstrip (s : str) : Py.lstrip (Py.lstrip s) = Py.lstrip s.
Proof.
  induction s as [|c s IH]; simpl; [reflexivity|].
  destruct (Py.isspace c) eqn:Hc; [exact IH|]. simpl. now rewrite Hc.
Qed.

Lemma lstrip_snoc (l : str) (c : N) :
  Py.isspace c = false -> Py.lstrip (l ++ [c]) = Py.lstrip l ++ [c].
Proof.
  intros Hc. induction l as [|d l IH]; simpl; [now rewrite Hc|].
  destruct (Py.isspace d); [exact IH|reflexivity].
Qed.

Lemma rstrip_rstrip (s : str) : Py.rstrip (Py.rstrip s) = Py.rstrip s.
Proof. unfold Py.rstrip. now rewrite rev_involutive, lstrip_lstrip. Qed.

Lemma lstrip_rstrip (t : str) :
  Py.lstrip t = t -> Py.lstrip (Py.rstrip t) = Py.rstrip t.
Proof.
  intros Ht. apply lstrip_fixed in Ht. destruct t as [|c t]; [reflexivity|].
  unfold Py.rstrip. change (rev (c :: t)) with (rev t ++ [c]).
  rewrite (lstrip_snoc _ _ Ht), rev_app_distr. simpl. now rewrite Ht.
Qed.

(** [strip] is idempotent. *)
Lemma strip_strip (s : str) : Py.strip (Py.strip s) = Py.strip s.
Proof.
  unfold Py.strip. rewrite (lstrip_rstrip _ (lstrip_lstrip s)). apply rstrip_rstrip.
Qed.

Lemma str_of_uint_inj (d d' : Decimal.uint) :
  Py.str_of_uint d = Py.str_of_uint d' -> d = d'.
Proof.
  revert d'; induction d; intros d' H; destruct d'; simpl in H;
    try discriminate; try reflexivity;
    injection H as H; f_equal; auto.
Qed.

Lemma str_of_nat_inj (i j : nat) : Py.str_of_nat i = Py.str_of_nat j -> i = j.
Proof.
  unfold Py.str_of_nat, Py.str_of_N. intros H.
  apply str_of_uint_inj, DecimalN.Unsigned.to_uint_inj in H. lia.
Qed.

End StrFacts.

Module ReFacts.
Import Re.

(** [k'] is the cursor [n] characters after [k]. *)
Definition reach (n : nat) (k k' : cursor) : Prop :=
  pos k' = (pos k + n)%nat /\ rest k' = drop n (rest k) /\ (n <= length (rest k))%nat.

Lemma reach_refl k : reach 0 k k.
Proof. unfold reach. rewrite drop_0. repeat split; lia. Qed.

Lemma reach_trans n m k1 k2 k3 :
  reach n k1 k2 -> reach m k2 k3 -> reach (n + m) k1 k3.
Proof.
  intros (Hp1 & Hr1 & Hl1) (Hp2 & Hr2 & Hl2). unfold reach.
  rewrite Hr1 in Hr2, Hl2. rewrite length_drop in Hl2. rewrite drop_drop in Hr2.
  repeat split; [lia | exact Hr2 | lia].
Qed.

Lemma advance_reach k c k' : advance k = Some (c, k') -> reach 1 k k'.
Proof.
  unfold advance. destruct (rest k) as [|d r] eqn:Hr; [discriminate|].
  intros H. injection H as _ <-. unfold reach. simpl. rewrite Hr. simpl.
  rewrite drop_0. repeat split; lia.
Qed.

Lemma lit_reach s k k' : k' ∈ lit s k -> reach (length s) k k'.
Proof.
  revert k; induction s as [|c s IH]; intros k; simpl.
  - intros H. apply list_elem_of_singleton in H as ->. apply reach_refl.
  - destruct (advance k) as [[d k1]|] eqn:Ha; [|intros H; inversion H].
    destruct (c =? d); [|intros H; inversion H].
    intros H. apply IH in H. apply advance_reach in Ha.
    apply (reach_trans 1 (length s) k k1 k' Ha H).
Qed.

Lemma one_reach f k k' : k' ∈ one f k -> reach 1 k k'.
Proof.
  unfold one. destruct (advance k) as [[d k1]|] eqn:Ha; [|intros H; inversion H].
  destruct (f d); [|intros H; inversion H].
  intros H. apply list_elem_of_singleton in H as ->. now apply advance_reach in Ha.
Qed.

Lemma step_reach n c r p pv k' :
  reach n {| pos := S p; prev := Some c; rest := r |} k' ->
  reach (S n) {| pos := p; prev := pv; rest := c :: r |} k'.
Proof.
  intros (Hp & Hr & Hl). unfold reach in *. simpl in *. repeat split; [lia | exact Hr | lia].
Qed.

Lemma greedy_reach f p pv r k' :
  k' ∈ greedy f p pv r -> exists n, reach n {| pos := p; prev := pv; rest := r |} k'.
Proof.
  revert p pv; induction r as [|c r IH]; intros p pv; simpl.
  - intros H. apply list_elem_of_singleton in H as ->. exists 0%nat. apply reach_refl.
  - destruct (f c).
    + intros H. apply elem_of_app in H as [H|H].
      * apply IH in H as [n H]. exists (S n). now apply step_reach.
      * apply list_elem_of_singleton in H as ->. exists 0%nat. apply reach_refl.
    + intros H. apply list_elem_of_singleton in H as ->. exists 0%nat. apply reach_refl.
Qed.

Lemma lazy_reach f p pv r k' :
  k' ∈ lazy f p pv r -> exists n, reach n {| pos := p; prev := pv; rest := r |} k'.
Proof.
  revert p pv; induction r as [|c r IH]; intros p pv; simpl.
  - intros H. apply list_elem_of_singleton in H as ->. exists 0%nat. apply reach_refl.
  - intros H. apply elem_of_cons in H as [->|H]; [exists 0%nat; apply reach_refl|].
    destruct (f c); [|inversion H].
    apply IH in H as [n H]. exists (S n). now apply step_reach.
Qed.


(** A lower bound on the number of characters a match of [r] takes. *)
Fixpoint min_len (r : re) : nat :=
  match r with
  | Lit s => length s
  | One _ | OneOf _ | Plus _ | PlusLazy _ => 1
  | Seq r1 r2 => min_len r1 + min_len r2
  | Alt r1 r2 => Nat.min (min_len r1) (min_len r2)
  | Grp _ r1 => min_len r1
  | Star _ | Ahead _ | Bol | Eol | EndZ => 0
  end.

(** The numbers of the groups of [r]. *)
Fixpoint groups_of (r : re) : list nat :=
  match r with
  | Seq r1 r2 | Alt r1 r2 => groups_of r1 ++ groups_of r2
  | Grp n r1 => n :: groups_of r1
  | Ahead r1 => groups_of r1
  | _ => []
  end.

Section Run.

Variable is_decimal : N -> bool.
Variable fl : flags.

Lemma elem_of_flat_map {A B} (f : A -> list B) (l : list A) (y : B) :
  y ∈ flat_map f l <-> exists x, x ∈ l /\ y ∈ f x.
Proof.
  split.
  - intros H. apply list_elem_of_In, in_flat_map in H as (x & Hx & Hy).
    exists x. split; apply list_elem_of_In; assumption.
  - intros (x & Hx & Hy). apply list_elem_of_In, in_flat_map.
    exists x. split; apply list_elem_of_In; assumption.
Qed.

Lemma with_cur_reach st st' (ks : list cursor) n0 :
  (forall k', k' ∈ ks -> exists n, (n0 <= n)%nat /\ reach n (cur st) k') ->
  st' ∈ with_cur st <$> ks ->
  exists n, (n0 <= n)%nat /\ reach n (cur st) (cur st') /\ caps st' = caps st.
Proof.
  intros Hks H. apply list_elem_of_fmap in H as (k' & -> & Hk').
  destruct (Hks k' Hk') as (n & Hn & Hr). exists n. auto.
Qed.

Lemma plus_reach (mk : (N -> bool) -> nat -> option N -> str -> list cursor) f k k' :
  (forall p pv r k', k' ∈ mk f p pv r ->
     exists n, reach n {| pos := p; prev := pv; rest := r |} k') ->
  k' ∈ flat_map (fun k1 => mk f (pos k1) (prev k1) (rest k1)) (one f k) ->
  exists n, (1 <= n)%nat /\ reach n k k'.
Proof.
  intros Hmk H. apply elem_of_flat_map in H as (k1 & H1 & H2).
  apply one_reach in H1. apply Hmk in H2 as [n H2].
  exists (1 + n)%nat. split; [lia|]. eapply reach_trans; [exact H1|].
  destruct k1; exact H2.
Qed.

(** A match of [r] ends at least [min_len r] characters further, and adds
    to the spans recorded only spans of the groups of [r]. *)
Lemma run_reach (r : re) : forall st st',
  st' ∈ run is_decimal fl r st ->
  exists n, (min_len r <= n)%nat /\ reach n (cur st) (cur st') /\
    exists new, caps st' = new ++ caps st /\ Forall (fun c => fst c ∈ groups_of r) new.
Proof.
  assert (Hleaf : forall (st st' : mstate) (ks : list cursor) (n0 : nat),
            (forall k', k' ∈ ks -> exists n, (n0 <= n)%nat /\ reach n (cur st) k') ->
            st' ∈ with_cur st <$> ks ->
            exists n, (n0 <= n)%nat /\ reach n (cur st) (cur st') /\
              exists new : list (nat * (nat * nat)),
                caps st' = new ++ caps st /\ Forall (fun c => fst c ∈ @nil nat) new).
  { intros st st' ks n0 Hks H.
    destruct (with_cur_reach st st' ks n0 Hks H) as (n & Hn & Hr & Hc).
    exists n. split; [exact Hn|]. split; [exact Hr|]. exists [].
    split; [exact Hc|constructor]. }
  assert (Hzero : forall st : mstate,
            exists n, (0 <= n)%nat /\ reach n (cur st) (cur st) /\
              exists new : list (nat * (nat * nat)),
                caps st = new ++ caps st /\ Forall (fun c => fst c ∈ @nil nat) new).
  { intros st. exists 0%nat. split; [lia|]. split; [apply reach_refl|].
    exists []. split; [reflexivity|constructor]. }
  induction r as [s|c|cs|r1 IH1 r2 IH2|r1 IH1 r2 IH2|g r1 IH1|c|c|c|r1 IH1| | |];
    intros st st' H; simpl in H.
  - apply (Hleaf st st' (lit s (cur st)) (length s)); [|exact H].
    intros k' Hk'. exists (length s). split; [lia|]. now apply lit_reach.
  - apply (Hleaf st st' (one (cls_mem is_decimal fl c) (cur st)) 1%nat); [|exact H].
    intros k' Hk'. exists 1%nat. split; [lia|]. now apply one_reach in Hk'.
  - apply (Hleaf st st' (one (fun x => existsb (N.eqb x) cs) (cur st)) 1%nat); [|exact H].
    intros k' Hk'. exists 1%nat. split; [lia|]. now apply one_reach in Hk'.
  - apply elem_of_flat_map in H as (st1 & H1 & H2).
    apply IH1 in H1 as (n1 & Hn1 & Hr1 & new1 & Hc1 & Hg1).
    apply IH2 in H2 as (n2 & Hn2 & Hr2 & new2 & Hc2 & Hg2).
    exists (n1 + n2)%nat. simpl. split; [lia|]. split; [eapply reach_trans; eauto|].
    exists (new2 ++ new1). split; [rewrite Hc2, Hc1; now rewrite app_assoc|].
    apply Forall_app. split; (eapply Forall_impl; [eassumption|]); simpl; intros;
      apply elem_of_app; auto.
  - apply elem_of_app in H as [H|H].
    + apply IH1 in H as (n & Hn & Hr & new & Hc & Hg). exists n. simpl.
      split; [lia|]. split; [exact Hr|]. exists new. split; [exact Hc|].
      eapply Forall_impl; [exact Hg|]. simpl; intros; apply elem_of_app; auto.
    + apply IH2 in H as (n & Hn & Hr & new & Hc & Hg). exists n. simpl.
      split; [lia|]. split; [exact Hr|]. exists new. split; [exact Hc|].
      eapply Forall_impl; [exact Hg|]. simpl; intros; apply elem_of_app; auto.
  - apply list_elem_of_fmap in H as (st1 & -> & H1).
    apply IH1 in H1 as (n & Hn & Hr & new & Hc & Hg). exists n. simpl.
    split; [exact Hn|]. split; [exact Hr|].
    exists ((g, (pos (cur st), pos (cur st1))) :: new). split; [now rewrite Hc|].
    constructor; [simpl; left|].
    eapply Forall_impl; [exact Hg|]. simpl; intros; now right.
  - apply (Hleaf st st' _ 0%nat) in H; [exact H|].
    intros k' Hk'. apply greedy_reach in Hk' as [n Hk']. exists n. split; [lia|].
    destruct (cur st); exact Hk'.
  - apply (Hleaf st st' _ 1%nat) in H; [exact H|].
    intros k' Hk'. apply (plus_reach greedy) in Hk'; [exact Hk'|].
    intros; now apply (greedy_reach (cls_mem is_decimal fl c)).
  - apply (Hleaf st st' _ 1%nat) in H; [exact H|].
    intros k' Hk'. apply (plus_reach lazy) in Hk'; [exact Hk'|].
    intros; now apply (lazy_reach (cls_mem is_decimal fl c)).
  - destruct (run is_decimal fl r1 st) as [|st1 l] eqn:Hrun; [inversion H|].
    apply list_elem_of_singleton in H as ->. simpl.
    destruct (IH1 st st1) as (n & _ & _ & new & Hc & Hg); [rewrite Hrun; left|].
    exists 0%nat. split; [lia|]. split; [apply reach_refl|]. exists new. auto.
  - destruct (at_bol fl (cur st)); [|inversion H].
    apply list_elem_of_singleton in H as ->. apply Hzero.
  - destruct (at_eol fl (cur st)); [|inversion H].
    apply list_elem_of_singleton in H as ->. apply Hzero.
  - destruct (bool_decide _); [|inversion H].
    apply list_elem_of_singleton in H as ->. apply Hzero.
Qed.


(** Group [g] took part in the match and its text is not empty. *)
Definition set_in (g : nat) (st : mstate) : Prop :=
  exists a b,
    List.find (fun c => Nat.eqb (fst c) g) (caps st) = Some (g, (a, b)) /\
    (a < b)%nat /\ (b <= pos (cur st))%nat.

Definition mem (g : nat) (l : list nat) : bool := existsb (Nat.eqb g) l.

(** Groups that every match of [r] sets to a non-empty text. *)
Fixpoint sure (r : re) : list nat :=
  match r with
  | Seq r1 r2 => List.filter (fun g => negb (mem g (groups_of r2))) (sure r1) ++ sure r2
  | Alt r1 r2 => List.filter (fun g => mem g (sure r2)) (sure r1)
  | Grp n r1 =>
    if (0 <? min_len r1)%nat then n :: sure r1
    else List.filter (fun g => negb (Nat.eqb g n)) (sure r1)
  | _ => []
  end.

Lemma mem_elem g l : mem g l = true <-> g ∈ l.
Proof.
  unfold mem. rewrite existsb_exists. split.
  - intros (x & Hx & He). apply Nat.eqb_eq in He as <-. now apply list_elem_of_In.
  - intros H. exists g. split; [now apply list_elem_of_In|apply Nat.eqb_refl].
Qed.

Lemma find_app_fresh g (new old : list (nat * (nat * nat))) :
  Forall (fun c => fst c <> g) new ->
  List.find (fun c => Nat.eqb (fst c) g) (new ++ old)
  = List.find (fun c => Nat.eqb (fst c) g) old.
Proof.
  induction 1 as [|c new Hc _ IH]; simpl; [reflexivity|].
  apply Nat.eqb_neq in Hc. now rewrite Hc.
Qed.

Lemma elem_of_filter_list {A} (f : A -> bool) (l : list A) x :
  x ∈ List.filter f l <-> x ∈ l /\ f x = true.
Proof. rewrite !list_elem_of_In. apply List.filter_In. Qed.

Lemma run_sure (r : re) : forall st st' g,
  st' ∈ run is_decimal fl r st -> g ∈ sure r -> set_in g st'.
Proof.
  induction r as [s|c|cs|r1 IH1 r2 IH2|r1 IH1 r2 IH2|n r1 IH1|c|c|c|r1 IH1| | |];
    intros st st' g H Hg; simpl in Hg; try (now inversion Hg).
  - simpl in H. apply elem_of_flat_map in H as (st1 & H1 & H2).
    apply elem_of_app in Hg as [Hg|Hg]; [|now apply (IH2 st1)].
    apply elem_of_filter_list in Hg as [Hg Hfresh].
    destruct (IH1 st st1 g H1 Hg) as (a & b & Hfind & Hab & Hb).
    apply run_reach in H2 as (m & _ & (Hp & _) & new & Hc & Hnew).
    exists a, b. split; [|split; [exact Hab|lia]].
    rewrite Hc, find_app_fresh; [exact Hfind|].
    eapply Forall_impl; [exact Hnew|]. simpl. intros c Hc' Heq. rewrite Heq in Hc'.
    apply mem_elem in Hc'. rewrite Hc' in Hfresh. discriminate.
  - simpl in H. apply elem_of_filter_list in Hg as [Hg1 Hg2]. apply mem_elem in Hg2.
    apply elem_of_app in H as [H|H]; [now apply (IH1 st)|now apply (IH2 st)].
  - simpl in H. apply list_elem_of_fmap in H as (st1 & -> & H1).
    assert (Hother : g <> n -> g ∈ sure r1 ->
              set_in g {| cur := cur st1;
                          caps := (n, (pos (cur st), pos (cur st1))) :: caps st1 |}).
    { intros Hne Hg1. destruct (IH1 st st1 g H1 Hg1) as (a & b & Hfind & Hab & Hb).
      exists a, b. simpl. apply Nat.eqb_neq in Hne. rewrite Nat.eqb_sym, Hne. auto. }
    destruct (0 <? min_len r1)%nat eqn:Hmin.
    + apply Nat.ltb_lt in Hmin. destruct (decide (g = n)) as [->|Hne].
      * apply run_reach in H1 as (m & Hm & (Hp & _) & _).
        exists (pos (cur st)), (pos (cur st1)). simpl. rewrite Nat.eqb_refl.
        split; [reflexivity|]. split; lia.
      * apply elem_of_cons in Hg as [Hg|Hg]; [contradiction|]. now apply Hother.
    + apply elem_of_filter_list in Hg as [Hg Hne]. apply negb_true_iff, Nat.eqb_neq in Hne.
      now apply Hother.
Qed.

(** The match object of a matcher state reached from the cursor [k]. *)
Lemma match_at_inv r k m :
  match_at is_decimal fl r k = Some m ->
  exists st',
    st' ∈ run is_decimal fl r {| cur := k; caps := [] |} /\
    m = {| m_start := pos k; m_end := pos (cur st'); m_caps := caps st' |}.
Proof.
  unfold match_at. destruct (run _ _ _ _) as [|st' l]; [discriminate|].
  intros H. injection H as <-. exists st'. split; [left|reflexivity].
Qed.

(** A cursor of the subject [s]. *)
Definition on (s : str) (k : cursor) : Prop :=
  rest k = drop (pos k) s /\ (pos k <= length s)%nat.

Lemma search_from_inv r s0 : forall rem p pv m,
  rem = drop p s0 -> (p <= length s0)%nat ->
  search_from is_decimal fl r p pv rem = Some m ->
  exists k, on s0 k /\ match_at is_decimal fl r k = Some m.
Proof.
  induction rem as [|c rem IH]; intros p pv m Hrem Hp; simpl.
  - destruct (match_at _ _ _ _) as [m'|] eqn:Hm; [|discriminate].
    intros H. injection H as <-. eexists. split; [|exact Hm]. split; assumption.
  - destruct (match_at _ _ _ _) as [m'|] eqn:Hm.
    + intros H. injection H as <-. eexists. split; [|exact Hm]. split; assumption.
    + apply IH.
      * apply (f_equal (drop 1)) in Hrem. rewrite drop_drop in Hrem. simpl in Hrem.
        rewrite drop_0 in Hrem. rewrite Hrem. f_equal. lia.
      * apply (f_equal length) in Hrem. rewrite length_drop in Hrem. simpl in Hrem. lia.
Qed.

Lemma finditer_from_inv r s0 : forall rem skip p pv m,
  rem = drop p s0 -> (p <= length s0)%nat ->
  m ∈ finditer_from is_decimal fl r skip p pv rem ->
  exists k, on s0 k /\ match_at is_decimal fl r k = Some m.
Proof.
  induction rem as [|c rem IH]; intros skip p pv m Hrem Hp; simpl.
  - destruct skip; [|intros H; inversion H].
    destruct (match_at _ _ _ _) as [m'|] eqn:Hm; [|intros H; inversion H].
    intros H. apply list_elem_of_singleton in H as ->.
    eexists. split; [|exact Hm]. split; assumption.
  - assert (Hrem' : rem = drop (S p) s0).
    { apply (f_equal (drop 1)) in Hrem. rewrite drop_drop in Hrem. simpl in Hrem.
      rewrite drop_0 in Hrem. rewrite Hrem. f_equal. lia. }
    assert (Hp' : (S p <= length s0)%nat).
    { apply (f_equal length) in Hrem. rewrite length_drop in Hrem. simpl in Hrem. lia. }
    destruct skip; [|now apply IH].
    destruct (match_at _ _ _ _) as [m'|] eqn:Hm; [|now apply IH].
    intros H. apply elem_of_cons in H as [->|H]; [|now apply IH in H].
    eexists. split; [|exact Hm]. split; assumption.
Qed.

(** The text of a group that a match at a cursor of [s] sets to a non-empty
    span is a non-empty string. *)
Lemma group_truthy r s k st' g :
  on s k -> st' ∈ run is_decimal fl r {| cur := k; caps := [] |} -> g ∈ sure r ->
  Py.truthy
    (group s {| m_start := pos k; m_end := pos (cur st'); m_caps := caps st' |} g) = true.
Proof.
  intros [Hrest Hpos] Hrun Hg.
  destruct (run_sure r _ st' g Hrun Hg) as (a & b & Hfind & Hab & Hb).
  apply run_reach in Hrun as (n & _ & (Hp & _ & Hn) & _). simpl in Hp, Hn.
  rewrite Hrest, length_drop in Hn.
  unfold group. simpl. rewrite Hfind. unfold Py.slice.
  destruct (take (b - a) (drop a s)) as [|c t] eqn:Ht; [|reflexivity].
  apply (f_equal length) in Ht. rewrite length_take, length_drop in Ht. simpl in Ht. lia.
Qed.


Lemma run_alt r1 r2 st :
  run is_decimal fl (Alt r1 r2) st = run is_decimal fl r1 st ++ run is_decimal fl r2 st.
Proof. reflexivity. Qed.

(** A match of a pattern of three alternatives is a match of one of them. *)
Lemma match_at_alt3 r1 r2 r3 k m :
  match_at is_decimal fl (Alt r1 (Alt r2 r3)) k = Some m ->
  exists st',
    m = {| m_start := pos k; m_end := pos (cur st'); m_caps := caps st' |} /\
    (st' ∈ run is_decimal fl r1 {| cur := k; caps := [] |} \/
     st' ∈ run is_decimal fl r2 {| cur := k; caps := [] |} \/
     st' ∈ run is_decimal fl r3 {| cur := k; caps := [] |}).
Proof.
  intros Hm. apply match_at_inv in Hm as (st' & Hrun & ->).
  exists st'. split; [reflexivity|].
  rewrite !run_alt in Hrun. apply elem_of_app in Hrun as [H|H]; [auto|].
  apply elem_of_app in H as [H|H]; auto.
Qed.

End Run.

End ReFacts.

(** ** The segments of a script *)

Module SegmentFacts.
Import ScriptParser ScriptParserFacts ReFacts.

Section Segments.

Variable is_decimal : N -> bool.
Variable decimal_value : N -> N.

Ltac sure_group := apply mem_elem; vm_compute; reflexivity.

(** Every match of [time_pattern] sets both groups of one of its three
    forms to non-empty texts. *)
Lemma time_match_groups s k m :
  on s k -> Re.match_at is_decimal multiline time_pattern k = Some m ->
  Py.truthy (Re.group s m 1%nat) && Py.truthy (Re.group s m 2%nat)
  || Py.truthy (Re.group s m 3%nat) && Py.truthy (Re.group s m 4%nat)
  || Py.truthy (Re.group s m 5%nat) && Py.truthy (Re.group s m 6%nat) = true.
Proof.
  intros Hon Hm. unfold time_pattern in Hm.
  apply match_at_alt3 in Hm as (st' & -> & [H|[H|H]]).
  - rewrite (group_truthy _ _ _ s k st' 1%nat Hon H) by sure_group.
    rewrite (group_truthy _ _ _ s k st' 2%nat Hon H) by sure_group. reflexivity.
  - rewrite (group_truthy _ _ _ s k st' 3%nat Hon H) by sure_group.
    rewrite (group_truthy _ _ _ s k st' 4%nat Hon H) by sure_group.
    simpl. now rewrite orb_true_r.
  - rewrite (group_truthy _ _ _ s k st' 5%nat Hon H) by sure_group.
    rewrite (group_truthy _ _ _ s k st' 6%nat Hon H) by sure_group.
    simpl. now rewrite orb_true_r.
Qed.

Lemma time_matches_inv s m :
  m ∈ time_matches is_decimal s ->
  exists k, on s k /\ Re.match_at is_decimal multiline time_pattern k = Some m.
Proof.
  unfold time_matches, Re.finditer. apply finditer_from_inv; [now rewrite drop_0|lia].
Qed.

(** The loop of [parse_script] never meets its [continue]. *)
Lemma segment_of_match_Some c ms i m :
  m ∈ time_matches is_decimal c ->
  exists time_range content,
    segment_of_match is_decimal decimal_value c ms i m
    = Some {| segment_id := body_id i; time_range := time_range; content := content;
              is_first := Nat.eqb i 0; is_last := Nat.eqb i (length ms - 1);
              is_frame_0 := false |}.
Proof.
  intros Hm. apply time_matches_inv in Hm as (k & Hon & Hm).
  pose proof (time_match_groups c k m Hon Hm) as Hg.
  unfold segment_of_match.
  destruct (Py.truthy (Re.group c m 1) && Py.truthy (Re.group c m 2)); [eauto|].
  destruct (Py.truthy (Re.group c m 3) && Py.truthy (Re.group c m 4)); [eauto|].
  destruct (Py.truthy (Re.group c m 5) && Py.truthy (Re.group c m 6)); [eauto|].
  discriminate Hg.
Qed.


Lemma omap_imap_Some {A B} (f : nat -> A -> option B) (l : list A) :
  (forall i x, l !! i = Some x -> is_Some (f i x)) ->
  length (omap id (imap f l)) = length l /\
  forall i y, omap id (imap f l) !! i = Some y ->
              exists x, l !! i = Some x /\ f i x = Some y.
Proof.
  revert f; induction l as [|x l IH]; intros f Hf.
  - split; [reflexivity|]. intros i y H. destruct i; discriminate H.
  - rewrite imap_cons. destruct (Hf 0%nat x eq_refl) as [y0 Hy0].
    destruct (IH (f ∘ S)) as [Hlen Hidx].
    { intros i x' Hx'. apply (Hf (S i)). exact Hx'. }
    cbn [omap list_omap]. rewrite Hy0. cbn [id]. split.
    + cbn [length]. f_equal. exact Hlen.
    + intros [|i] y H.
      * injection H as <-. exists x. auto.
      * apply (Hidx i y H).
Qed.

(** The segment [parse_script] puts first when the script has an opening
    frame. *)
Definition opening (text : str) : ScriptSegment :=
  {| segment_id := u "frame_0"; time_range := u "0:00 - 0:00"; content := text;
     is_first := false; is_last := false; is_frame_0 := true |}.


Lemma parse_script_timestamps_nonempty (c : str) :
  Py.strip c <> [] -> time_matches is_decimal c <> [] ->
  parse_script is_decimal decimal_value c <> [].
Proof.
  intros Hstrip Hm. unfold parse_script.
  assert (Hne : c <> []) by (intros ->; apply Hstrip; reflexivity).
  rewrite (bool_decide_eq_false_2 _ Hne), (bool_decide_eq_false_2 _ Hstrip),
    (bool_decide_eq_false_2 _ Hm).
  cbn [orb].
  destruct (omap_imap_Some
              (segment_of_match is_decimal decimal_value c (time_matches is_decimal c))
              (time_matches is_decimal c)) as [Hlen _].
  { intros i m Hi. apply list_elem_of_lookup_2 in Hi.
    destruct (segment_of_match_Some c (time_matches is_decimal c) i m Hi)
      as (tr & ct & ->). eauto. }
  intros Hnil. apply app_eq_nil in Hnil as [_ Hnil]. rewrite Hnil in Hlen.
  destruct (time_matches is_decimal c); [contradiction|discriminate Hlen].
Qed.

Lemma parse_script_nonblank (c : str) :
  Py.strip c <> [] -> parse_script is_decimal decimal_value c <> [].
Proof.
  intros Hstrip. destruct (decide (time_matches is_decimal c = [])) as [Hm|Hm].
  - unfold parse_script.
    assert (Hne : c <> []) by (intros ->; apply Hstrip; reflexivity).
    rewrite (bool_decide_eq_false_2 _ Hne), (bool_decide_eq_false_2 _ Hstrip),
      (bool_decide_eq_true_2 _ Hm).
    cbn [orb].
    destruct (Py.truthy (frame_0_content_of is_decimal c)); discriminate.
  - now apply parse_script_timestamps_nonempty.
Qed.

Lemma parse_script_of_blank (c : str) :
  Py.strip c = [] -> parse_script is_decimal decimal_value c = [].
Proof.
  intros Hblank. unfold parse_script.
  rewrite (bool_decide_eq_true_2 _ Hblank), orb_true_r. reflexivity.
Qed.

(** The parser returns no segment exactly for a blank script. *)
Theorem parse_script_empty_iff_blank (c : str) :
  parse_script is_decimal decimal_value c = [] <-> Py.strip c = [].
Proof.
  split; [|apply parse_script_of_blank].
  intros Hnil. destruct (decide (Py.strip c = [])) as [|Hstrip]; [assumption|].
  now apply parse_script_nonblank in Hstrip.
Qed.

(** When [frame_0_pattern] matches, one of its three groups holds a
    non-empty text: [group(1) or group(2) or group(3)] is a non-empty
    string, never [None]. *)
Theorem frame_0_match_has_text (c : str) (m : Re.rmatch) :
  Re.search is_decimal frame_0_flags frame_0_pattern c = Some m ->
  Py.truthy (py_or (Re.group c m 1%nat)
                   (py_or (Re.group c m 2%nat) (Re.group c m 3%nat))) = true.
Proof.
  intros Hm. unfold Re.search in Hm.
  apply search_from_inv with (s0 := c) in Hm as (k & Hon & Hm);
    [|now rewrite drop_0|lia].
  unfold frame_0_pattern in Hm.
  apply match_at_alt3 in Hm as (st' & -> & [H|[H|H]]); unfold py_or.
  - now rewrite !(group_truthy _ _ _ c k st' 1%nat Hon H) by sure_group.
  - pose proof (group_truthy _ _ _ c k st' 2%nat Hon H) as H2.
    destruct (Py.truthy (Re.group c _ 1%nat)) eqn:H1; [exact H1|].
    now rewrite !H2 by sure_group.
  - pose proof (group_truthy _ _ _ c k st' 3%nat Hon H) as H3.
    destruct (Py.truthy (Re.group c _ 1%nat)) eqn:H1; [exact H1|].
    destruct (Py.truthy (Re.group c _ 2%nat)) eqn:H2; [exact H2|].
    apply H3. sure_group.
Qed.

Lemma Forall_omap_imap {A B} (P : B -> Prop) (f : nat -> A -> option B) (l : list A) :
  (forall i x y, f i x = Some y -> P y) -> Forall P (omap id (imap f l)).
Proof.
  revert f; induction l as [|x l IH]; intros f Hf; [constructor|].
  rewrite imap_cons. cbn [omap list_omap].
  destruct (f 0%nat x) as [y|] eqn:Hy; cbn [id].
  - constructor; [eapply Hf; exact Hy|]. apply IH. intros i x' y'. apply (Hf (S i)).
  - apply IH. intros i x' y'. apply (Hf (S i)).
Qed.

Lemma segment_of_match_content c ms i m seg :
  segment_of_match is_decimal decimal_value c ms i m = Some seg ->
  Py.strip (content seg) = content seg /\ is_frame_0 seg = false.
Proof.
  unfold segment_of_match.
  repeat match goal with
         | |- context [if ?b then _ else _] => destruct b
         end; intros H; try discriminate; injection H as <-; simpl;
    (split; [apply StrFacts.strip_strip|reflexivity]).
Qed.

Lemma contents_stripped (c : str) :
  Forall (fun seg => Py.strip (content seg) = content seg)
         (parse_script is_decimal decimal_value c).
Proof.
  unfold parse_script. destruct (_ || _); [constructor|].
  assert (Hopening :
            Py.truthy (frame_0_content_of is_decimal c) = true ->
            Py.strip (Py.or_empty (frame_0_content_of is_decimal c))
              = Py.or_empty (frame_0_content_of is_decimal c)).
  { unfold frame_0_content_of.
    destruct (Re.search _ _ _ _) as [m|]; [|discriminate].
    set (text := Py.or_empty _).
    destruct (Py.strip text) as [|x t] eqn:Ht; [discriminate|]. intros _. simpl.
    rewrite <- Ht. apply StrFacts.strip_strip. }
  assert (Hbodies :
            Forall (fun seg => Py.strip (content seg) = content seg)
              (omap id (imap (segment_of_match is_decimal decimal_value c
                                (time_matches is_decimal c))
                             (time_matches is_decimal c)))).
  { apply Forall_omap_imap. intros i m seg Hseg.
    now apply segment_of_match_content in Hseg as [Hs _]. }
  destruct (Py.truthy (frame_0_content_of is_decimal c)) eqn:Hf;
    destruct (bool_decide (time_matches is_decimal c = [])).
  - repeat constructor; simpl; auto.
  - apply Forall_app. split; [|exact Hbodies]. repeat constructor; simpl; auto.
  - repeat constructor; simpl. apply StrFacts.strip_strip.
  - exact Hbodies.
Qed.

(** The content of every segment is stripped of surrounding white space,
    and the content of the opening frame is not empty. *)
Theorem parse_script_contents_stripped (c : str) :
  Forall (fun seg => Py.strip (content seg) = content seg /\
                     (is_frame_0 seg = true -> content seg <> []))
         (parse_script is_decimal decimal_value c).
Proof.
  unfold parse_script. destruct (_ || _); [constructor|].
  assert (Hopening :
            Py.truthy (frame_0_content_of is_decimal c) = true ->
            Py.strip (Py.or_empty (frame_0_content_of is_decimal c))
              = Py.or_empty (frame_0_content_of is_decimal c) /\
            Py.or_empty (frame_0_content_of is_decimal c) <> []).
  { unfold frame_0_content_of.
    destruct (Re.search _ _ _ _) as [m|]; [|discriminate].
    set (text := Py.or_empty _).
    destruct (Py.strip text) as [|x t] eqn:Ht; [discriminate|]. intros _. simpl.
    rewrite <- Ht. split; [apply StrFacts.strip_strip|]. rewrite Ht. discriminate. }
  assert (Hbodies :
            Forall (fun seg => Py.strip (content seg) = content seg /\
                               (is_frame_0 seg = true -> content seg <> []))
              (omap id (imap (segment_of_match is_decimal decimal_value c
                                (time_matches is_decimal c))
                             (time_matches is_decimal c)))).
  { apply Forall_omap_imap. intros i m seg Hseg.
    apply segment_of_match_content in Hseg as [Hs Hf]. split; [exact Hs|].
    rewrite Hf. discriminate. }
  destruct (Py.truthy (frame_0_content_of is_decimal c)) eqn:Hf;
    destruct (bool_decide (time_matches is_decimal c = [])).
  - destruct (Hopening eq_refl). repeat constructor; simpl; auto.
  - destruct (Hopening eq_refl). apply Forall_app. split; [|exact Hbodies].
    repeat constructor; simpl; auto.
  - repeat constructor; simpl; [apply StrFacts.strip_strip|discriminate].
  - exact Hbodies.
Qed.

#[local] Instance body_id_inj : Inj (=) (=) body_id.
Proof.
  intros i j H. unfold body_id in H. apply app_inv_head in H.
  now apply StrFacts.str_of_nat_inj.
Qed.

Lemma frame_0_not_body_id i : u "frame_0" <> body_id i.
Proof.
  unfold body_id. remember (Py.str_of_nat i) as t. intros H. vm_compute in H.
  discriminate H.
Qed.

Lemma StronglySorted_lt_NoDup (idx : list nat) : StronglySorted lt idx -> NoDup idx.
Proof.
  induction 1 as [|i idx _ IH Hi]; constructor; [|exact IH].
  intros Hin. rewrite Forall_forall in Hi. specialize (Hi i Hin). lia.
Qed.

(** The ids of the segments: [frame_0] if the script has an opening frame,
    then ids [segment_i] of increasing [i]. *)
Lemma parse_script_ids (c : str) :
  exists pre idx,
    segment_id <$> parse_script is_decimal decimal_value c = pre ++ (body_id <$> idx) /\
    (pre = [] \/ pre = [u "frame_0"]) /\ StronglySorted lt idx.
Proof.
  unfold parse_script. destruct (_ || _).
  { exists [], []. repeat split; auto; constructor. }
  destruct (bodies_of_matches is_decimal decimal_value c (time_matches is_decimal c)
              (time_matches is_decimal c) 0) as (idx & Hs & _ & Hid & _).
  simpl in Hid.
  destruct (Py.truthy (frame_0_content_of is_decimal c));
    destruct (bool_decide (time_matches is_decimal c = [])).
  - exists [u "frame_0"], []. repeat split; auto; constructor.
  - exists [u "frame_0"], idx. rewrite fmap_app. repeat split; auto.
    f_equal. exact Hid.
  - exists [], [0%nat]. repeat split; auto; repeat constructor.
  - exists [], idx. repeat split; auto.
Qed.

Lemma get_segment_by_id_snoc (l : list ScriptSegment) (x : ScriptSegment) (sid : str) :
  get_segment_by_id (l ++ [x]) sid
  = match get_segment_by_id l sid with
    | Some y => Some y
    | None => if Py.eqb (segment_id x) sid then Some x else None
    end.
Proof.
  induction l as [|y l IH]; simpl; [reflexivity|].
  destruct (Py.eqb (segment_id y) sid); [reflexivity|exact IH].
Qed.

Lemma get_segment_by_id_None (l : list ScriptSegment) (sid : str) :
  sid ∉ segment_id <$> l -> get_segment_by_id l sid = None.
Proof.
  induction l as [|y l IH]; simpl; [reflexivity|]. intros Hnot.
  rewrite not_elem_of_cons in Hnot. destruct Hnot as [Hne Hnot].
  destruct (Py.eqb (segment_id y) sid) eqn:He; [|now apply IH].
  apply PyFacts.eqb_eq in He. congruence.
Qed.

(** On segments of distinct ids the dictionary of the background unit and
    the search of [get_segment_by_id] find the same segment. *)
Lemma segment_map_of_get (segs : list ScriptSegment) :
  NoDup (segment_id <$> segs) ->
  forall sid, KeyframeService.segment_map_of segs !! sid = get_segment_by_id segs sid.
Proof.
  unfold KeyframeService.segment_map_of.
  induction segs as [|x segs IH] using rev_ind; intros Hnd sid; [reflexivity|].
  rewrite fmap_app in Hnd. apply NoDup_app in Hnd as (Hnd & Hfresh & _).
  rewrite foldl_app, get_segment_by_id_snoc. simpl.
  destruct (decide (segment_id x = sid)) as [<-|Hne].
  - rewrite lookup_insert_eq, get_segment_by_id_None.
    + unfold Py.eqb. now rewrite bool_decide_eq_true_2.
    + intros Hin. apply (Hfresh _ Hin). simpl. left.
  - rewrite lookup_insert_ne by exact Hne. rewrite (IH Hnd).
    destruct (get_segment_by_id segs sid); [reflexivity|].
    unfold Py.eqb. now rewrite bool_decide_eq_false_2.
Qed.

(** The segments of a script have distinct ids, and the dictionary
    [{seg.segment_id: seg}] built from them answers as [get_segment_by_id]
    does. *)
Theorem parse_script_ids_distinct (c : str) :
  NoDup (segment_id <$> parse_script is_decimal decimal_value c) /\
  forall sid,
    KeyframeService.segment_map_of (parse_script is_decimal decimal_value c) !! sid
    = get_segment_by_id (parse_script is_decimal decimal_value c) sid.
Proof.
  assert (Hnd : NoDup (segment_id <$> parse_script is_decimal decimal_value c)).
  { destruct (parse_script_ids c) as (pre & idx & -> & Hpre & Hs).
    apply NoDup_app. split; [|split].
    - destruct Hpre as [->| ->]; [constructor|apply NoDup_singleton].
    - intros x Hx Hin. apply list_elem_of_fmap in Hin as (i & -> & _).
      destruct Hpre as [->| ->]; [inversion Hx|].
      apply list_elem_of_singleton in Hx. symmetry in Hx.
      now apply (frame_0_not_body_id i).
    - apply NoDup_fmap_2; [apply _|]. now apply StronglySorted_lt_NoDup. }
  split; [exact Hnd|]. now apply segment_map_of_get.
Qed.

End Segments.


Lemma frame_0_match_has_text_witness :
  exists m,
    Re.search ascii_is_decimal frame_0_flags frame_0_pattern Scenario.script_text
      = Some m /\
    Py.truthy (py_or (Re.group Scenario.script_text m 1%nat)
                     (py_or (Re.group Scenario.script_text m 2%nat)
                            (Re.group Scenario.script_text m 3%nat))) = true.
Proof.
  eexists. split; [vm_compute; reflexivity|].
  apply (frame_0_match_has_text ascii_is_decimal). vm_compute. reflexivity.
Defined.

End SegmentFacts.

(** ** What the background units leave in the tables *)

Module RowFacts.
Import Runtime Effects JobFacts.

(** A video segment is settled: [COMPLETED] with a video, or [FAILED] with
    an error message. *)
Definition video_settled (v : VideoSegment.t) : Prop :=
  (VideoSegment.status v = VideoStatus.COMPLETED /\ is_Some (VideoSegment.video_url v)
   /\ VideoSegment.error_message v = None) \/
  (VideoSegment.status v = VideoStatus.FAILED /\ is_Some (VideoSegment.error_message v)).

(** From [w] to [w'] the rows of [video_segments] whose id is in [ids] were
    rewritten and are settled; nothing else of the database and no task
    changed. *)
Definition videos_settled (ids : list Z) (w w' : world) : Prop :=
  tasks w' = tasks w /\ scripts (db w') = scripts (db w) /\
  keyframes (db w') = keyframes (db w) /\
  next_keyframe_id (db w') = next_keyframe_id (db w) /\
  next_video_segment_id (db w') = next_video_segment_id (db w) /\
  exists g,
    video_segments (db w') = g <$> video_segments (db w) /\
    forall r, r ∈ video_segments (db w) ->
      VideoSegment.id (g r) = VideoSegment.id r /\
      (VideoSegment.id r ∉ ids -> g r = r) /\
      (VideoSegment.id r ∈ ids -> video_settled (g r)).


Lemma videos_settled_absent vid w w' :
  video_segment_by_id vid (db w) = None ->
  db w' = db w -> tasks w' = tasks w -> videos_settled [vid] w w'.
Proof.
  intros Hnone Hd Ht. unfold videos_settled. rewrite Hd. repeat split; auto.
  exists id. rewrite list_fmap_id. split; [reflexivity|].
  intros r Hr. repeat split; auto. intros Hin. apply list_elem_of_singleton in Hin.
  unfold video_segment_by_id in Hnone.
  pose proof (List.find_none _ _ Hnone r) as Hf. cbv beta in Hf.
  rewrite Hin, Z.eqb_refl in Hf. discriminate Hf. now apply list_elem_of_In.
Qed.


(** The UPDATE of one settled object of id [vid]. *)
Lemma videos_settled_flush vid o t w w' :
  VideoSegment.id o = vid -> video_settled o ->
  tasks w' = tasks w ->
  db w' = VideoService.with_video_segments (db w)
            (VideoService.flush_row [o] t <$> video_segments (db w))
            (next_video_segment_id (db w)) ->
  videos_settled [vid] w w'.
Proof.
  intros Ho Hset Ht Hd. unfold videos_settled. rewrite Hd. simpl.
  repeat split; auto.
  exists (VideoService.flush_row [o] t). split; [reflexivity|].
  intros r _. split; [apply flush_video_segment_id|].
  rewrite flush_video_segment_single, Ho. split.
  - intros Hnot. rewrite not_elem_of_cons in Hnot. destruct Hnot as [Hne _].
    apply not_eq_sym, Z.eqb_neq in Hne. now rewrite Hne.
  - intros Hin. apply list_elem_of_singleton in Hin. rewrite Hin, Z.eqb_refl.
    destruct (bool_decide (o = r)) eqn:Heq; [|exact Hset].
    apply bool_decide_eq_true in Heq. now rewrite <- Heq.
Qed.

(** A keyframe is settled: [COMPLETED] with an image, or [FAILED] with an
    error message. *)
Definition keyframe_settled (k : Keyframe.t) : Prop :=
  (Keyframe.status k = KeyframeStatus.COMPLETED /\ is_Some (Keyframe.image_url k)
   /\ Keyframe.error_message k = None) \/
  (Keyframe.status k = KeyframeStatus.FAILED /\ is_Some (Keyframe.error_message k)).

(** From [w] to [w'] the rows of [keyframes] whose id is in [ids] were
    rewritten and are settled; nothing else of the database and no task
    changed. *)
Definition keyframes_settled (ids : list Z) (w w' : world) : Prop :=
  tasks w' = tasks w /\ scripts (db w') = scripts (db w) /\
  video_segments (db w') = video_segments (db w) /\
  next_keyframe_id (db w') = next_keyframe_id (db w) /\
  next_video_segment_id (db w') = next_video_segment_id (db w) /\
  exists g,
    keyframes (db w') = g <$> keyframes (db w) /\
    forall r, r ∈ keyframes (db w) ->
      Keyframe.id (g r) = Keyframe.id r /\
      (Keyframe.id r ∉ ids -> g r = r) /\
      (Keyframe.id r ∈ ids -> keyframe_settled (g r)).

Lemma keyframes_settled_nil w w' :
  db w' = db w -> tasks w' = tasks w -> keyframes_settled [] w w'.
Proof.
  intros Hd Ht. unfold keyframes_settled. rewrite Hd. repeat split; auto.
  exists id. rewrite list_fmap_id. split; [reflexivity|].
  intros r _. repeat split; auto. intros H. inversion H.
Qed.

Lemma keyframes_settled_absent kid w w' :
  keyframe_by_id kid (db w) = None ->
  db w' = db w -> tasks w' = tasks w -> keyframes_settled [kid] w w'.
Proof.
  intros Hnone Hd Ht. unfold keyframes_settled. rewrite Hd. repeat split; auto.
  exists id. rewrite list_fmap_id. split; [reflexivity|].
  intros r Hr. repeat split; auto. intros Hin. apply list_elem_of_singleton in Hin.
  unfold keyframe_by_id in Hnone.
  pose proof (List.find_none _ _ Hnone r) as Hf. cbv beta in Hf.
  rewrite Hin, Z.eqb_refl in Hf. discriminate Hf. now apply list_elem_of_In.
Qed.

Lemma keyframes_settled_trans kid ids w w1 w2 :
  keyframes_settled [kid] w w1 -> keyframes_settled ids w1 w2 ->
  keyframes_settled (kid :: ids) w w2.
Proof.
  intros (Ht1 & Hs1 & Hk1 & Hn1 & Hv1 & g1 & Hg1 & H1)
         (Ht2 & Hs2 & Hk2 & Hn2 & Hv2 & g2 & Hg2 & H2).
  unfold keyframes_settled. repeat split; try congruence.
  exists (g2 ∘ g1). split; [rewrite Hg2, Hg1; now rewrite <- list_fmap_compose|].
  intros r Hr. destruct (H1 r Hr) as (Hid1 & Hfix1 & Hset1).
  assert (Hr1 : g1 r ∈ keyframes (db w1))
    by (rewrite Hg1; now apply list_elem_of_fmap_2).
  destruct (H2 (g1 r) Hr1) as (Hid2 & Hfix2 & Hset2). rewrite Hid1 in Hfix2, Hset2.
  simpl. split; [congruence|]. split.
  - intros Hnot. rewrite not_elem_of_cons in Hnot. destruct Hnot as [Hne Hnot].
    rewrite Hfix2 by exact Hnot. apply Hfix1. intros Hin.
    apply list_elem_of_singleton in Hin. contradiction.
  - intros Hin. destruct (decide (Keyframe.id r ∈ ids)) as [Hi|Hi]; [auto|].
    rewrite Hfix2 by exact Hi. apply Hset1.
    apply elem_of_cons in Hin as [->|Hin]; [left|contradiction].
Qed.

(** The UPDATE of one settled object of id [kid]. *)
Lemma keyframes_settled_flush kid o t w w' :
  Keyframe.id o = kid -> keyframe_settled o ->
  tasks w' = tasks w ->
  db w' = KeyframeService.with_keyframes (db w)
            (KeyframeService.flush_row [o] t <$> keyframes (db w))
            (next_keyframe_id (db w)) ->
  keyframes_settled [kid] w w'.
Proof.
  intros Ho Hset Ht Hd. unfold keyframes_settled. rewrite Hd. simpl.
  repeat split; auto.
  exists (KeyframeService.flush_row [o] t). split; [reflexivity|].
  intros r _. split; [apply flush_keyframe_id|].
  rewrite flush_keyframe_single, Ho. split.
  - intros Hnot. rewrite not_elem_of_cons in Hnot. destruct Hnot as [Hne _].
    apply not_eq_sym, Z.eqb_neq in Hne. now rewrite Hne.
  - intros Hin. apply list_elem_of_singleton in Hin. rewrite Hin, Z.eqb_refl.
    destruct (bool_decide (o = r)) eqn:Heq; [|exact Hset].
    apply bool_decide_eq_true in Heq. now rewrite <- Heq.
Qed.

(** When the world before [w] differs from [w] in its log only. *)
Lemma keyframes_settled_from ids w0 w w' :
  db w = db w0 -> tasks w = tasks w0 ->
  keyframes_settled ids w w' -> keyframes_settled ids w0 w'.
Proof.
  intros Hd Ht (Ht2 & Hs2 & Hk2 & Hn2 & Hv2 & g & Hg & H).
  unfold keyframes_settled. rewrite <- Hd. repeat split; try congruence.
  exists g. auto.
Qed.

Section WithEnv.

Variable E : env.

Lemma video_try_settles vid w :
  raises_unchanged w (fun _ w1 => videos_settled [vid] w w1)
    (VideoService.generate_single_video_try E vid w).
Proof.
  unfold VideoService.generate_single_video_try.
  unfold bind at 1, VideoService.select_video_segment at 1, bind at 1, get_db, ret.
  cbn [fst snd].
  destruct (List.find _ (video_segments (db w))) as [v|] eqn:Hv.
  2:{ simpl. now apply videos_settled_absent. }
  eapply raises_unchanged_bind; [apply calls_video_generation_api|reflexivity..|].
  intros url w1 Hd1 Ht1.
  eapply raises_unchanged_bind; [apply (calls_local_now E 0 0)|assumption..|].
  intros stamp w2 Hd2 Ht2.
  eapply raises_unchanged_bind; [apply (calls_as_url 0 0)|assumption..|].
  intros url' w3 Hd3 Ht3.
  eapply raises_unchanged_bind; [apply (calls_upload E 0 0)|assumption..|].
  intros up w4 Hd4 Ht4.
  unfold VideoService.commit_video_segments, bind, get_db, put_db, read_db_now, ret.
  cbn [fst snd db log tasks raises_unchanged].
  eapply videos_settled_flush; [| |exact Ht4|rewrite Hd4; reflexivity].
  - simpl. eapply find_id. exact Hv.
  - left. simpl. eauto.
Qed.

Lemma video_except_settles vid e w :
  exists w',
    VideoService.generate_single_video_except E vid e w = (Ok tt, w') /\
    videos_settled [vid] w w'.
Proof.
  unfold VideoService.generate_single_video_except, try_except, bind,
    VideoService.select_video_segment, VideoService.commit_video_segments, bind,
    get_db, put_db, read_db_now, ret.
  cbn [fst snd db log tasks].
  destruct (List.find _ (video_segments (db w))) as [v|] eqn:Hv.
  - cbn [fst snd db log tasks]. eexists. split; [reflexivity|].
    eapply videos_settled_flush; [| |reflexivity|reflexivity].
    + simpl. eapply find_id. exact Hv.
    + right. simpl. eauto.
  - eexists. split; [reflexivity|]. now apply videos_settled_absent.
Qed.

(** The job of a video segment returns, whatever the outside world does,
    and settles the rows of its id. *)
Lemma video_job_settles vid w :
  exists w',
    VideoService._generate_single_video_with_session E vid w = (Ok tt, w') /\
    videos_settled [vid] w w'.
Proof.
  pose proof (video_try_settles vid w) as Hout.
  unfold VideoService._generate_single_video_with_session, try_except.
  destruct (VideoService.generate_single_video_try E vid w) as [[[]|e] w1] eqn:Htry;
    simpl in Hout.
  - exists w1. auto.
  - destruct Hout as [Hd Ht].
    destruct (video_except_settles vid e w1) as (w2 & Hrun & Hset).
    exists w2. split; [exact Hrun|].
    destruct Hset as (Ht2 & Hs2 & Hk2 & Hn2 & Hv2 & g & Hg & H).
    unfold videos_settled. rewrite <- Hd. repeat split; try congruence.
    exists g. auto.
Qed.



(** *** Keyframes *)

Lemma keyframe_try_settles kid sm model ar q ref w :
  raises_unchanged w (fun _ w1 => keyframes_settled [kid] w w1)
    (KeyframeService.generate_single_keyframe_try E kid sm model ar q ref w).
Proof.
  unfold KeyframeService.generate_single_keyframe_try.
  unfold bind at 1, KeyframeService.select_keyframe at 1, bind at 1, get_db, ret.
  cbn [fst snd].
  destruct (List.find _ (keyframes (db w))) as [k|] eqn:Hk.
  2:{ simpl. now apply keyframes_settled_absent. }
  eapply raises_unchanged_bind; [apply calls_generate_image|reflexivity..|].
  intros result w1 Hd1 Ht1.
  eapply raises_unchanged_bind; [apply (calls_lift 0 0)|assumption..|].
  intros image_url w2 Hd2 Ht2.
  destruct (negb (truth image_url)); [now apply raises_unchanged_raise|].
  eapply raises_unchanged_bind; [apply (calls_as_url 0 0)|assumption..|].
  intros url w3 Hd3 Ht3.
  eapply raises_unchanged_bind; [apply (calls_http_get E 0 0)|assumption..|].
  intros _ w4 Hd4 Ht4.
  eapply raises_unchanged_bind; [apply (calls_upload E 0 0)|assumption..|].
  intros up w5 Hd5 Ht5.
  unfold bind, KeyframeService.select_keyframe, KeyframeService.commit_keyframes,
    bind, get_db, put_db, read_db_now, ret.
  cbn [fst snd db log tasks]. rewrite Hd5, Hk.
  cbn [fst snd db log tasks raises_unchanged].
  eapply keyframes_settled_flush; [| |exact Ht5|rewrite Hd5; reflexivity].
  - simpl. eapply find_id. exact Hk.
  - left. simpl. eauto.
Qed.

Lemma keyframe_except_settles kid e w :
  exists w',
    KeyframeService.generate_single_keyframe_except E kid e w = (Ok None, w') /\
    keyframes_settled [kid] w w'.
Proof.
  unfold KeyframeService.generate_single_keyframe_except, try_except, bind,
    KeyframeService.select_keyframe, KeyframeService.commit_keyframes, bind,
    get_db, put_db, read_db_now, ret.
  cbn [fst snd db log tasks].
  destruct (List.find _ (keyframes (db w))) as [k|] eqn:Hk.
  - cbn [fst snd db log tasks]. eexists. split; [reflexivity|].
    eapply keyframes_settled_flush; [| |reflexivity|reflexivity].
    + simpl. eapply find_id. exact Hk.
    + right. simpl. eauto.
  - eexists. split; [reflexivity|]. now apply keyframes_settled_absent.
Qed.

(** The job of a keyframe returns, whatever the outside world does, and
    settles the rows of its id. *)
Lemma keyframe_job_settles kid sm model ar q ref w :
  exists r w',
    KeyframeService._generate_single_keyframe_image_with_session E kid sm model ar q ref w
      = (Ok r, w') /\
    keyframes_settled [kid] w w'.
Proof.
  pose proof (keyframe_try_settles kid sm model ar q ref w) as Hout.
  unfold KeyframeService._generate_single_keyframe_image_with_session, try_except.
  destruct (KeyframeService.generate_single_keyframe_try E kid sm model ar q ref w)
    as [[r|e] w1] eqn:Htry; simpl in Hout.
  - exists r, w1. auto.
  - destruct Hout as [Hd Ht].
    destruct (keyframe_except_settles kid e w1) as (w2 & Hrun & Hset).
    exists None, w2. split; [exact Hrun|].
    now apply (keyframes_settled_from [kid] w w1 w2).
Qed.

Lemma generate_keyframes_loop_settles ids sm model ar q : forall previous w,
  exists w',
    KeyframeService.generate_keyframes_loop E ids sm model ar q previous w = (Ok tt, w') /\
    keyframes_settled ids w w'.
Proof.
  induction ids as [|kid ids IH]; intros previous w.
  - exists w. split; [reflexivity|]. now apply keyframes_settled_nil.
  - destruct (keyframe_job_settles kid sm model ar q previous w) as (r & w1 & Hjob & Hset1).
    destruct (IH (if Py.truthy r then r else previous) w1) as (w2 & Hrun & Hset2).
    exists w2. split; [|eapply keyframes_settled_trans; eassumption].
    cbn [KeyframeService.generate_keyframes_loop]. unfold bind at 1.
    now rewrite Hjob.
Qed.

(** Whatever the vendors and the object storage do, the background unit of
    a keyframe generation request returns, and it leaves every keyframe it
    was given settled, [COMPLETED] with an image or [FAILED] with an error
    message; the other keyframes, the video segments, the scripts and the
    tasks are as before. *)
Theorem keyframes_background_settles_every_keyframe
    (keyframe_ids : list Z) (segments : list ScriptParser.ScriptSegment)
    (model aspect_ratio : str) (quality : option str) (w : world) :
  exists w',
    KeyframeService._generate_keyframes_background E keyframe_ids segments model
      aspect_ratio quality w = (Ok tt, w') /\
    keyframes_settled keyframe_ids w w'.
Proof.
  destruct (generate_keyframes_loop_settles keyframe_ids
              (KeyframeService.segment_map_of segments) model aspect_ratio quality None w)
    as (w' & Hrun & Hset).
  exists w'. split; [|exact Hset].
  unfold KeyframeService._generate_keyframes_background, try_except. now rewrite Hrun.
Qed.

End WithEnv.

End RowFacts.

(** ** Requests on one row *)

Module SingleFacts.
Import Runtime Effects JobFacts RowFacts.

(** A computation only adds to the log. *)
Definition grows {A} (m : M A) : Prop :=
  forall w, exists evs, log (snd (m w)) = log w ++ evs.

Lemma grows_calls {A} c n (m : M A) : calls c n m -> grows m.
Proof. intros H w. destruct (H w) as (evs & -> & _). exists evs. reflexivity. Qed.

Lemma grows_bind {A B} (m : M A) (k : A -> M B) :
  grows m -> (forall a, grows (k a)) -> grows (bind m k).
Proof.
  intros Hm Hk w. unfold bind. destruct (Hm w) as (evs1 & H1).
  destruct (m w) as [[a|e] w1]; simpl in H1.
  - destruct (Hk a w1) as (evs2 & H2). exists (evs1 ++ evs2).
    now rewrite H2, H1, app_assoc.
  - exists evs1. exact H1.
Qed.

Lemma grows_try_except {A} (m : M A) (h : exn -> M A) :
  grows m -> (forall e, grows (h e)) -> grows (try_except m h).
Proof.
  intros Hm Hh w. unfold try_except. destruct (Hm w) as (evs1 & H1).
  destruct (m w) as [[a|e] w1]; simpl in H1.
  - exists evs1. exact H1.
  - destruct (Hh e w1) as (evs2 & H2). exists (evs1 ++ evs2).
    now rewrite H2, H1, app_assoc.
Qed.

Lemma grows_ret {A} (a : A) : grows (ret a).
Proof. intros w. exists []. simpl. now rewrite app_nil_r. Qed.

Lemma grows_raise {A} e : grows (@raise A e).
Proof. intros w. exists []. simpl. now rewrite app_nil_r. Qed.

Lemma grows_select_keyframe kid : grows (KeyframeService.select_keyframe kid).
Proof. intros w. exists []. simpl. now rewrite app_nil_r. Qed.

Lemma grows_commit_keyframes E objs : grows (KeyframeService.commit_keyframes E objs).
Proof. intros w. exists [EvDbNow]. reflexivity. Qed.

Lemma grows_keyframe_except E kid e :
  grows (KeyframeService.generate_single_keyframe_except E kid e).
Proof.
  unfold KeyframeService.generate_single_keyframe_except.
  apply grows_bind; [|intros; apply grows_ret].
  apply grows_try_except; [|intros; apply grows_ret].
  apply grows_bind; [apply grows_select_keyframe|].
  intros [k|]; [apply grows_commit_keyframes|apply grows_ret].
Qed.

Section WithEnv.

Variable E : env.

(** *** [update_keyframe_prompt] *)

(** Updating the prompt of a keyframe that does not exist raises
    [NotFoundError] and changes nothing.  Otherwise the keyframe is stored
    with the new prompt, all its other columns but [updated_at] as they
    were, every other row untouched; and the new prompt, when it is not
    empty, is the prompt the next generation of the keyframe sends,
    whatever the segments it is given. *)
Theorem update_keyframe_prompt_stores_prompt (keyframe_id : Z) (prompt : str) (w : world) :
  match keyframe_by_id keyframe_id (db w) with
  | None =>
    KeyframeService.update_keyframe_prompt E keyframe_id prompt w
    = (Raise (NotFoundError (u "关键帧不存在: " ++ Py.str_of_Z keyframe_id)), w)
  | Some k =>
    exists w' k',
      KeyframeService.update_keyframe_prompt E keyframe_id prompt w
        = (Ok (KeyframeService.set_prompt k prompt), w') /\
      keyframe_by_id keyframe_id (db w') = Some k' /\
      Keyframe.prompt k' = Some prompt /\
      Keyframe.status k' = Keyframe.status k /\
      Keyframe.image_url k' = Keyframe.image_url k /\
      Keyframe.error_message k' = Keyframe.error_message k /\
      Keyframe.segment_id k' = Keyframe.segment_id k /\
      (prompt <> [] -> forall segment_map, KeyframeService.prompt_of k' segment_map = prompt) /\
      tasks w' = tasks w /\
      video_segments (db w') = video_segments (db w) /\
      exists g,
        keyframes (db w') = g <$> keyframes (db w) /\
        forall r, Keyframe.id (g r) = Keyframe.id r /\
                  (Keyframe.id r <> keyframe_id -> g r = r)
  end.
Proof.
  unfold keyframe_by_id.
  destruct (List.find _ (keyframes (db w))) as [k|] eqn:Hk;
    unfold KeyframeService.update_keyframe_prompt;
    unfold bind at 1, KeyframeService.select_keyframe at 1, bind at 1, get_db, ret;
    cbn [fst snd]; rewrite Hk; [|reflexivity].
  unfold bind, KeyframeService.commit_keyframes, bind, get_db, put_db, read_db_now, ret.
  cbn [fst snd db log tasks].
  eexists _, _. split; [reflexivity|].
  cbn [fst snd db log tasks keyframes video_segments KeyframeService.with_keyframes].
  split.
  { apply find_flush_keyframe; [exact Hk|]. simpl. eapply find_id. exact Hk. }
  assert (Hfields : forall k' : Keyframe.t,
            k' = (if bool_decide (KeyframeService.set_prompt k prompt = k) then k
                  else KeyframeService.set_updated_at
                         (KeyframeService.set_prompt k prompt)
                         (db_now E (log w))) ->
            Keyframe.prompt k' = Some prompt /\
            Keyframe.status k' = Keyframe.status k /\
            Keyframe.image_url k' = Keyframe.image_url k /\
            Keyframe.error_message k' = Keyframe.error_message k /\
            Keyframe.segment_id k' = Keyframe.segment_id k).
  { intros k' ->. destruct (bool_decide _) eqn:Hd; [|simpl; auto].
    apply bool_decide_eq_true in Hd. rewrite <- Hd at 1. simpl. auto. }
  destruct (Hfields _ eq_refl) as (Hp & Hst & Hi & He & Hs).
  repeat (split; [assumption|]).
  split.
  { intros Hne segment_map. unfold KeyframeService.prompt_of. rewrite Hp.
    destruct prompt; [contradiction|reflexivity]. }
  split; [reflexivity|]. split; [reflexivity|].
  exists (KeyframeService.flush_row [KeyframeService.set_prompt k prompt]
            (db_now E (log w))).
  split; [reflexivity|]. intros r. split; [apply flush_keyframe_id|].
  intros Hne. rewrite flush_keyframe_single. simpl.
  rewrite (find_id Keyframe.id _ _ _ Hk).
  apply not_eq_sym, Z.eqb_neq in Hne. now rewrite Hne.
Qed.

(** *** [regenerate_keyframe] and its background unit *)

(** [generate_image] after its call is recorded. *)
Definition generate_image_dispatch (prompt model aspect_ratio : str)
    (quality reference : option str) : M json :=
  if Py.eqb model (u "jimeng_t2i_v40") then
    ImageGeneration.generate_image_jimeng E prompt aspect_ratio quality reference
  else if Py.eqb model (u "nano-banana-fast") || Py.eqb model (u "nano-banana") then
    ImageGeneration.generate_image_nano_banana E prompt model aspect_ratio quality reference
  else if Py.eqb model (u "sora-image") then
    ImageGeneration.generate_image_sora E prompt aspect_ratio quality
  else
    raise (Exception (u "不支持的模型: " ++ model)).

Lemma generate_image_unfold prompt model aspect_ratio quality reference :
  ImageGeneration.generate_image E prompt model aspect_ratio quality reference
  = (emit (EvGenerateImage prompt model aspect_ratio quality reference) ;;
     generate_image_dispatch prompt model aspect_ratio quality reference).
Proof. reflexivity. Qed.

Opaque ImageGeneration.jimeng_poll ImageGeneration.nano_banana_poll
  ImageGeneration.sora_image_poll.

Lemma calls_generate_image_dispatch prompt model aspect_ratio quality reference :
  calls 2 60 (generate_image_dispatch prompt model aspect_ratio quality reference).
Proof.
  unfold generate_image_dispatch, ImageGeneration.generate_image_jimeng,
    ImageGeneration.generate_image_nano_banana, ImageGeneration.generate_image_sora.
  repeat first
    [ calls_step
    | apply calls_http_handlers
    | apply calls_try_except_0; [|intros]
    | apply (calls_bind 2 60 0); [apply calls_volc_generate_image | intros] ].
Qed.

Transparent ImageGeneration.jimeng_poll ImageGeneration.nano_banana_poll
  ImageGeneration.sora_image_poll.

Lemma regenerate_try_settles kid model ar q w :
  raises_unchanged w (fun _ w1 => keyframes_settled [kid] w w1)
    (KeyframeService.regenerate_keyframe_try E kid model ar q w).
Proof.
  unfold KeyframeService.regenerate_keyframe_try.
  unfold bind at 1, KeyframeService.select_keyframe at 1, bind at 1, get_db, ret.
  cbn [fst snd].
  destruct (List.find _ (keyframes (db w))) as [k|] eqn:Hk.
  2:{ simpl. now apply keyframes_settled_absent. }
  eapply raises_unchanged_bind with (c := 2) (n := 60%nat); [|reflexivity..|].
  { destruct model; [apply calls_generate_image|apply calls_raise]. }
  intros result w1 Hd1 Ht1.
  eapply raises_unchanged_bind; [apply (calls_lift 0 0)|assumption..|].
  intros image_url w2 Hd2 Ht2.
  destruct (negb (truth image_url)); [now apply raises_unchanged_raise|].
  eapply raises_unchanged_bind; [apply (calls_as_url 0 0)|assumption..|].
  intros url w3 Hd3 Ht3.
  eapply raises_unchanged_bind; [apply (calls_upload E 0 0)|assumption..|].
  intros up w4 Hd4 Ht4.
  unfold KeyframeService.commit_keyframes, bind, get_db, put_db, read_db_now, ret.
  cbn [fst snd db log tasks raises_unchanged].
  eapply keyframes_settled_flush; [| |exact Ht4|rewrite Hd4; reflexivity].
  - simpl. eapply find_id. exact Hk.
  - left. simpl. eauto.
Qed.

(** The background unit of a regeneration returns and settles the rows of
    its id. *)
Lemma regenerate_background_settles kid model ar q w :
  exists w',
    KeyframeService._regenerate_keyframe_background E kid model ar q w = (Ok tt, w') /\
    keyframes_settled [kid] w w'.
Proof.
  pose proof (regenerate_try_settles kid model ar q w) as Hout.
  unfold KeyframeService._regenerate_keyframe_background, try_except.
  destruct (KeyframeService.regenerate_keyframe_try E kid model ar q w)
    as [[[]|e] w1] eqn:Htry; simpl in Hout.
  - exists w1. auto.
  - destruct Hout as [Hd Ht].
    destruct (keyframe_except_settles E kid e w1) as (w2 & Hrun & Hset).
    exists w2. split; [unfold bind; now rewrite Hrun|].
    now apply (keyframes_settled_from [kid] w w1 w2).
Qed.

(** What the [try] block of the background unit does with the result of
    the image generation. *)
Definition regenerate_store (k : Keyframe.t) (result : json) : M unit :=
  image_url <- lift (get result (u "url") JNull) ;;
  if negb (truth image_url) then
    raise (Exception (u "图片生成成功但未返回URL"))
  else
    image_url <- KeyframeService.as_url image_url ;;
    let filename := u "keyframe_" ++ Py.str_of_Z (Keyframe.id k) ++ u ".jpg" in
    upload_result <- upload_from_url E image_url filename (u "keyframes") ;;
    KeyframeService.commit_keyframes E
      [KeyframeService.set_image k (upload_url upload_result)].

Lemma grows_regenerate_store k result : grows (regenerate_store k result).
Proof.
  unfold regenerate_store.
  apply grows_bind; [eapply grows_calls, (calls_lift 0 0)|]. intros image_url.
  destruct (negb (truth image_url)); [apply grows_raise|].
  apply grows_bind; [eapply grows_calls, (calls_as_url 0 0)|]. intros url.
  apply grows_bind; [eapply grows_calls, (calls_upload E 0 0)|]. intros up.
  apply grows_commit_keyframes.
Qed.

Lemma try_except_at {A} (m m' : M A) (h : exn -> M A) (w w' : world) :
  m w = m' w' -> try_except m h w = try_except m' h w'.
Proof. unfold try_except. now intros ->. Qed.

(** The first call of the background unit of a regeneration is the image
    generation with the stored prompt and without a reference image. *)
Lemma regenerate_background_first_call kid model ar q w k :
  keyframe_by_id kid (db w) = Some k ->
  exists evs,
    log (snd (KeyframeService._regenerate_keyframe_background E kid (Some model) ar q w))
    = log w ++ EvGenerateImage (Py.or_empty (Keyframe.prompt k)) model ar (Some q) None
               :: evs.
Proof.
  unfold keyframe_by_id. intros Hk.
  set (ev := EvGenerateImage (Py.or_empty (Keyframe.prompt k)) model ar (Some q) None).
  assert (Htry :
            KeyframeService.regenerate_keyframe_try E kid (Some model) ar q w
            = bind (generate_image_dispatch (Py.or_empty (Keyframe.prompt k)) model ar
                      (Some q) None)
                   (regenerate_store k) (after w [ev])).
  { unfold KeyframeService.regenerate_keyframe_try.
    unfold bind at 1, KeyframeService.select_keyframe at 1, bind at 1, get_db, ret.
    cbn [fst snd]. rewrite Hk. reflexivity. }
  unfold KeyframeService._regenerate_keyframe_background.
  rewrite (try_except_at _ _ _ _ _ Htry).
  match goal with
  | |- context [try_except ?m ?h (after w [ev])] =>
    assert (Hg : grows (try_except m h))
  end.
  { apply grows_try_except.
    - apply grows_bind; [eapply grows_calls, calls_generate_image_dispatch|].
      apply grows_regenerate_store.
    - intros e. apply grows_bind; [apply grows_keyframe_except|].
      intros; apply grows_ret. }
  destruct (Hg (after w [ev])) as (evs & Hlog).
  exists evs. rewrite Hlog. simpl. now rewrite <- app_assoc.
Qed.

(** What [regenerate_keyframe] does to a world that holds the keyframe. *)
Lemma regenerate_keyframe_run kid model ar q w k :
  keyframe_by_id kid (db w) = Some k ->
  exists w1 k1,
    KeyframeService.regenerate_keyframe E kid model ar q w
    = (Ok (KeyframeService.set_status k KeyframeStatus.GENERATING None,
           {| KeyframeService.saved_keyframe_id := kid;
              KeyframeService.saved_model :=
                if negb (Py.truthy model)
                   && bool_decide
                        (is_Some (List.find
                                    (fun s => (Script.id s =? Keyframe.script_id k)%Z)
                                    (scripts (db w))))
                then Some (u "jimeng_t2i_v40") else model;
              KeyframeService.saved_aspect_ratio :=
                if Py.truthy ar then Py.or_empty ar else u "auto";
              KeyframeService.saved_quality :=
                if Py.truthy q then Py.or_empty q else u "720p" |}), w1) /\
    keyframe_by_id kid (db w1) = Some k1 /\
    Keyframe.status k1 = KeyframeStatus.GENERATING /\
    Keyframe.error_message k1 = None /\
    Keyframe.prompt k1 = Keyframe.prompt k /\
    Keyframe.image_url k1 = Keyframe.image_url k /\
    tasks w1 = tasks w /\ log w1 = log w ++ [EvDbNow].
Proof.
  unfold keyframe_by_id. intros Hk.
  unfold KeyframeService.regenerate_keyframe.
  unfold bind at 1, KeyframeService.select_keyframe at 1, bind at 1, get_db, ret.
  cbn [fst snd]. rewrite Hk.
  unfold bind, KeyframeService.select_script, KeyframeService.commit_keyframes, bind,
    get_db, put_db, read_db_now, ret.
  cbn [fst snd db log tasks].
  eexists _, _. split.
  { cbn [Keyframe.id KeyframeService.set_status].
    rewrite (find_id Keyframe.id _ _ _ Hk).
    destruct (Py.truthy ar), (Py.truthy q); reflexivity. }
  cbn [fst snd db log tasks keyframes KeyframeService.with_keyframes].
  split.
  { apply find_flush_keyframe; [exact Hk|]. simpl. eapply find_id. exact Hk. }
  destruct (bool_decide _) eqn:Hd; [|simpl; auto 10].
  apply bool_decide_eq_true in Hd. rewrite <- Hd at 1 2 3 4. simpl. auto 10.
Qed.

(** Regenerating a keyframe that does not exist raises [NotFoundError] and
    changes nothing.  Otherwise the request stores the keyframe as
    [GENERATING] without an error message and starts the background unit
    with the keyframe's id, the aspect ratio and the quality given or
    [auto] and [720p]; the unit then returns, whatever the outside world
    does, and leaves the keyframe settled and every other row as it was;
    and when it has a model, its first call is the image generation with
    the prompt stored in the keyframe and without a reference image. *)
Theorem regenerate_keyframe_settles (keyframe_id : Z)
    (model aspect_ratio quality : option str) (w : world) :
  match keyframe_by_id keyframe_id (db w) with
  | None =>
    KeyframeService.regenerate_keyframe E keyframe_id model aspect_ratio quality w
    = (Raise (NotFoundError (u "关键帧不存在: " ++ Py.str_of_Z keyframe_id)), w)
  | Some k =>
    exists unit w1 k1 w2,
      KeyframeService.regenerate_keyframe E keyframe_id model aspect_ratio quality w
        = (Ok (KeyframeService.set_status k KeyframeStatus.GENERATING None, unit), w1) /\
      KeyframeService.saved_keyframe_id unit = keyframe_id /\
      KeyframeService.saved_aspect_ratio unit
        = (if Py.truthy aspect_ratio then Py.or_empty aspect_ratio else u "auto") /\
      KeyframeService.saved_quality unit
        = (if Py.truthy quality then Py.or_empty quality else u "720p") /\
      (Py.truthy model = true -> KeyframeService.saved_model unit = model) /\
      keyframe_by_id keyframe_id (db w1) = Some k1 /\
      Keyframe.status k1 = KeyframeStatus.GENERATING /\
      Keyframe.error_message k1 = None /\
      KeyframeService._regenerate_keyframe_background E
        (KeyframeService.saved_keyframe_id unit) (KeyframeService.saved_model unit)
        (KeyframeService.saved_aspect_ratio unit) (KeyframeService.saved_quality unit) w1
        = (Ok tt, w2) /\
      keyframes_settled [keyframe_id] w1 w2 /\
      (forall m, KeyframeService.saved_model unit = Some m ->
         exists evs,
           log w2 = log w1
                    ++ EvGenerateImage (Py.or_empty (Keyframe.prompt k)) m
                         (KeyframeService.saved_aspect_ratio unit)
                         (Some (KeyframeService.saved_quality unit)) None
                       :: evs)
  end.
Proof.
  destruct (keyframe_by_id keyframe_id (db w)) as [k|] eqn:Hk.
  - destruct (regenerate_keyframe_run keyframe_id model aspect_ratio quality w k Hk)
      as (w1 & k1 & Hrun & Hk1 & Hst & Herr & Hp & _ & _ & _).
    eexists _, w1, k1. 
    destruct (regenerate_background_settles keyframe_id
                (if negb (Py.truthy model)
                    && bool_decide
                         (is_Some (List.find
                                     (fun s => (Script.id s =? Keyframe.script_id k)%Z)
                                     (scripts (db w))))
                 then Some (u "jimeng_t2i_v40") else model)
                (if Py.truthy aspect_ratio then Py.or_empty aspect_ratio else u "auto")
                (if Py.truthy quality then Py.or_empty quality else u "720p") w1)
      as (w2 & Hbg & Hset).
    exists w2. split; [exact Hrun|]. cbn [KeyframeService.saved_keyframe_id
      KeyframeService.saved_model KeyframeService.saved_aspect_ratio
      KeyframeService.saved_quality].
    repeat (split; [first [reflexivity|assumption]|]).
    split; [intros ->; reflexivity|].
    repeat (split; [first [reflexivity|assumption]|]).
    intros m Hm. rewrite Hm in Hbg.
    destruct (regenerate_background_first_call keyframe_id m
                (if Py.truthy aspect_ratio then Py.or_empty aspect_ratio else u "auto")
                (if Py.truthy quality then Py.or_empty quality else u "720p") w1 k1 Hk1)
      as (evs & Hlog).
    rewrite Hbg in Hlog. simpl in Hlog. rewrite Hp in Hlog. eauto.
  - unfold keyframe_by_id in Hk. unfold KeyframeService.regenerate_keyframe.
    unfold bind at 1, KeyframeService.select_keyframe at 1, bind at 1, get_db, ret.
    cbn [fst snd]. now rewrite Hk.
Qed.

(** A regeneration requested without parameters, for a keyframe whose
    script exists, runs the JiMeng model with the aspect ratio [auto] and
    the quality [720p]; neither has an entry in the tables of
    [generate_image_jimeng], so the image asked for is 1024 by 1024,
    without a reference image. *)
Theorem regenerate_keyframe_defaults (keyframe_id : Z) (w : world)
    (k : Keyframe.t) (script : Script.t) :
  keyframe_by_id keyframe_id (db w) = Some k ->
  KeyframeFacts.script_by_id (Keyframe.script_id k) (db w) = Some script ->
  (exists w1,
     KeyframeService.regenerate_keyframe E keyframe_id None None None w
     = (Ok (KeyframeService.set_status k KeyframeStatus.GENERATING None,
            {| KeyframeService.saved_keyframe_id := keyframe_id;
               KeyframeService.saved_model := Some (u "jimeng_t2i_v40");
               KeyframeService.saved_aspect_ratio := u "auto";
               KeyframeService.saved_quality := u "720p" |}), w1)) /\
  (forall prompt,
     ImageGeneration.generate_image E prompt (u "jimeng_t2i_v40") (u "auto")
       (Some (u "720p")) None
     = (emit (EvGenerateImage prompt (u "jimeng_t2i_v40") (u "auto") (Some (u "720p"))
                None) ;;
        image_url <- ImageGeneration.volc_generate_image E prompt (1024, 1024) None ;;
        ret (JObj [(u "url", image_url); (u "status", JStr (u "succeeded"))]))).
Proof.
  intros Hk Hscript. split; [|reflexivity].
  destruct (regenerate_keyframe_run keyframe_id None None None w k Hk)
    as (w1 & k1 & Hrun & _).
  exists w1. rewrite Hrun. unfold KeyframeFacts.script_by_id in Hscript.
  rewrite Hscript. reflexivity.
Qed.

(** *** [regenerate_video_segment] and its job *)

(** Regenerating a video segment that does not exist raises
    [NotFoundError] and changes nothing.  Otherwise the request stores the
    segment as [GENERATING] without a video and without an error message,
    under the model given if one is given and under its own model if not;
    the job it starts then returns, whatever the outside world does, and
    leaves the segment settled and every other row as it was. *)
Theorem regenerate_video_segment_settles (video_segment_id : Z) (model : option str)
    (w : world) :
  match video_segment_by_id video_segment_id (db w) with
  | None =>
    VideoService.regenerate_video_segment E video_segment_id model w
    = (Raise (NotFoundError (u "视频片段不存在: " ++ Py.str_of_Z video_segment_id)), w)
  | Some v =>
    exists w1 v1 w2,
      VideoService.regenerate_video_segment E video_segment_id model w
        = (Ok (VideoService.reset v model, video_segment_id), w1) /\
      video_segment_by_id video_segment_id (db w1) = Some v1 /\
      VideoSegment.status v1 = VideoStatus.GENERATING /\
      VideoSegment.video_url v1 = None /\
      VideoSegment.error_message v1 = None /\
      VideoSegment.model v1
        = (if Py.truthy model then model else VideoSegment.model v) /\
      VideoSegment.first_frame_url v1 = VideoSegment.first_frame_url v /\
      VideoSegment.last_frame_url v1 = VideoSegment.last_frame_url v /\
      VideoSegment.prompt v1 = VideoSegment.prompt v /\
      tasks w1 = tasks w /\ keyframes (db w1) = keyframes (db w) /\
      VideoService._generate_single_video_with_session E video_segment_id w1
        = (Ok tt, w2) /\
      videos_settled [video_segment_id] w1 w2
  end.
Proof.
  unfold video_segment_by_id.
  destruct (List.find _ (video_segments (db w))) as [v|] eqn:Hv;
    unfold VideoService.regenerate_video_segment;
    unfold bind at 1, VideoService.select_video_segment at 1, bind at 1, get_db, ret;
    cbn [fst snd]; rewrite Hv; [|reflexivity].
  unfold bind, VideoService.commit_video_segments, bind, get_db, put_db, read_db_now, ret.
  cbn [fst snd db log tasks].
  match goal with
  | |- exists w1 v1 w2, (_, ?w) = _ /\ _ =>
    destruct (video_job_settles E video_segment_id w) as (w2 & Hjob & Hset);
    exists w
  end.
  eexists _, w2. split; [reflexivity|].
  cbn [fst snd db log tasks keyframes video_segments VideoService.with_video_segments].
  split.
  { apply find_flush_video_segment; [exact Hv|]. simpl. eapply find_id. exact Hv. }
  assert (Hfields : forall v1 : VideoSegment.t,
            v1 = (if bool_decide (VideoService.reset v model = v) then v
                  else VideoService.set_updated_at (VideoService.reset v model)
                         (db_now E (log w))) ->
            VideoSegment.status v1 = VideoStatus.GENERATING /\
            VideoSegment.video_url v1 = None /\
            VideoSegment.error_message v1 = None /\
            VideoSegment.model v1
              = (if Py.truthy model then model else VideoSegment.model v) /\
            VideoSegment.first_frame_url v1 = VideoSegment.first_frame_url v /\
            VideoSegment.last_frame_url v1 = VideoSegment.last_frame_url v /\
            VideoSegment.prompt v1 = VideoSegment.prompt v).
  { intros v1 ->. destruct (bool_decide _) eqn:Hd; [|simpl; auto 10].
    apply bool_decide_eq_true in Hd. rewrite <- Hd at 1 2 3 4. simpl. auto 10. }
  destruct (Hfields _ eq_refl) as (H1 & H2 & H3 & H4 & H5 & H6 & H7).
  repeat (split; [first [assumption|reflexivity]|]).
  exact Hset.
Qed.

End WithEnv.

Lemma regenerate_keyframe_defaults_witness :
  exists w1,
    KeyframeService.regenerate_keyframe (Scenario.scripted [] 0) 1 None None None
      (Scenario.world_of KeyframeFacts.stuck_db)
    = (Ok (KeyframeService.set_status KeyframeFacts.stuck_keyframe
             KeyframeStatus.GENERATING None,
           {| KeyframeService.saved_keyframe_id := 1;
              KeyframeService.saved_model := Some (u "jimeng_t2i_v40");
              KeyframeService.saved_aspect_ratio := u "auto";
              KeyframeService.saved_quality := u "720p" |}), w1).
Proof.
  apply (regenerate_keyframe_defaults (Scenario.scripted [] 0) 1
           (Scenario.world_of KeyframeFacts.stuck_db) KeyframeFacts.stuck_keyframe
           {| Script.id := 1; Script.content := Some Scenario.script_text |});
    reflexivity.
Defined.

End SingleFacts.

(** ** The generation requests *)

Module RequestFacts.
Import Runtime JobFacts KeyframeFacts VideoFacts.


(** The database once the keyframes of a script are deleted. *)
Definition without_keyframes (script_id : Z) (d : database) : database :=
  KeyframeService.with_keyframes d
    (List.filter (fun k => negb (Keyframe.script_id k =? script_id)%Z) (keyframes d))
    (next_keyframe_id d).

(** The (segment id, prompt) pairs of the rows [generate_keyframes] adds
    for the segments [segs], whose first body segment is [first]. *)
Definition pending_of (segs : list ScriptParser.ScriptSegment)
    (normal : list ScriptParser.ScriptSegment) : list (str * str) :=
  match normal with
  | [] => []
  | first :: _ =>
    match List.find ScriptParser.is_frame_0 segs with
    | Some frame_0 =>
      [(ScriptParser.segment_id first ++ u "_first_frame", ScriptParser.content frame_0)]
    | None => []
    end
    ++ ((fun s => (ScriptParser.segment_id s, ScriptParser.content s)) <$> normal)
  end.






Lemma filter_none {A} (p : A -> bool) (l : list A) :
  Forall (fun x => p x = false) l -> List.filter p l = [].
Proof. induction 1 as [|x l Hx _ IH]; simpl; [reflexivity|]. now rewrite Hx. Qed.




Lemma str_of_uint_digits (d : Decimal.uint) :
  Forall (fun c => (48 <= c <= 57)%N) (Py.str_of_uint d).
Proof. induction d; simpl; constructor; auto; lia. Qed.

(** The id of a body segment does not end with [_first_frame]. *)
Lemma body_id_not_first_frame (i : nat) :
  Py.endswith (ScriptParserFacts.body_id i) (u "_first_frame") = false.
Proof.
  unfold Py.endswith, ScriptParserFacts.body_id. rewrite rev_app_distr.
  remember (rev (u "_first_frame")) as p eqn:Hp. vm_compute in Hp. subst p.
  remember (rev (u "segment_")) as q eqn:Hq. vm_compute in Hq. subst q.
  pose proof (str_of_uint_digits (N.to_uint (N.of_nat i))) as Hd.
  fold (Py.str_of_N (N.of_nat i)) in Hd. fold (Py.str_of_nat i) in Hd.
  destruct (rev (Py.str_of_nat i)) as [|c t] eqn:Hr; [reflexivity|].
  assert (Hc : c ∈ Py.str_of_nat i).
  { apply list_elem_of_In, in_rev. rewrite Hr. now left. }
  rewrite Forall_forall in Hd. specialize (Hd c Hc).
  assert (He : (101 =? c) = false) by (apply N.eqb_neq; lia).
  rewrite <- app_comm_cons.
  change (Py.startswith (c :: ?s) (101 :: ?p)) with ((101 =? c) && Py.startswith s p).
  now rewrite He.
Qed.

(** The opening frame the parser returns has a text. *)
Lemma parse_script_opening is_decimal decimal_value (c : str) seg :
  seg ∈ ScriptParser.parse_script is_decimal decimal_value c ->
  ScriptParser.is_frame_0 seg = true -> ScriptParser.content seg <> [].
Proof.
  unfold ScriptParser.parse_script. destruct (_ || _); [intros H; inversion H|].
  assert (Hbodies :
            seg ∈ omap id (imap (ScriptParser.segment_of_match is_decimal decimal_value c
                                   (ScriptParser.time_matches is_decimal c))
                                (ScriptParser.time_matches is_decimal c)) ->
            ScriptParser.is_frame_0 seg = true -> ScriptParser.content seg <> []).
  { intros Hin Hf.
    pose proof (SegmentFacts.Forall_omap_imap
                  (fun s => ScriptParser.is_frame_0 s = false)
                  (ScriptParser.segment_of_match is_decimal decimal_value c
                     (ScriptParser.time_matches is_decimal c))
                  (ScriptParser.time_matches is_decimal c)) as Hall.
    rewrite Forall_forall in Hall. rewrite Hall in Hf; [discriminate| |exact Hin].
    intros i m s Hs. now apply ScriptParserFacts.segment_of_match_id in Hs as [_ ?]. }
  destruct (Py.truthy (ScriptParser.frame_0_content_of is_decimal c)) eqn:Hf0;
    destruct (bool_decide (ScriptParser.time_matches is_decimal c = [])).
  - intros Hin _. apply list_elem_of_singleton in Hin as ->. simpl.
    destruct (ScriptParser.frame_0_content_of is_decimal c) as [[|x t]|];
      discriminate.
  - intros Hin Hf. apply elem_of_app in Hin as [Hin|Hin]; [|now apply Hbodies].
    apply list_elem_of_singleton in Hin as ->. simpl.
    destruct (ScriptParser.frame_0_content_of is_decimal c) as [[|x t]|];
      discriminate.
  - intros Hin Hf. apply list_elem_of_singleton in Hin as ->. discriminate Hf.
  - exact Hbodies.
Qed.

(** A segment of the parser that is no opening frame has a body id. *)
Lemma parse_script_body is_decimal decimal_value (c : str) seg :
  seg ∈ ScriptParser.parse_script is_decimal decimal_value c ->
  ScriptParser.is_frame_0 seg = false ->
  exists i, ScriptParser.segment_id seg = ScriptParserFacts.body_id i.
Proof.
  intros Hin Hf.
  destruct (ScriptParserFacts.parse_script_shape is_decimal decimal_value c)
    as (pre & bodies & idx & Heq & Hpre & _ & _ & Hids).
  rewrite Heq in Hin. apply elem_of_app in Hin as [Hin|Hin].
  - destruct Hpre as [->|(f0 & -> & Hf0)]; [inversion Hin|].
    apply list_elem_of_singleton in Hin as ->. congruence.
  - assert (Hid : ScriptParser.segment_id seg ∈ ScriptParser.segment_id <$> bodies)
      by now apply list_elem_of_fmap_2.
    rewrite Hids in Hid. apply list_elem_of_fmap in Hid as (i & -> & _). eauto.
Qed.

Section WithEnv.

Variable E : env.

(** [generate_keyframes] on a script whose text has segments. *)
Lemma generate_keyframes_run script_id model aspect_ratio quality w script :
  script_by_id script_id (db w) = Some script ->
  Py.truthy (Script.content script) = true ->
  ScriptParser.parse_script (is_decimal E) (decimal_value E)
    (Py.or_empty (Script.content script)) <> [] ->
  let segs := ScriptParser.parse_script (is_decimal E) (decimal_value E)
                (Py.or_empty (Script.content script)) in
  let normal := List.filter (fun s => negb (ScriptParser.is_frame_0 s)) segs in
  let rows :=
    imap (fun i p => KeyframeService.new_keyframe
                       (next_keyframe_id (db w) + Z.of_nat i) script_id (fst p) (snd p)
                       (db_now E (log w)))
         (pending_of segs normal) in
  KeyframeService.generate_keyframes E script_id model aspect_ratio quality w
  = match normal with
    | [] =>
      (Raise (ValidationError (u "脚本中没有有效的段落")),
       {| db := without_keyframes script_id (db w); log := log w; tasks := tasks w |})
    | _ :: _ =>
      (Ok rows,
       {| db := KeyframeService.with_keyframes (db w)
                  (keyframes (without_keyframes script_id (db w)) ++ rows)
                  (next_keyframe_id (db w) + Z.of_nat (length (pending_of segs normal)));
          log := log w ++ [EvDbNow];
          tasks := tasks w
                   ++ [TaskGenerateKeyframes (Keyframe.id <$> rows) segs model
                         aspect_ratio quality] |})
    end.
Proof.
  intros Hscript Hcontent Hsegs segs normal rows.
  unfold KeyframeService.generate_keyframes.
  unfold bind at 1, KeyframeService.select_script at 1, bind at 1, get_db, ret.
  cbn [fst snd]. unfold script_by_id in Hscript. rewrite Hscript, Hcontent.
  cbn [negb]. fold segs. rewrite (bool_decide_eq_false_2 _ Hsegs).
  unfold bind at 1, KeyframeService.delete_keyframes at 1, bind at 1, get_db, put_db.
  cbn [fst snd db log tasks]. fold normal.
  subst rows. unfold pending_of.
  destruct normal as [|first rest]; [reflexivity|].
  unfold bind, KeyframeService.insert_keyframes, bind, get_db, put_db, read_db_now,
    create_task, ret.
  cbn [fst snd db log tasks keyframes next_keyframe_id KeyframeService.with_keyframes].
  reflexivity.
Qed.




(** For the rows a keyframe generation request creates, the job never
    consults the segments handed to the background unit: the prompt it
    sends is the prompt stored in the row, empty when that is empty. *)
Theorem fresh_keyframes_use_their_prompt (script_id : Z) (model aspect_ratio : str)
    (quality : option str) (w w' : world) (rows : list Keyframe.t) :
  KeyframeService.generate_keyframes E script_id model aspect_ratio quality w
    = (Ok rows, w') ->
  Forall (fun k => forall segment_map,
            KeyframeService.prompt_of k segment_map = Py.or_empty (Keyframe.prompt k))
         rows.
Proof.
  intros Hok.
  destruct (script_by_id script_id (db w)) as [script|] eqn:Hscript.
  2:{ unfold KeyframeService.generate_keyframes in Hok.
      unfold bind at 1, KeyframeService.select_script at 1, bind at 1, get_db, ret in Hok.
      cbn [fst snd] in Hok. unfold script_by_id in Hscript. rewrite Hscript in Hok.
      discriminate Hok. }
  destruct (Py.truthy (Script.content script)) eqn:Hcontent.
  2:{ unfold KeyframeService.generate_keyframes in Hok.
      unfold bind at 1, KeyframeService.select_script at 1, bind at 1, get_db, ret in Hok.
      cbn [fst snd] in Hok. unfold script_by_id in Hscript.
      rewrite Hscript, Hcontent in Hok. discriminate Hok. }
  destruct (decide (ScriptParser.parse_script (is_decimal E) (decimal_value E)
                      (Py.or_empty (Script.content script)) = [])) as [Hnil|Hsegs].
  { unfold KeyframeService.generate_keyframes in Hok.
    unfold bind at 1, KeyframeService.select_script at 1, bind at 1, get_db, ret in Hok.
    cbn [fst snd] in Hok. unfold script_by_id in Hscript.
    rewrite Hscript, Hcontent in Hok. cbn [negb] in Hok. rewrite Hnil in Hok.
    discriminate Hok. }
  rewrite (generate_keyframes_run script_id model aspect_ratio quality w script
             Hscript Hcontent Hsegs) in Hok.
  cbv zeta in Hok.
  set (segs := ScriptParser.parse_script (is_decimal E) (decimal_value E)
                 (Py.or_empty (Script.content script))) in *.
  destruct (List.filter _ segs) as [|first rest] eqn:Hnormal; [discriminate Hok|].
  injection Hok as <- _.
  apply Forall_forall. intros k Hk.
  apply elem_of_lookup_imap in Hk as (i & p & -> & Hp).
  apply list_elem_of_lookup_2 in Hp. unfold pending_of in Hp.
  intros segment_map. unfold KeyframeService.prompt_of. simpl.
  apply elem_of_app in Hp as [Hp|Hp].
  - destruct (List.find ScriptParser.is_frame_0 segs) as [f0|] eqn:Hfind;
      [|inversion Hp].
    apply list_elem_of_singleton in Hp as ->. simpl.
    apply List.find_some in Hfind as [Hin Hf0]. apply list_elem_of_In in Hin.
    pose proof (parse_script_opening _ _ _ _ Hin Hf0) as Hne.
    destruct (ScriptParser.content f0); [contradiction|reflexivity].
  - change (p ∈ (fun s => (ScriptParser.segment_id s, ScriptParser.content s))
                 <$> first :: rest) in Hp.
    apply list_elem_of_fmap in Hp as (seg & -> & Hseg). simpl.
    rewrite <- Hnormal in Hseg.
    apply list_elem_of_In, List.filter_In in Hseg as [Hin Hf].
    apply list_elem_of_In in Hin. apply negb_true_iff in Hf.
    destruct (parse_script_body _ _ _ _ Hin Hf) as [j Hid].
    rewrite Hid, body_id_not_first_frame.
    destruct (ScriptParser.content seg); reflexivity.
Qed.

(** *** [generate_videos] *)

(** The configurations [generate_videos] builds from the completed
    keyframes: none if a validation fails. *)
Definition video_configs_of (d : database) (script_id : Z)
  : result (list VideoService.video_config) :=
  let keyframes := VideoService.completed_keyframes d script_id in
  if bool_decide (keyframes = []) then
    Raise (ValidationError (u "脚本没有已完成的关键帧"))
  else
    match List.filter VideoService.is_normal keyframes with
    | [] => Raise (ValidationError (u "脚本没有有效的段落关键帧"))
    | first_segment :: rest =>
      let first_frame_key := Keyframe.segment_id first_segment ++ u "_first_frame" in
      match VideoService.keyframe_map_of keyframes !! first_frame_key with
      | None => Raise (ValidationError (u "缺少首帧关键帧: " ++ first_frame_key))
      | Some first_frame =>
        Ok ({| VideoService.cfg_segment_index := 0;
               VideoService.cfg_first_frame_url := Keyframe.image_url first_frame;
               VideoService.cfg_last_frame_url := Keyframe.image_url first_segment;
               VideoService.cfg_prompt := Py.or_empty (Keyframe.prompt first_segment) |}
              :: VideoService.following_configs 1 (first_segment :: rest))
      end
    end.

Lemma generate_videos_run script_id model aspect_ratio duration w script :
  script_by_id script_id (db w) = Some script ->
  VideoService.generate_videos E script_id model aspect_ratio duration w
  = match video_configs_of (db w) script_id with
    | Raise e =>
      (Raise e,
       {| db := without_video_segments script_id (db w); log := log w;
          tasks := tasks w |})
    | Ok configs =>
      let rows :=
        imap (fun i c => VideoService.new_video_segment
                           (next_video_segment_id (db w) + Z.of_nat i) script_id c
                           model aspect_ratio duration (db_now E (log w))) configs in
      (Ok rows,
       {| db := VideoService.with_video_segments (db w)
                  (video_segments (without_video_segments script_id (db w)) ++ rows)
                  (next_video_segment_id (db w) + Z.of_nat (length configs));
          log := log w ++ [EvDbNow];
          tasks := tasks w ++ [TaskGenerateVideos (VideoSegment.id <$> rows)] |})
    end.
Proof.
  intros Hscript.
  unfold VideoService.generate_videos.
  unfold bind at 1, KeyframeService.select_script at 1, bind at 1, get_db, ret.
  cbn [fst snd]. unfold script_by_id in Hscript. rewrite Hscript.
  unfold bind at 1, VideoService.delete_video_segments at 1, bind at 1, get_db, put_db.
  cbn [fst snd db log tasks].
  unfold bind at 1. cbn [fst snd db log tasks].
  fold (without_video_segments script_id (db w)).
  rewrite completed_keyframes_without. unfold video_configs_of.
  destruct (bool_decide (VideoService.completed_keyframes (db w) script_id = []));
    [reflexivity|].
  destruct (List.filter VideoService.is_normal _) as [|first rest]; [reflexivity|].
  destruct (VideoService.keyframe_map_of _ !! _) as [first_frame|]; [|reflexivity].
  unfold bind, VideoService.insert_video_segments, bind, get_db, put_db, read_db_now,
    create_task, ret.
  cbn [fst snd db log tasks video_segments next_video_segment_id
       VideoService.with_video_segments without_video_segments].
  reflexivity.
Qed.

(** A video generation request calls no vendor and never changes a
    keyframe, a script or a video segment of another script.  It raises
    [NotFoundError] for a script that does not exist, and then nothing has
    changed; its other errors are [ValidationError]s, raised once the video
    segments of the script are deleted; an error starts no background unit.
    When it succeeds, the rows it returns are the video segments of the
    script, all [GENERATING] under the model asked for, and one background
    unit is started for them. *)
Theorem generate_videos_outcomes (script_id : Z) (model aspect_ratio : str)
    (duration : Q) (w : world) :
  exists r w',
    VideoService.generate_videos E script_id model aspect_ratio duration w = (r, w') /\
    keyframes (db w') = keyframes (db w) /\
    scripts (db w') = scripts (db w) /\
    (forall other, other <> script_id ->
       video_segments_of other (db w') = video_segments_of other (db w)) /\
    match r with
    | Ok rows =>
      rows <> [] /\
      video_segments_of script_id (db w') = rows /\
      Forall (fun v => VideoSegment.status v = VideoStatus.GENERATING /\
                       VideoSegment.video_url v = None /\
                       VideoSegment.model v = Some model) rows /\
      tasks w' = tasks w ++ [TaskGenerateVideos (VideoSegment.id <$> rows)] /\
      log w' = log w ++ [EvDbNow]
    | Raise e =>
      tasks w' = tasks w /\ log w' = log w /\
      ((e = NotFoundError (u "脚本不存在: " ++ Py.str_of_Z script_id) /\
        script_by_id script_id (db w) = None /\ w' = w) \/
       (exists detail, e = ValidationError detail /\
          db w' = without_video_segments script_id (db w)))
    end.
Proof.
  destruct (script_by_id script_id (db w)) as [script|] eqn:Hscript.
  2:{ exists (Raise (NotFoundError (u "脚本不存在: " ++ Py.str_of_Z script_id))), w.
      split.
      - unfold VideoService.generate_videos.
        unfold bind at 1, KeyframeService.select_script at 1, bind at 1, get_db, ret.
        cbn [fst snd]. unfold script_by_id in Hscript. now rewrite Hscript.
      - repeat split; auto. }
  rewrite (generate_videos_run script_id model aspect_ratio duration w script Hscript).
  destruct (video_configs_of (db w) script_id) as [configs|e] eqn:Hconfigs.
  - eexists _, _. split; [reflexivity|].
    cbn [db log tasks keyframes scripts video_segments VideoService.with_video_segments].
    split; [reflexivity|]. split; [reflexivity|]. split.
    { intros other Hne. unfold video_segments_of at 1.
      cbn [video_segments VideoService.with_video_segments].
      rewrite List.filter_app.
      change (List.filter (fun v => (VideoSegment.script_id v =? other)%Z)
                (video_segments (without_video_segments script_id (db w))))
        with (video_segments_of other (without_video_segments script_id (db w))).
      rewrite video_segments_of_other by exact Hne.
      rewrite filter_none; [apply app_nil_r|].
      apply Forall_forall. intros v Hv.
      apply elem_of_lookup_imap in Hv as (i & c & -> & _). simpl.
      apply Z.eqb_neq. now apply not_eq_sym. }
    split.
    { unfold video_configs_of in Hconfigs.
      destruct (bool_decide _); [discriminate|].
      destruct (List.filter _ _); [discriminate|].
      destruct (_ !! _); [|discriminate]. injection Hconfigs as <-.
      rewrite imap_cons. discriminate. }
    split.
    { unfold video_segments_of at 1.
      cbn [video_segments VideoService.with_video_segments]. rewrite List.filter_app.
      change (List.filter (fun v => (VideoSegment.script_id v =? script_id)%Z)
                (video_segments (without_video_segments script_id (db w))))
        with (video_segments_of script_id (without_video_segments script_id (db w))).
      rewrite video_segments_of_without. cbn [app].
      apply filter_same_script_video. apply Forall_forall. intros v Hv.
      apply elem_of_lookup_imap in Hv as (i & c & -> & _). reflexivity. }
    split; [|split; reflexivity].
    apply Forall_forall. intros v Hv.
    apply elem_of_lookup_imap in Hv as (i & c & -> & _). simpl. auto.
  - eexists _, _. split; [reflexivity|]. cbn [db log tasks].
    split; [reflexivity|]. split; [reflexivity|]. split.
    { intros other Hne. now apply video_segments_of_other. }
    split; [reflexivity|]. split; [reflexivity|]. right.
    unfold video_configs_of in Hconfigs.
    destruct (bool_decide _); [injection Hconfigs as <-; eauto|].
    destruct (List.filter _ _); [injection Hconfigs as <-; eauto|].
    destruct (_ !! _); [discriminate|]. injection Hconfigs as <-. eauto.
Qed.

(** *** The list-read of the keyframes *)

#[local] Instance by_created_at_trans : Transitive KeyframeService.by_created_at.
Proof. intros a b c. unfold KeyframeService.by_created_at. lia. Qed.

#[local] Instance by_created_at_total : Total KeyframeService.by_created_at.
Proof. intros a b. unfold KeyframeService.by_created_at. lia. Qed.

Lemma refresh_stale_created_at now k :
  Keyframe.created_at (KeyframeService.refresh_stale now k) = Keyframe.created_at k.
Proof. unfold KeyframeService.refresh_stale. now destruct (KeyframeService.is_stale now k). Qed.

(** A list-read of the keyframes of a script returns the keyframes of the
    script, each once, in the order of their creation.  It adds and removes
    no row; it leaves as it was every keyframe of another script, every
    keyframe that is not [GENERATING] and every keyframe without
    [updated_at]; a row it changes is [FAILED] with the timeout message;
    the video segments, the scripts and the tasks are as before. *)
Theorem list_read_leaves_the_other_keyframes (script_id : Z) (w : world) :
  NoDup (Keyframe.id <$> keyframes (db w)) ->
  exists rows w',
    KeyframeService.get_keyframes_by_script_id E script_id w = (Ok rows, w') /\
    Keyframe.id <$> rows ≡ₚ Keyframe.id <$> keyframes_of script_id (db w) /\
    StronglySorted KeyframeService.by_created_at rows /\
    Keyframe.id <$> keyframes (db w') = Keyframe.id <$> keyframes (db w) /\
    (forall k, k ∈ keyframes (db w) ->
       Keyframe.script_id k <> script_id \/
       Keyframe.status k <> KeyframeStatus.GENERATING \/
       Keyframe.updated_at k = None ->
       k ∈ keyframes (db w')) /\
    (forall k', k' ∈ keyframes (db w') ->
       k' ∈ keyframes (db w) \/
       (Keyframe.script_id k' = script_id /\
        Keyframe.status k' = KeyframeStatus.FAILED /\
        Keyframe.error_message k' = Some KeyframeService.stale_message)) /\
    video_segments (db w') = video_segments (db w) /\
    scripts (db w') = scripts (db w) /\
    tasks w' = tasks w.
Proof.
  intros Hnd.
  destruct (get_keyframes_by_script_id_run E script_id w Hnd)
    as (w' & Hrun & Hrows & Hv & Hs & Ht).
  eexists _, w'. split; [exact Hrun|]. split; [|split; [|split; [|split; [|split]]]].
  - rewrite <- list_fmap_compose.
    rewrite (list_fmap_ext (Keyframe.id ∘ KeyframeService.refresh_stale (utcnow E (log w)))
               Keyframe.id _).
    + apply fmap_Permutation, merge_sort_Permutation.
    + intros i k _. apply refresh_stale_id.
  - apply StronglySorted_fmap with (R1 := KeyframeService.by_created_at).
    + intros x y. unfold KeyframeService.by_created_at.
      now rewrite !refresh_stale_created_at.
    + apply StronglySorted_merge_sort; apply _.
  - rewrite Hrows, <- list_fmap_compose. apply list_fmap_ext.
    intros i k _. apply reaped_id.
  - intros k Hk Hkeep. rewrite Hrows.
    rewrite <- (reaped_unless_stale script_id (utcnow E (log w))
                  (db_now E (log w ++ [EvUtcNow])) k).
    + now apply list_elem_of_fmap_2.
    + destruct Hkeep as [Hsid|[Hst|Hup]].
      * apply Z.eqb_neq in Hsid. now rewrite Hsid.
      * apply andb_false_iff. right. unfold KeyframeService.is_stale.
        destruct (Keyframe.updated_at k); [|reflexivity].
        now rewrite (bool_decide_eq_false_2 _ Hst).
      * apply andb_false_iff. right. unfold KeyframeService.is_stale. now rewrite Hup.
  - intros k' Hk'. rewrite Hrows in Hk'.
    apply list_elem_of_fmap in Hk' as (k & -> & Hk). unfold reaped.
    destruct ((Keyframe.script_id k =? script_id)%Z && _) eqn:Hb; [|now left].
    right. apply andb_prop in Hb as [Hsid _]. apply Z.eqb_eq in Hsid. simpl. auto.
  - auto.
Qed.

End WithEnv.

Lemma list_read_leaves_the_other_keyframes_witness :
  exists rows w',
    KeyframeService.get_keyframes_by_script_id (Scenario.scripted [] ten_minutes) 2
      (Scenario.world_of stuck_db) = (Ok rows, w') /\
    keyframes (db w') = [stuck_keyframe].
Proof.
  destruct (list_read_leaves_the_other_keyframes (Scenario.scripted [] ten_minutes) 2
              (Scenario.world_of stuck_db))
    as (rows & w' & Hrun & _); [apply NoDup_singleton|].
  exists rows, w'. split; [exact Hrun|].
  vm_compute in Hrun. injection Hrun as _ <-. reflexivity.
Defined.


Lemma fresh_keyframes_use_their_prompt_witness :
  exists rows w',
    KeyframeService.generate_keyframes (Scenario.scripted [] 0) 1 (u "nano-banana")
      (u "16:9") None (Scenario.world_of Scenario.one_script) = (Ok rows, w') /\
    Forall (fun k => forall segment_map,
              KeyframeService.prompt_of k segment_map = Py.or_empty (Keyframe.prompt k))
           rows.
Proof.
  eexists _, _. split; [vm_compute; reflexivity|].
  eapply (fresh_keyframes_use_their_prompt (Scenario.scripted [] 0) 1 (u "nano-banana")
            (u "16:9") None (Scenario.world_of Scenario.one_script)).
  vm_compute. reflexivity.
Defined.

End RequestFacts.

(** ** Prompts of parsed segments *)

Module PromptFacts.
Import ScriptParser.

Lemma lstrip_suffix (s : str) : exists p, s = p ++ Py.lstrip s.
Proof.
  induction s as [|c s [p IH]]; [now exists []|]. simpl.
  destruct (Py.isspace c); [|now exists []].
  exists (c :: p). simpl. now f_equal.
Qed.

Lemma rstrip_prefix (s : str) : exists p, s = Py.rstrip s ++ p.
Proof.
  unfold Py.rstrip. destruct (lstrip_suffix (rev s)) as [p Hp].
  exists (rev p). rewrite <- rev_app_distr, <- Hp. now rewrite rev_involutive.
Qed.

(** A stripped string that is not empty starts and ends with a character
    that is not white space. *)
Lemma stripped_ends (s : str) :
  Py.strip s = s -> s <> [] ->
  Py.lstrip s = s /\ Py.lstrip (rev s) = rev s.
Proof.
  intros Hs Hne. unfold Py.strip in Hs.
  destruct (lstrip_suffix s) as [p Hp].
  destruct (rstrip_prefix (Py.lstrip s)) as [q Hq].
  assert (Hlen : length s = (length p + (length (Py.rstrip (Py.lstrip s)) + length q))%nat).
  { rewrite Hp at 1. rewrite length_app. rewrite Hq at 1. now rewrite length_app. }
  rewrite Hs in Hlen.
  assert (p = []) by (destruct p; [reflexivity|simpl in Hlen; lia]).
  assert (q = []) by (destruct q; [reflexivity|simpl in Hlen; lia]).
  subst p q. simpl in Hp. rewrite app_nil_r in Hq.
  split; [now symmetry|].
  rewrite <- Hp in Hq. unfold Py.rstrip in Hq.
  rewrite Hq at 2. now rewrite rev_involutive.
Qed.

Lemma lstrip_app_fixed (s t : str) :
  Py.lstrip s = s -> s <> [] -> Py.lstrip (s ++ t) = s ++ t.
Proof.
  destruct s as [|c s]; [congruence|]. simpl.
  destruct (Py.isspace c) eqn:Hc; [|reflexivity].
  intros H _. pose proof (StrFacts.length_lstrip s) as Hlen.
  rewrite H in Hlen. simpl in Hlen. lia.
Qed.

Lemma strip_app (s t : str) :
  Py.strip s = s -> s <> [] -> Py.lstrip (rev t) = rev t -> t <> [] ->
  Py.strip (s ++ t) = s ++ t.
Proof.
  intros Hs Hne Ht Htne. destruct (stripped_ends s Hs Hne) as [Hl _].
  unfold Py.strip, Py.rstrip. rewrite (lstrip_app_fixed s t Hl Hne).
  rewrite rev_app_distr, lstrip_app_fixed, <- rev_app_distr, rev_involutive; auto.
  intros H. apply (f_equal (@rev N)) in H. rewrite rev_involutive in H. auto.
Qed.

Section Segments.

Variable is_decimal : N -> bool.
Variable decimal_value : N -> N.

(** For a segment that [parse_script] returns, [extract_prompt_for_segment]
    gives the content as it is, except for the first frame of the first
    segment: there the opening keywords follow the content after a space,
    and stand alone, without the space, when the content is empty. *)
Theorem extract_prompt_of_parsed_segment (c : str) :
  Forall
    (fun seg =>
       extract_prompt_for_segment seg false = content seg
       /\ extract_prompt_for_segment seg true
          = if is_first seg then
              match content seg with
              | [] => u "开场画面，第一帧，初始场景"
              | _ :: _ => content seg ++ u " 开场画面，第一帧，初始场景"
              end
            else content seg)
    (parse_script is_decimal decimal_value c).
Proof.
  eapply Forall_impl; [apply (SegmentFacts.contents_stripped is_decimal decimal_value c)|].
  intros seg Hs. cbv beta in Hs. unfold extract_prompt_for_segment. cbn [andb].
  split; [exact Hs|].
  destruct (is_first seg); [|exact Hs].
  destruct (content seg) as [|x t] eqn:Hc; [reflexivity|].
  apply strip_app; [exact Hs|discriminate|reflexivity|discriminate].
Qed.

End Segments.

End PromptFacts.

(** ** The vendors and the model lists *)

Module VendorFacts.
Import Runtime Effects.

Lemma str_eqb_sym (a b : str) : Py.eqb a b = Py.eqb b a.
Proof.
  unfold Py.eqb. destruct (decide (a = b)) as [->|Hne].
  - now rewrite !bool_decide_eq_true_2.
  - rewrite !bool_decide_eq_false_2; auto.
Qed.

(** The errors of the HTTP client. *)
Definition is_transport_error (e : exn) : bool :=
  match e with
  | HTTPStatusError _ _ | RequestError _ => true
  | _ => false
  end.

(** No error of [result] is an error of the HTTP client. *)
Definition no_transport_error {A} (r : result A) : Prop :=
  match r with
  | Raise e => is_transport_error e = false
  | Ok _ => True
  end.

Lemma http_handlers_wrap {A} (m : M A) (w : world) :
  no_transport_error (fst (try_except m ImageGeneration.http_handlers w)).
Proof.
  unfold try_except. destruct (m w) as [[a|e] w1]; [exact I|].
  destruct e; reflexivity.
Qed.

Section WithEnv.

Variable E : env.

(** [generate_image] serves exactly the models that [ImageModelService]
    configures: for a model without configuration it raises, and no request
    is made; a configured model goes to JiMeng, to Nano Banana when the
    configuration says it supports a reference image, and to Sora Image,
    which is not given the reference image, when it says it does not. *)
Theorem generate_image_serves_the_configured_models
    (prompt model aspect_ratio : str) (quality reference : option str) :
  match ImageModelService.lookup model with
  | None =>
    forall w,
      ImageGeneration.generate_image E prompt model aspect_ratio quality reference w
      = (Raise (Exception (u "不支持的模型: " ++ model)),
         after w [EvGenerateImage prompt model aspect_ratio quality reference])
  | Some config =>
    ImageGeneration.generate_image E prompt model aspect_ratio quality reference
    = (emit (EvGenerateImage prompt model aspect_ratio quality reference) ;;
       if Py.eqb model (u "jimeng_t2i_v40") then
         ImageGeneration.generate_image_jimeng E prompt aspect_ratio quality reference
       else if ImageModelService.supports_reference config then
         ImageGeneration.generate_image_nano_banana E prompt model aspect_ratio quality
           reference
       else
         ImageGeneration.generate_image_sora E prompt aspect_ratio quality)
  end.
Proof.
  unfold ImageModelService.lookup, ImageModelService.MODEL_CONFIGS.
  cbn [List.find fst snd].
  unfold ImageGeneration.generate_image.
  rewrite (str_eqb_sym (u "jimeng_t2i_v40")), (str_eqb_sym (u "nano-banana-fast")),
    (str_eqb_sym (u "nano-banana")), (str_eqb_sym (u "sora-image")).
  destruct (Py.eqb model (u "jimeng_t2i_v40")) eqn:H1; [reflexivity|].
  destruct (Py.eqb model (u "nano-banana-fast")) eqn:H2; [reflexivity|].
  destruct (Py.eqb model (u "nano-banana")) eqn:H3; [reflexivity|].
  destruct (Py.eqb model (u "sora-image")) eqn:H4; [reflexivity|].
  intros w. reflexivity.
Qed.

Lemma bind_bind {A B C} (m : M A) (k : A -> M B) (k' : B -> M C) (w : world) :
  bind (bind m k) k' w = bind m (fun a => bind (k a) k') w.
Proof.
  unfold bind. destruct (m w) as [[a|e] w1]; reflexivity.
Qed.

Lemma quality_multiplier_cases (quality : option str) :
  ImageGeneration.quality_multiplier quality = (1, 1)
  \/ ImageGeneration.quality_multiplier quality = (3, 2)
  \/ ImageGeneration.quality_multiplier quality = (2, 1).
Proof.
  unfold ImageGeneration.quality_multiplier. destruct quality as [q|]; [|now left].
  repeat match goal with |- context [if ?b then _ else _] => destruct b end; auto.
Qed.

Lemma base_size_cases (aspect_ratio : str) :
  ImageGeneration.base_size aspect_ratio
  ∈ [(1024, 1024); (1920, 1080); (1080, 1920); (1024, 768); (768, 1024);
     (1536, 1024); (1024, 1536); (1280, 1024); (1024, 1280); (2560, 1080)].
Proof.
  unfold ImageGeneration.base_size.
  repeat match goal with |- context [if ?b then _ else _] => destruct b end;
    set_solver.
Qed.

Lemma jimeng_size (aspect_ratio : str) (quality : option str) :
  let base := ImageGeneration.base_size aspect_ratio in
  let multiplier := ImageGeneration.quality_multiplier quality in
  let width := fst base * fst multiplier / snd multiplier in
  let height := snd base * fst multiplier / snd multiplier in
  width * snd multiplier = fst base * fst multiplier
  /\ height * snd multiplier = snd base * fst multiplier
  /\ 768 <= width <= 5120 /\ 768 <= height <= 3840.
Proof.
  intros base multiplier. subst base multiplier.
  pose proof (base_size_cases aspect_ratio) as Hb.
  destruct (quality_multiplier_cases quality) as [Hq|[Hq|Hq]]; rewrite Hq;
    repeat (apply elem_of_cons in Hb as [->|Hb]; [vm_compute; intuition discriminate|]);
    now apply elem_of_nil in Hb.
Qed.

Opaque ImageGeneration.jimeng_poll.

(** With the keys of the Volc account configured, a JiMeng call starts with
    the POST that submits the task, and the width and the height that POST
    carries are the base size of the aspect ratio times the multiplier of
    the quality, exactly: no size of the table loses a fraction when 1.5
    times it is cut to an integer.  The sizes lie between 768 and 5120
    (width) and 3840 (height); the reference image goes along when there is
    one. *)
Theorem jimeng_request_carries_the_scaled_size
    (prompt aspect_ratio : str) (quality reference : option str) (w : world) :
  volc_access_key_id E <> [] ->
  volc_secret_access_key E <> [] ->
  exists (width height : N) (evs : list event),
    width * snd (ImageGeneration.quality_multiplier quality)
      = fst (ImageGeneration.base_size aspect_ratio)
        * fst (ImageGeneration.quality_multiplier quality)
    /\ height * snd (ImageGeneration.quality_multiplier quality)
      = snd (ImageGeneration.base_size aspect_ratio)
        * fst (ImageGeneration.quality_multiplier quality)
    /\ 768 <= width <= 5120 /\ 768 <= height <= 3840
    /\ log (snd (ImageGeneration.generate_image_jimeng E prompt aspect_ratio quality
                   reference w))
       = log w
         ++ EvPost (volc_base_url E ++ u "/")
              [(u "Action", u "CVSync2AsyncSubmitTask"); (u "Version", u "2022-08-31")]
              (JObj ([(u "req_key", JStr (u "jimeng_t2i_v40"));
                      (u "prompt", JStr prompt);
                      (u "force_single", JBool true)]
                     ++ (if Py.truthy reference
                         then [(u "image_urls", JList [JStr (Py.or_empty reference)])]
                         else [])
                     ++ [(u "width", JInt (Z.of_N width));
                         (u "height", JInt (Z.of_N height))]))
         :: evs.
Proof.
  intros Hid Hsecret.
  destruct (jimeng_size aspect_ratio quality) as (Hw & Hh & Hwb & Hhb).
  unfold ImageGeneration.generate_image_jimeng.
  destruct (ImageGeneration.quality_multiplier quality) as [num den].
  destruct (ImageGeneration.base_size aspect_ratio) as [base_width base_height].
  cbn [fst snd] in *.
  exists (base_width * num / den), (base_height * num / den).
  match goal with
  | |- exists evs, _ /\ _ /\ _ /\ _ /\ @?L evs =>
    enough (Hlog : exists evs, L evs)
      by (destruct Hlog as [evs Hlog]; exists evs; cbv beta in Hlog; auto)
  end.
  cbv beta.
  unfold ImageGeneration.volc_generate_image.
  rewrite (bool_decide_eq_false_2 _ Hid), (bool_decide_eq_false_2 _ Hsecret).
  cbn [orb fst snd]. rewrite bind_bind.
  replace (match (if Py.truthy reference then Some [Py.or_empty reference] else None) with
           | Some (r :: rs) => [(u "image_urls", JList (JStr <$> take 6 (r :: rs)))]
           | _ => []
           end)
    with (if Py.truthy reference
          then [(u "image_urls", JList [JStr (Py.or_empty reference)])] else [])
    by (destruct reference as [[|c r]|]; reflexivity).
  apply (post_then E 2 60). intros result.
  apply (calls_bind 2 60 0); [|intros; calls_leaf].
  repeat calls_step.
Qed.

Transparent ImageGeneration.jimeng_poll.

(** Whatever the vendor answers, [generate_image_nano_banana] and
    [generate_image_sora] raise no error of the HTTP client: a status error
    and a request error leave them as a plain [Exception]. *)
Theorem image_api_errors_are_wrapped
    (prompt model aspect_ratio : str) (quality reference : option str) (w : world) :
  no_transport_error
    (fst (ImageGeneration.generate_image_nano_banana E prompt model aspect_ratio quality
            reference w))
  /\ no_transport_error
       (fst (ImageGeneration.generate_image_sora E prompt aspect_ratio quality w)).
Proof.
  unfold ImageGeneration.generate_image_nano_banana, ImageGeneration.generate_image_sora.
  destruct (Py.truthy (image_api_key E)); cbn [negb].
  - split; apply http_handlers_wrap.
  - split; reflexivity.
Qed.

(** When the vendors answer the submission with an HTTP error status, the
    two functions of the image API raise [Exception("HTTP错误: <status>")],
    while the JiMeng function, which has no handler, lets the error of the
    HTTP client through as it is. *)
Theorem http_status_failure_by_vendor
    (prompt model aspect_ratio : str) (quality reference : option str) (w : world)
    (status_code : N) (msg : str) :
  Py.truthy (image_api_key E) = true ->
  volc_access_key_id E <> [] ->
  volc_secret_access_key E <> [] ->
  (forall url params body,
     http_post E (log w) url params body = Raise (HTTPStatusError status_code msg)) ->
  fst (ImageGeneration.generate_image_nano_banana E prompt model aspect_ratio quality
         reference w)
    = Raise (Exception (u "HTTP错误: " ++ Py.str_of_N status_code))
  /\ fst (ImageGeneration.generate_image_sora E prompt aspect_ratio quality w)
    = Raise (Exception (u "HTTP错误: " ++ Py.str_of_N status_code))
  /\ fst (ImageGeneration.generate_image_jimeng E prompt aspect_ratio quality
            reference w)
    = Raise (HTTPStatusError status_code msg).
Proof.
  intros Hkey Hid Hsecret Hpost.
  unfold ImageGeneration.generate_image_nano_banana, ImageGeneration.generate_image_sora,
    ImageGeneration.generate_image_jimeng, ImageGeneration.volc_generate_image.
  rewrite Hkey, (bool_decide_eq_false_2 _ Hid), (bool_decide_eq_false_2 _ Hsecret).
  cbn [negb orb].
  destruct (ImageGeneration.quality_multiplier quality) as [num den].
  destruct (ImageGeneration.base_size aspect_ratio) as [base_width base_height].
  unfold try_except, bind, post. rewrite !Hpost. repeat split.
Qed.

(** Every model that [VideoService.get_available_models] lists is served
    when the API key is configured: a model listed with first and last frame
    support goes to the Veo call and the others go to the Sora call; none
    meets the refusal of an unsupported model. *)
Theorem available_video_models_are_served :
  Py.truthy (video_api_key E) = true ->
  Forall
    (fun m =>
       forall prompt first_frame_url last_frame_url aspect_ratio duration,
         VideoService._call_video_generation_api E (Some (VideoService.info_id m)) prompt
           first_frame_url last_frame_url aspect_ratio duration
         = if VideoService.supports_first_last_frame m
           then VideoService._call_veo_api E (VideoService.info_id m) prompt
                  first_frame_url last_frame_url aspect_ratio
           else VideoService._call_sora_api E (VideoService.info_id m) prompt
                  last_frame_url aspect_ratio duration)
    VideoService.get_available_models.
Proof.
  intros Hkey. unfold VideoService.get_available_models.
  repeat constructor; intros; unfold VideoService._call_video_generation_api;
    rewrite Hkey; reflexivity.
Qed.

End WithEnv.

Lemma lookup_Some (model_id : str) (config : ImageModelService.model_config) :
  ImageModelService.lookup model_id = Some config ->
  (model_id, config) ∈ ImageModelService.MODEL_CONFIGS.
Proof.
  unfold ImageModelService.lookup.
  destruct (List.find _ _) as [[key config']|] eqn:Hfind; [|discriminate].
  intros [= <-]. apply find_some in Hfind as [Hin Hkey]. cbn [fst] in Hkey.
  apply bool_decide_eq_true in Hkey as <-. now apply list_elem_of_In.
Qed.

Lemma lookup_None (model_id : str) :
  ImageModelService.lookup model_id = None ->
  model_id ∉ (fst <$> ImageModelService.MODEL_CONFIGS).
Proof.
  unfold ImageModelService.lookup.
  destruct (List.find _ _) as [entry|] eqn:Hfind; [discriminate|].
  intros _ Hin. apply list_elem_of_fmap in Hin as ([key config] & -> & Hin).
  apply list_elem_of_In in Hin.
  pose proof (find_none _ _ Hfind _ Hin) as Hkey. cbn [fst] in Hkey.
  apply bool_decide_eq_false in Hkey. now apply Hkey.
Qed.

(** The queries of [ImageModelService] agree with the list it publishes:
    for a model of [get_available_models] the three queries return the
    listed configuration, its aspect ratios and its qualities, and the model
    has a quality selector exactly when it has qualities to select; for any
    other id the three raise the same [ValueError]. *)
Theorem model_queries_agree_with_the_list (model_id : str) :
  match ImageModelService.get_model_config model_id with
  | Ok (id, config) =>
    id = model_id
    /\ (model_id, config) ∈ ImageModelService.get_available_models
    /\ ImageModelService.get_aspect_ratios model_id
       = Ok (ImageModelService.aspect_ratios config)
    /\ ImageModelService.get_qualities model_id
       = Ok (ImageModelService.qualities config)
    /\ ImageModelService.has_quality_selector config
       = negb (bool_decide (ImageModelService.qualities config = []))
  | Raise e =>
    e = OtherError (u "不支持的模型: " ++ model_id)
    /\ (model_id ∉ (fst <$> ImageModelService.get_available_models))
    /\ ImageModelService.get_aspect_ratios model_id = Raise e
    /\ ImageModelService.get_qualities model_id = Raise e
  end.
Proof.
  unfold ImageModelService.get_model_config, ImageModelService.get_aspect_ratios,
    ImageModelService.get_qualities, ImageModelService.get_available_models,
    ImageModelService.unknown_model.
  destruct (ImageModelService.lookup model_id) as [config|] eqn:Hlookup.
  - apply lookup_Some in Hlookup. repeat split; auto.
    unfold ImageModelService.MODEL_CONFIGS in Hlookup.
    repeat (apply elem_of_cons in Hlookup as [[= -> ->]|Hlookup]; [reflexivity|]).
    now apply elem_of_nil in Hlookup.
  - apply lookup_None in Hlookup. repeat split; auto.
Qed.


(** Whatever aspect ratio it is given, [generate_image_sora] sends a size
    that the configuration of [sora-image] lists, and a listed one is sent
    as it is. *)
Theorem sora_size_is_advertised (aspect_ratio : str) :
  exists config,
    ImageModelService.lookup (u "sora-image") = Some config
    /\ ImageGeneration.sora_size aspect_ratio ∈ ImageModelService.aspect_ratios config
    /\ (aspect_ratio ∈ ImageModelService.aspect_ratios config ->
        ImageGeneration.sora_size aspect_ratio = aspect_ratio).
Proof.
  eexists. split; [reflexivity|]. cbn [ImageModelService.aspect_ratios].
  split.
  - unfold ImageGeneration.sora_size.
    repeat match goal with |- context [if ?b then _ else _] => destruct b end;
      set_solver.
  - intros H.
    repeat (apply elem_of_cons in H as [->|H]; [reflexivity|]).
    now apply elem_of_nil in H.
Qed.

Lemma jimeng_request_carries_the_scaled_size_witness :
  exists (width height : N) (evs : list event),
    width * 2 = 1920 * 3 /\ height * 2 = 1080 * 3
    /\ 768 <= width <= 5120 /\ 768 <= height <= 3840
    /\ log (snd (ImageGeneration.generate_image_jimeng (Scenario.scripted [] 0)
                   (u "a") (u "16:9") (Some (u "2K")) None
                   (Scenario.world_of Scenario.empty_db)))
       = [] ++ EvPost (u "https://volc" ++ u "/")
              [(u "Action", u "CVSync2AsyncSubmitTask"); (u "Version", u "2022-08-31")]
              (JObj ([(u "req_key", JStr (u "jimeng_t2i_v40"));
                      (u "prompt", JStr (u "a"));
                      (u "force_single", JBool true)]
                     ++ []
                     ++ [(u "width", JInt (Z.of_N width));
                         (u "height", JInt (Z.of_N height))]))
         :: evs.
Proof.
  apply (jimeng_request_carries_the_scaled_size (Scenario.scripted [] 0)
           (u "a") (u "16:9") (Some (u "2K")) None (Scenario.world_of Scenario.empty_db));
    vm_compute; discriminate.
Defined.

Lemma http_status_failure_by_vendor_witness :
  fst (ImageGeneration.generate_image_nano_banana
         (Scenario.scripted [Raise (HTTPStatusError 503 (u "unavailable"))] 0)
         (u "a") (u "nano-banana") (u "1:1") None None
         (Scenario.world_of Scenario.empty_db))
    = Raise (Exception (u "HTTP错误: " ++ Py.str_of_N 503))
  /\ fst (ImageGeneration.generate_image_sora
            (Scenario.scripted [Raise (HTTPStatusError 503 (u "unavailable"))] 0)
            (u "a") (u "1:1") None (Scenario.world_of Scenario.empty_db))
    = Raise (Exception (u "HTTP错误: " ++ Py.str_of_N 503))
  /\ fst (ImageGeneration.generate_image_jimeng
            (Scenario.scripted [Raise (HTTPStatusError 503 (u "unavailable"))] 0)
            (u "a") (u "1:1") None None (Scenario.world_of Scenario.empty_db))
    = Raise (HTTPStatusError 503 (u "unavailable")).
Proof.
  apply (http_status_failure_by_vendor
           (Scenario.scripted [Raise (HTTPStatusError 503 (u "unavailable"))] 0)
           (u "a") (u "nano-banana") (u "1:1") None None
           (Scenario.world_of Scenario.empty_db) 503 (u "unavailable")).
  - reflexivity.
  - vm_compute; discriminate.
  - vm_compute; discriminate.
  - intros url params body. reflexivity.
Defined.

Lemma available_video_models_are_served_witness :
  Forall
    (fun m =>
       forall prompt first_frame_url last_frame_url aspect_ratio duration,
         VideoService._call_video_generation_api (Scenario.scripted [] 0)
           (Some (VideoService.info_id m)) prompt
           first_frame_url last_frame_url aspect_ratio duration
         = if VideoService.supports_first_last_frame m
           then VideoService._call_veo_api (Scenario.scripted [] 0)
                  (VideoService.info_id m) prompt
                  first_frame_url last_frame_url aspect_ratio
           else VideoService._call_sora_api (Scenario.scripted [] 0)
                  (VideoService.info_id m) prompt
                  last_frame_url aspect_ratio duration)
    VideoService.get_available_models.
Proof.
  apply (available_video_models_are_served (Scenario.scripted [] 0)). reflexivity.
Defined.

End VendorFacts.
